(** * pywwt layers: a shallow embedding of [pywwt/layers.py]

    The development follows the source file top to bottom: the column
    guesser, the unit resolver, the trait machinery of [TableLayer]
    (validators, observers, the change listener), construction,
    [update_data], and finally the heap of layers and managers with
    [remove], [_add_layer] and [remove_layer]. *)

From Stdlib Require Import String Ascii List Bool Arith Lia QArith.
From Stdlib Require Import Sorting.Sorted Sorting.Permutation.
From stdpp Require Import base option list strings gmap.

Open Scope string_scope.
Open Scope list_scope.

(** ** Python strings *)

Module PyStr.

(** [str.lower] on the ASCII range; other code points are left alone. *)
Definition lower_ascii (c : ascii) : ascii :=
  let n := nat_of_ascii c in
  if (65 <=? n)%nat && (n <=? 90)%nat then ascii_of_nat (n + 32) else c.

Fixpoint lower (s : string) : string :=
  match s with
  | EmptyString => EmptyString
  | String c r => String (lower_ascii c) (lower r)
  end.

(** [s.startswith(p)] *)
Definition startswith (p s : string) : bool := String.prefix p s.

(** ['sep'.join(l)] *)
Fixpoint join (sep : string) (l : list string) : string :=
  match l with
  | [] => ""
  | [x] => x
  | x :: r => x ++ sep ++ join sep r
  end.

(** [sorted(l)] on strings, ordered by code point. *)
Fixpoint insert_sorted (x : string) (l : list string) : list string :=
  match l with
  | [] => [x]
  | y :: r => if String.leb x y then x :: y :: r else y :: insert_sorted x r
  end.

Definition sorted (l : list string) : list string :=
  foldr insert_sorted [] l.

End PyStr.

(** ** Python lists *)

Module PyList.

(** [l.count(x)] *)
Definition count (x : string) (l : list string) : nat :=
  length (filter (fun y => y = x) l).

(** [sum(l)] for a list of booleans. *)
Definition sum (l : list bool) : nat :=
  length (filter (fun b => b = true) l).

(** [l.index(True)]: the position of the first [True]; the length of the
    list stands for the [ValueError] of a list with none. *)
Fixpoint index_true (l : list bool) : nat :=
  match l with
  | [] => 0
  | true :: _ => 0
  | false :: r => S (index_true r)
  end.

End PyList.

(** ** The column guesser *)

Definition stem_pairs : list (string * string) :=
  [("ra", "dec"); ("lon", "lat"); ("lng", "lat")].

(** The body of the [for lon, lat in ...] loop of [guess_lon_lat_columns].
    Python's [None] is [None]; a column name is [Some name]. *)
Fixpoint guess_loop (colnames colnames_lower : list string)
    (pairs : list (string * string)) : option string * option string :=
  match pairs with
  | [] => (None, None)
  | (lon, lat) :: rest =>
      if (PyList.count lon colnames_lower =? 1)%nat
         && (PyList.count lat colnames_lower =? 1)%nat
      then (Some lon, Some lat)
      else
        let lon_match := map (PyStr.startswith lon) colnames_lower in
        let lat_match := map (PyStr.startswith lat) colnames_lower in
        if (PyList.sum lon_match =? 1)%nat && (PyList.sum lat_match =? 1)%nat
        then (colnames !! PyList.index_true lon_match,
              colnames !! PyList.index_true lat_match)
        else guess_loop colnames colnames_lower rest
  end.

Definition guess_lon_lat_columns (colnames : list string)
    : option string * option string :=
  let colnames_lower := map PyStr.lower colnames in
  guess_loop colnames colnames_lower stem_pairs.

Example guess_radec :
  guess_lon_lat_columns ["RA"; "Dec"; "Vmag"] = (Some "ra", Some "dec").
Proof. reflexivity. Qed.

Example guess_prefix :
  guess_lon_lat_columns ["RA_deg"; "Dec_deg"; "pm_ra"] = (Some "RA_deg", Some "Dec_deg").
Proof. reflexivity. Qed.

(** ** [base64.b64encode] *)

Module Base64.

Definition alphabet : string :=
  "ABCDEFGHIJKLMNOPQRSTUVWXYZabcdefghijklmnopqrstuvwxyz0123456789+/".

Definition sextet (n : N) : ascii :=
  match String.get (N.to_nat (n mod 64)) alphabet with
  | Some c => c
  | None => "="%char
  end.

Fixpoint encode (bytes : list N) : string :=
  match bytes with
  | [] => EmptyString
  | [a] =>
      let n := (a * 65536)%N in
      String (sextet (n / 262144)) (String (sextet (n / 4096)) "==")
  | [a; b] =>
      let n := (a * 65536 + b * 256)%N in
      String (sextet (n / 262144)) (String (sextet (n / 4096))
        (String (sextet (n / 64)) "="))
  | a :: b :: c :: rest =>
      let n := (a * 65536 + b * 256 + c)%N in
      String (sextet (n / 262144)) (String (sextet (n / 4096))
        (String (sextet (n / 64)) (String (sextet n) (encode rest))))
  end.

Definition b64encode (s : string) : string :=
  encode (map N_of_ascii (list_ascii_of_string s)).

Example b64encode_ra_dec :
  b64encode ("RA,Dec" ++ String "013"%char (String "010"%char EmptyString))
  = "UkEsRGVjDQo=".
Proof. reflexivity. Qed.

End Base64.

(** ** Python values, exceptions and the libraries the module imports *)

(** The values that flow through traits and messages: [None], a string, a
    number, a unit object. *)
Inductive Value (U : Type) : Type :=
  | VNone
  | VStr (s : string)
  | VFloat (q : Q)
  | VUnit (u : U).
Arguments VNone {U}.
Arguments VStr {U} s.
Arguments VFloat {U} q.
Arguments VUnit {U} u.

Inductive Exn : Type :=
  | ValueError (msg : string)
  | KeyError (msg : string)
  | TypeError
  | AttributeError
  | IndexError
  | TraitError
  | UnitError        (* astropy's [u.Unit(x)] rejected [x] *)
  | RecursionError.

(** A column of an astropy table, as far as this module looks at it: its
    name and its unit ([None] when the column carries none). *)
Record Column (U : Type) : Type := mkColumn {
  cname : string;
  cunit : option U
}.
Arguments mkColumn {U} cname cunit.
Arguments cname {U} c.
Arguments cunit {U} c.

Definition Table (U : Type) : Type := list (Column U).

(** [forallb] over all unordered pairs: no two entries are equal for [eqb]. *)
Fixpoint distinct_by {A : Type} (eqb : A -> A -> bool) (l : list A) : bool :=
  match l with
  | [] => true
  | x :: r => forallb (fun y => negb (eqb x y)) r && distinct_by eqb r
  end.

(** What the module takes from [astropy.units] and [astropy.table]
    ([table_write t] is the text [t.write] produces in the [ascii.basic]
    format with a comma as delimiter and no comment line).  [Unit]'s decidable Leibniz equality is object identity (the
    same registry entry, hence the same dictionary key); [unit_eqb] is
    astropy's [==], equality of what the units measure.  [u_Unit imperial x]
    is [u.Unit(x)], inside [u.imperial.enable()] when [imperial] is set;
    [None] is the exception astropy raises on what it cannot read. *)
Class Libraries : Type := {
  Unit : Type;
  Unit_eq_dec :: EqDecision Unit;
  unit_eqb : Unit -> Unit -> bool;
  unit_str : Unit -> string;
  u_Unit : bool -> Value Unit -> option Unit;
  u_deg : Unit; u_hour : Unit; u_hourangle : Unit;
  u_m : Unit; u_foot : Unit; u_inch : Unit; u_mile : Unit; u_km : Unit;
  u_au : Unit; u_lyr : Unit; u_pc : Unit; u_Mpc : Unit;
  table_write : Table Unit -> string;
  unit_eqb_refl : forall u, unit_eqb u u = true;
  unit_eqb_sym : forall u v, unit_eqb u v = unit_eqb v u;
  unit_eqb_trans : forall u v w,
    unit_eqb u v = true -> unit_eqb v w = true -> unit_eqb u w = true;
  u_Unit_unit : forall imperial u, u_Unit imperial (VUnit u) = Some u;
  u_Unit_None : forall imperial, u_Unit imperial VNone = None;
  u_Unit_hourangle : u_Unit false (VStr "hourangle") = Some u_hourangle;
  lon_units_distinct :
    distinct_by unit_eqb [u_deg; u_hour; u_hourangle] = true;
  alt_units_distinct :
    distinct_by unit_eqb
      [u_m; u_foot; u_inch; u_mile; u_km; u_au; u_lyr; u_pc; u_Mpc] = true
}.

(** ** A state-and-exception monad

    A Python call runs on the mutable state and either returns or raises;
    what it wrote before raising stays written. *)

Definition M (S A : Type) : Type := S -> S * (Exn + A).

Definition ret {S A} (a : A) : M S A := fun s => (s, inr a).
Definition raise {S A} (e : Exn) : M S A := fun s => (s, inl e).
Definition bind {S A B} (m : M S A) (k : A -> M S B) : M S B :=
  fun s => match m s with
           | (s', inr a) => k a s'
           | (s', inl e) => (s', inl e)
           end.
Definition lift {S A} (r : Exn + A) : M S A := fun s => (s, r).
Definition gets {S A} (f : S -> A) : M S A := fun s => (s, inr (f s)).
Definition modify {S} (f : S -> S) : M S unit := fun s => (f s, inr tt).

Notation "'do' x <- m ;; k" := (bind m (fun x => k))
  (at level 10, x name, m at level 99, k at level 200, only parsing).
Notation "'run' m ;; k" := (bind m (fun _ => k))
  (at level 10, m at level 99, k at level 200, only parsing).

(** ** A small unit registry

    An instance of [Libraries] on which the model runs: a unit is a name, a
    physical dimension and a scale (angles in arcseconds, times in seconds,
    lengths in tenths of a millimetre, rounded for the astronomical ones).
    Two units are [==] when dimension and scale agree; they are the same
    object when the name agrees too. *)

Module Sample.

Inductive Dim : Type := Angle | Time | Length | Mass.

Record SUnit : Type := mkSUnit { sname : string; sdim : Dim; sscale : N }.

#[global] Instance Dim_eq_dec : EqDecision Dim.
Proof. solve_decision. Defined.

#[global] Instance SUnit_eq_dec : EqDecision SUnit.
Proof. solve_decision. Defined.

Definition seqb (a b : SUnit) : bool :=
  bool_decide (sdim a = sdim b) && (sscale a =? sscale b)%N.

Definition deg := mkSUnit "deg" Angle 3600.
Definition hourangle := mkSUnit "hourangle" Angle 54000.
Definition arcmin := mkSUnit "arcmin" Angle 60.
Definition hour := mkSUnit "h" Time 3600.
Definition second := mkSUnit "s" Time 1.
Definition kg := mkSUnit "kg" Mass 1.
Definition m := mkSUnit "m" Length 10000.
Definition foot := mkSUnit "ft" Length 3048.
Definition inch := mkSUnit "inch" Length 254.
Definition mile := mkSUnit "mi" Length 16093440.
Definition km := mkSUnit "km" Length 10000000.
Definition au := mkSUnit "AU" Length 1495978707000000.
Definition lyr := mkSUnit "lyr" Length 94607304725808000000.
Definition pc := mkSUnit "pc" Length 308567758149136730000.
Definition Mpc := mkSUnit "Mpc" Length 308567758149136730000000000.
(** [u.Unit("60 arcmin")], [u.Unit("0.001 km")]: equal to [deg] and to [m],
    and other objects. *)
Definition arcmin60 := mkSUnit "60 arcmin" Angle 3600.
Definition millikm := mkSUnit "0.001 km" Length 10000.

Definition names : list (string * SUnit) :=
  [("deg", deg); ("degree", deg); ("hourangle", hourangle);
   ("arcmin", arcmin); ("60 arcmin", arcmin60);
   ("h", hour); ("hour", hour); ("hr", hour); ("s", second); ("kg", kg);
   ("m", m); ("meter", m); ("0.001 km", millikm); ("km", km);
   ("AU", au); ("au", au); ("lyr", lyr); ("pc", pc); ("Mpc", Mpc)].

Definition imperial_names : list (string * SUnit) :=
  [("ft", foot); ("foot", foot); ("inch", inch); ("mi", mile); ("mile", mile)].

Fixpoint lookup_name (s : string) (l : list (string * SUnit)) : option SUnit :=
  match l with
  | [] => None
  | (k, v) :: r => if String.eqb s k then Some v else lookup_name s r
  end.

Definition parse (imperial : bool) (x : Value SUnit) : option SUnit :=
  match x with
  | VUnit v => Some v
  | VStr s =>
      match lookup_name s names with
      | Some v => Some v
      | None => if imperial then lookup_name s imperial_names else None
      end
  | _ => None
  end.

(** The header line of the table; the rows play no part in what follows. *)
Definition write (t : Table SUnit) : string :=
  PyStr.join "," (map cname t) ++ String "010"%char EmptyString.

Lemma seqb_refl v : seqb v v = true.
Proof.
  unfold seqb. rewrite bool_decide_eq_true_2 by reflexivity.
  apply N.eqb_refl.
Qed.

Lemma seqb_sym v w : seqb v w = seqb w v.
Proof.
  unfold seqb. rewrite N.eqb_sym. f_equal.
  apply bool_decide_ext. split; congruence.
Qed.

Lemma seqb_trans a b c : seqb a b = true -> seqb b c = true -> seqb a c = true.
Proof.
  unfold seqb. rewrite !andb_true_iff, !bool_decide_eq_true, !N.eqb_eq.
  intros [-> ->] [-> ->]. split; reflexivity.
Qed.

#[global] Instance libs : Libraries := {|
  Unit := SUnit;
  unit_eqb := seqb;
  unit_str := sname;
  u_Unit := parse;
  u_deg := deg; u_hour := hour; u_hourangle := hourangle;
  u_m := m; u_foot := foot; u_inch := inch; u_mile := mile; u_km := km;
  u_au := au; u_lyr := lyr; u_pc := pc; u_Mpc := Mpc;
  table_write := write;
  unit_eqb_refl := seqb_refl;
  unit_eqb_sym := seqb_sym;
  unit_eqb_trans := seqb_trans;
  u_Unit_unit := fun _ _ => eq_refl;
  u_Unit_None := fun _ => eq_refl;
  u_Unit_hourangle := eq_refl;
  lon_units_distinct := eq_refl;
  alt_units_distinct := eq_refl
|}.

End Sample.

(** ** The layer: data *)

Inductive TraitType : Type := Unicode | Any | Float | Color.

Section Layer.
Context `{Libs : Libraries}.

Local Abbreviation Val := (Value Unit).
Local Abbreviation Dict := (list (Unit * string)).

(** Outbound messages, the calls of [parent._send_msg]. *)
Inductive Msg : Type :=
  | table_layer_create (id : string) (table : string) (frame : Val)
  | table_layer_update (id : string) (table : string)
  | table_layer_set (id : string) (setting : string) (value : Val)
  | table_layer_remove (id : string).

(** The module's dictionaries, in the order the source writes them (the
    order [for valid_unit in valid_units] visits the keys). *)
Definition VALID_LON_UNITS : Dict :=
  [(u_deg, "degrees"); (u_hour, "hours"); (u_hourangle, "hours")].

Definition VALID_ALT_UNITS : Dict :=
  [(u_m, "meters"); (u_foot, "feet"); (u_inch, "inches"); (u_mile, "miles");
   (u_km, "kilometers"); (u_au, "astronomicalUnits"); (u_lyr, "lightYears");
   (u_pc, "parsecs"); (u_Mpc, "megaParsecs")].

Definition VALID_ALT_TYPES : list string :=
  ["depth"; "altitude"; "distance"; "seaLevel"; "terrain"].

Definition keys (d : Dict) : list Unit := map fst d.

(** [unit in d]: the unit is one of the dictionary's keys. *)
Definition in_dict (unit : Unit) (d : Dict) : bool :=
  bool_decide (unit ∈ keys d).

(** [d[unit]]; [None] is the [KeyError]. *)
Fixpoint dict_get (unit : Unit) (d : Dict) : option string :=
  match d with
  | [] => None
  | (k, v) :: r => if decide (unit = k) then Some v else dict_get unit r
  end.

(** [unit == valid_unit] where [unit] may be [None]. *)
Definition py_unit_eq (unit : option Unit) (valid_unit : Unit) : bool :=
  match unit with
  | Some u0 => unit_eqb u0 valid_unit
  | None => false
  end.

Fixpoint pick_loop (unit : option Unit) (valid_units : list Unit) : option Unit :=
  match valid_units with
  | [] => unit
  | valid_unit :: rest =>
      if py_unit_eq unit valid_unit then Some valid_unit
      else pick_loop unit rest
  end.

Definition pick_unit_if_available (unit : option Unit) (valid_units : Dict)
    : option Unit :=
  pick_loop unit (keys valid_units).

(** The class body of [TableLayer]: each trait with its type, its default
    and its [wwt] tag. *)
Definition class_traits : list (string * (TraitType * Val * string)) :=
  [("lon_att", (Unicode, VStr "", "lngColumn"));
   ("lon_unit", (Any, VNone, "raUnits"));
   ("lat_att", (Unicode, VStr "", "latColumn"));
   ("alt_att", (Unicode, VStr "", "altColumn"));
   ("alt_unit", (Any, VNone, "altUnit"));
   ("alt_type", (Unicode, VStr "", "altType"));
   ("cmap_att", (Unicode, VStr "", "colorMapColumn"));
   ("size_att", (Unicode, VStr "", "sizeColumn"));
   ("size_scale", (Float, VFloat 10, "scaleFactor"));
   ("color", (Color, VStr "white", "color"));
   ("opacity", (Float, VFloat 1, "opacity"))].

Fixpoint assoc {A : Type} (k : string) (l : list (string * A)) : option A :=
  match l with
  | [] => None
  | (k', v) :: r => if String.eqb k k' then Some v else assoc k r
  end.

Definition trait_names : list string := map fst class_traits.

Definition trait_type (name : string) : option TraitType :=
  match assoc name class_traits with
  | Some (t, _, _) => Some t
  | None => None
  end.

Definition trait_default (name : string) : Val :=
  match assoc name class_traits with
  | Some (_, d, _) => d
  | None => VNone
  end.

(** [self.trait_metadata(name, 'wwt')]: the tag, or [None] for a trait
    that carries none (the traits a subclass adds). *)
Definition trait_metadata (name : string) : option string :=
  match assoc name class_traits with
  | Some (_, _, w) => Some w
  | None => None
  end.

Record TableLayer : Type := mkLayer {
  table : option (Table Unit);
  frame : Val;
  id : string;
  _manager : option nat;
  _removed : bool;
  _trait_values : gmap string Val
}.

(** A layer together with what it has sent to its parent and the warnings
    it has issued. *)
Record LState : Type := mkLState {
  self : TableLayer;
  sent : list Msg;
  warned : list string
}.

Definition with_self (f : TableLayer -> TableLayer) (s : LState) : LState :=
  mkLState (f (self s)) (sent s) (warned s).

Definition set_table (t : option (Table Unit)) (L : TableLayer) : TableLayer :=
  mkLayer t (frame L) (id L) (_manager L) (_removed L) (_trait_values L).

Definition set_manager (m : option nat) (L : TableLayer) : TableLayer :=
  mkLayer (table L) (frame L) (id L) m (_removed L) (_trait_values L).

Definition set_removed (b : bool) (L : TableLayer) : TableLayer :=
  mkLayer (table L) (frame L) (id L) (_manager L) b (_trait_values L).

Definition store_trait (name : string) (v : Val) (L : TableLayer) : TableLayer :=
  mkLayer (table L) (frame L) (id L) (_manager L) (_removed L)
          (<[name := v]> (_trait_values L)).

(** Reading a trait: the stored value, or the declared default. *)
Definition trait (L : TableLayer) (name : string) : Val :=
  match _trait_values L !! name with
  | Some v => v
  | None => trait_default name
  end.

Definition send (m : Msg) : M LState unit :=
  modify (fun s => mkLState (self s) (sent s ++ [m]) (warned s)).

Definition warn (w : string) : M LState unit :=
  modify (fun s => mkLState (self s) (sent s) (warned s ++ [w])).

(** Python's [==] on the values a trait holds. *)
Definition py_eq (a b : Val) : bool :=
  match a, b with
  | VNone, VNone => true
  | VStr x, VStr y => String.eqb x y
  | VFloat x, VFloat y => Qeq_bool x y
  | VUnit x, VUnit y => unit_eqb x y
  | _, _ => false
  end.

(** ** The layer: validators *)

Definition unit_choices (d : Dict) : string :=
  PyStr.join "/" (PyStr.sorted (map unit_str (keys d))).

Definition _check_lon_unit (value : Val) : Exn + Unit :=
  match u_Unit false value with
  | None => inl UnitError
  | Some unit =>
      match pick_unit_if_available (Some unit) VALID_LON_UNITS with
      | Some unit =>
          if in_dict unit VALID_LON_UNITS then inr unit
          else inl (ValueError ("lon_unit should be one of "
                                  ++ unit_choices VALID_LON_UNITS))
      | None => inl (ValueError ("lon_unit should be one of "
                                   ++ unit_choices VALID_LON_UNITS))
      end
  end.

Definition _check_alt_unit (value : Val) : Exn + Unit :=
  match u_Unit true value with
  | None => inl UnitError
  | Some unit =>
      match pick_unit_if_available (Some unit) VALID_ALT_UNITS with
      | Some unit =>
          if in_dict unit VALID_ALT_UNITS then inr unit
          else inl (ValueError ("alt_unit should be one of "
                                  ++ unit_choices VALID_ALT_UNITS))
      | None => inl (ValueError ("alt_unit should be one of "
                                   ++ unit_choices VALID_ALT_UNITS))
      end
  end.

Definition _check_alt_type (value : Val) : Exn + Val :=
  match value with
  | VStr s =>
      if bool_decide (s ∈ VALID_ALT_TYPES) then inr value
      else inl (ValueError ("alt_type should be one of "
                              ++ PyStr.join "/" VALID_ALT_TYPES))
  | _ => inl (ValueError ("alt_type should be one of "
                            ++ PyStr.join "/" VALID_ALT_TYPES))
  end.

(** The trait type's own check.
    Modelled from the spec: the trait classes of [pywwt/traits.py]
    ([Unicode] holds a string, [Float] a number, [Color] a color value
    given as a string, [Any] anything). *)
Definition type_validate (t : TraitType) (value : Val) : Exn + Val :=
  match t, value with
  | Any, _ => inr value
  | Unicode, VStr _ => inr value
  | Float, VFloat _ => inr value
  | Color, VStr _ => inr value
  | _, _ => inl TraitError
  end.

(** The methods registered with [@validate]. *)
Definition cross_validate (name : string) (value : Val) : Exn + Val :=
  if String.eqb name "lon_unit" then
    match _check_lon_unit value with inr unit => inr (VUnit unit) | inl e => inl e end
  else if String.eqb name "alt_unit" then
    match _check_alt_unit value with inr unit => inr (VUnit unit) | inl e => inl e end
  else if String.eqb name "alt_type" then _check_alt_type value
  else inr value.

(** What an assignment runs before storing: [None] passes an [Any] trait
    untouched, any other value goes through the type's check and then
    through the method registered for the name. *)
Definition validate (name : string) (value : Val) : Exn + Val :=
  match trait_type name, value with
  | Some Any, VNone => inr VNone
  | Some t, _ =>
      match type_validate t value with
      | inr v => cross_validate name v
      | inl e => inl e
      end
  | None, _ => inr value
  end.

(** ** The layer: the change listener and the observers *)

Definition _on_trait_change (name : string) (new : Val) : M LState unit :=
  match trait_metadata name with
  | None => ret tt
  | Some wwt_name =>
      do value <-
        (if String.eqb name "alt_unit" then
           do unit <- lift (_check_alt_unit new) ;;
           match dict_get unit VALID_ALT_UNITS with
           | Some token => ret (VStr token)
           | None => raise (KeyError "alt_unit")
           end
         else if String.eqb name "lon_unit" then
           do unit <- lift (_check_lon_unit new) ;;
           match dict_get unit VALID_LON_UNITS with
           | Some token => ret (VStr token)
           | None => raise (KeyError "lon_unit")
           end
         else ret new) ;;
      do L <- gets self ;;
      send (table_layer_set (id L) wwt_name value)
  end.

(** [self.name = value] on a trait: validate, store, and when the value
    differs from the old one call the observers registered for the name
    ([observer]) and then the listener installed on every trait. *)
Definition set_with (observer : M LState unit) (name : string) (value : Val)
    : M LState unit :=
  do new_value <- lift (validate name value) ;;
  do L <- gets self ;;
  let old_value := trait L name in
  run modify (with_self (store_trait name new_value)) ;;
  if py_eq old_value new_value then ret tt
  else run observer ;; _on_trait_change name new_value.

Definition set_alt_unit (value : Val) : M LState unit :=
  set_with (ret tt) "alt_unit" value.

Definition set_lon_unit (value : Val) : M LState unit :=
  set_with (ret tt) "lon_unit" value.

(** [self.table[name]] and [self.table.colnames]. *)
Definition table_column (name : string) : M LState (Column Unit) :=
  do L <- gets self ;;
  match table L with
  | None => raise TypeError
  | Some t =>
      match find (fun c => String.eqb (cname c) name) t with
      | Some c => ret c
      | None => raise (KeyError name)
      end
  end.

Definition table_colnames : M LState (list string) :=
  do L <- gets self ;;
  match table L with
  | None => raise AttributeError
  | Some t => ret (map cname t)
  end.

(** A trait read where the code takes its length or looks it up. *)
Definition trait_str (name : string) : M LState string :=
  do L <- gets self ;;
  match trait L name with
  | VStr s => ret s
  | _ => raise TypeError
  end.

Definition unit_repr (unit : option Unit) : string :=
  match unit with Some u0 => unit_str u0 | None => "None" end.

Definition _on_alt_att_change : M LState unit :=
  do alt_att <- trait_str "alt_att" ;;
  if (String.length alt_att =? 0)%nat then ret tt
  else
    do column <- table_column alt_att ;;
    match pick_unit_if_available (cunit column) VALID_ALT_UNITS with
    | Some unit =>
        if in_dict unit VALID_ALT_UNITS then set_alt_unit (VUnit unit)
        else warn ("Column " ++ alt_att ++ " has units of " ++ unit_str unit
                   ++ " but this is not a valid unit of altitude - set the unit directly with alt_unit")
    | None => ret tt
    end.

Definition _on_lon_att_change : M LState unit :=
  do lon_att <- trait_str "lon_att" ;;
  if (String.length lon_att =? 0)%nat then ret tt
  else
    do column <- table_column lon_att ;;
    match pick_unit_if_available (cunit column) VALID_LON_UNITS with
    | Some unit =>
        if in_dict unit VALID_LON_UNITS then set_lon_unit (VUnit unit)
        else warn ("Column " ++ lon_att ++ " has units of " ++ unit_str unit
                   ++ " but this is not a valid unit of longitude - set the unit directly with lon_unit")
    | None => ret tt
    end.

Definition set_alt_att (value : Val) : M LState unit :=
  set_with _on_alt_att_change "alt_att" value.

Definition set_lon_att (value : Val) : M LState unit :=
  set_with _on_lon_att_change "lon_att" value.

(** [setattr(self, name, value)] for a trait name: the observers of the
    class are those of [alt_att] and [lon_att]. *)
Definition setattr (name : string) (value : Val) : M LState unit :=
  if String.eqb name "alt_att" then set_alt_att value
  else if String.eqb name "lon_att" then set_lon_att value
  else set_with (ret tt) name value.

(** ** The layer: serialisation, construction, [update_data] *)

(** [s.replace('\n', '\r\n')] *)
Fixpoint crlf (s : string) : string :=
  match s with
  | EmptyString => EmptyString
  | String c r =>
      if Ascii.eqb c "010"%char
      then String "013"%char (String "010"%char (crlf r))
      else String c (crlf r)
  end.

(** [s.encode('ascii', errors='replace')] *)
Fixpoint encode_ascii_replace (s : string) : string :=
  match s with
  | EmptyString => EmptyString
  | String c r =>
      String (if (nat_of_ascii c <? 128)%nat then c else "?"%char)
             (encode_ascii_replace r)
  end.

Definition _table_b64 : M LState string :=
  do L <- gets self ;;
  match table L with
  | None => raise AttributeError
  | Some t => ret (Base64.b64encode (encode_ascii_replace (crlf (table_write t))))
  end.

Definition _initialize_layer : M LState unit :=
  do L <- gets self ;;
  do b64 <- _table_b64 ;;
  send (table_layer_create (id L) b64 (frame L)).

(** [guess or fallback]: the guess when it is a non-empty string. *)
Definition py_or (guess : option string) (fallback : M LState string)
    : M LState string :=
  match guess with
  | Some g => if (String.length g =? 0)%nat then fallback else ret g
  | None => fallback
  end.

(** [self.table.colnames[i]] *)
Definition colname_at (i : nat) : M LState string :=
  do colnames <- table_colnames ;;
  match colnames !! i with
  | Some c => ret c
  | None => raise IndexError
  end.

(** [HasTraits.__init__] with the keywords.  traitlets is no part of the
    repository; as the specification has it ("apply overrides: this
    triggers validation and notification per attribute") each keyword is
    assigned in turn.  traitlets itself holds the notifications back until
    every keyword is stored, so that observers and the listener run later
    than here; what is proved below through [apply_kwargs] is stated so that
    it does not depend on that order. *)
Fixpoint apply_kwargs (kwargs : list (string * Val)) : M LState unit :=
  match kwargs with
  | [] => ret tt
  | (key, value) :: rest => run setattr key value ;; apply_kwargs rest
  end.

Definition unknown_key (kwargs : list (string * Val)) : bool :=
  existsb (fun kv => negb (bool_decide (fst kv ∈ trait_names))) kwargs.

(** [__init__], first half: the plain attributes, the create message and
    the three forced defaults (the listener is installed after them; no
    trait is assigned before). *)
Definition init_defaults (uuid4 : string) (table : option (Table Unit))
    (frame : Val) : M LState unit :=
  run modify (with_self (fun L =>
        mkLayer table frame uuid4 None false (_trait_values L))) ;;
  run _initialize_layer ;;
  do L <- gets self ;;
  run _on_trait_change "size_scale" (trait L "size_scale") ;;
  do L <- gets self ;;
  run _on_trait_change "color" (trait L "color") ;;
  do L <- gets self ;;
  _on_trait_change "opacity" (trait L "opacity").

(** [__init__], second half: the check of the keywords, their assignment,
    and the defaults of [lon_att] and [lat_att]. *)
Definition init_traits (kwargs : list (string * Val)) : M LState unit :=
  if unknown_key kwargs
  then raise (KeyError "a key doesn't match any layer trait name")
  else
    run apply_kwargs kwargs ;;
    do colnames <- table_colnames ;;
    let (lon_guess, lat_guess) := guess_lon_lat_columns colnames in
    run (if bool_decide ("lon_att" ∈ map fst kwargs) then ret tt
         else do v <- py_or lon_guess (colname_at 0) ;; set_lon_att (VStr v)) ;;
    if bool_decide ("lat_att" ∈ map fst kwargs) then ret tt
    else do v <- py_or lat_guess (colname_at 1) ;; setattr "lat_att" (VStr v).

Definition __init__ (uuid4 : string) (table : option (Table Unit))
    (frame : Val) (kwargs : list (string * Val)) : M LState unit :=
  run init_defaults uuid4 table frame ;; init_traits kwargs.

(** The object [__new__] hands to [__init__]: no trait assigned yet. *)
Definition blank : TableLayer := mkLayer None VNone "" None false ∅.

(** Calling the class [TableLayer] with a parent that has received [log]
    so far. *)
Definition construct (log : list Msg) (uuid4 : string)
    (table : option (Table Unit)) (frame : Val) (kwargs : list (string * Val))
    : LState * (Exn + unit) :=
  __init__ uuid4 table frame kwargs (mkLState blank log []).

Definition update_data (table : option (Table Unit)) : M LState unit :=
  run modify (with_self (set_table table)) ;;
  do L <- gets self ;;
  do b64 <- _table_b64 ;;
  run send (table_layer_update (id L) b64) ;;
  do alt_att <- trait_str "alt_att" ;;
  run (if (0 <? String.length alt_att)%nat then
         do colnames <- table_colnames ;;
         if bool_decide (alt_att ∈ colnames) then _on_alt_att_change
         else set_alt_att (VStr "")
       else ret tt) ;;
  do colnames <- table_colnames ;;
  let (lon_guess, lat_guess) := guess_lon_lat_columns colnames in
  do lon_att <- trait_str "lon_att" ;;
  run (if bool_decide (lon_att ∈ colnames) then _on_lon_att_change
       else do v <- py_or lon_guess (colname_at 0) ;; set_lon_att (VStr v)) ;;
  do lat_att <- trait_str "lat_att" ;;
  if bool_decide (lat_att ∈ colnames) then ret tt
  else do v <- py_or lat_guess (colname_at 1) ;; setattr "lat_att" (VStr v).

(** [update_data()]: the parameter's default is [None]. *)
Definition update_data_default : M LState unit := update_data None.

(** ** Layers and managers on the heap *)

(** Objects are named by their address.  [managers] holds each manager's
    [_layers] list; every layer and manager shares the one parent, whose
    received messages are [wire]. *)
Record World : Type := mkWorld {
  layers : gmap nat TableLayer;
  managers : gmap nat (list nat);
  wire : list Msg;
  warnings : list string
}.

Definition _layers (w : World) (m : nat) : list nat :=
  match managers w !! m with Some ls => ls | None => [] end.

Definition set_layers (m : nat) (ls : list nat) (w : World) : World :=
  mkWorld (layers w) (<[m := ls]> (managers w)) (wire w) (warnings w).

(** A reference always names a live object; the model raises at once on
    one that does not. *)
Definition get_layer (layer : nat) : M World TableLayer :=
  fun w => match layers w !! layer with
           | Some L => (w, inr L)
           | None => (w, inl AttributeError)
           end.

(** A method of the layer at [layer], run in place. *)
Definition on_layer {A} (layer : nat) (m : M LState A) : M World A :=
  fun w => match layers w !! layer with
           | None => (w, inl AttributeError)
           | Some L =>
               let (s, res) := m (mkLState L (wire w) (warnings w)) in
               (mkWorld (<[layer := self s]> (layers w)) (managers w)
                        (sent s) (warned s), res)
           end.

(** [l.remove(x)] on a list known to hold [x]: drops its first occurrence. *)
Fixpoint list_remove (x : nat) (l : list nat) : list nat :=
  match l with
  | [] => []
  | y :: r => if decide (x = y) then r else y :: list_remove x r
  end.

(** [LayerManager.remove_layer], given how [layer.remove()] runs. *)
Definition remove_layer_with (layer_remove : nat -> M World unit)
    (m layer : nat) : M World unit :=
  do ls <- gets (fun w => _layers w m) ;;
  if bool_decide (layer ∈ ls) then
    run layer_remove layer ;;
    do ls <- gets (fun w => _layers w m) ;;
    if bool_decide (layer ∈ ls)
    then modify (set_layers m (list_remove layer ls))
    else ret tt
  else raise (ValueError "layer not in layer manager").

(** [TableLayer.remove].  [remove] and [remove_layer] call each other;
    [depth] is the room left on the interpreter's call stack. *)
Fixpoint remove (depth : nat) (layer : nat) : M World unit :=
  match depth with
  | O => raise RecursionError
  | S depth' =>
      do L <- get_layer layer ;;
      if _removed L then ret tt
      else
        run on_layer layer (send (table_layer_remove (id L))) ;;
        run on_layer layer (modify (with_self (set_removed true))) ;;
        match _manager L with
        | None => ret tt
        | Some m => remove_layer_with (remove depth') m layer
        end
  end.

Definition remove_layer (depth : nat) (m layer : nat) : M World unit :=
  remove_layer_with (remove depth) m layer.

Definition _add_layer (m layer : nat) : M World unit :=
  do _L <- get_layer layer ;;
  do ls <- gets (fun w => _layers w m) ;;
  if bool_decide (layer ∈ ls)
  then raise (ValueError "layer already exists in layer manager")
  else
    run modify (set_layers m (ls ++ [layer])) ;;
    on_layer layer (modify (with_self (set_manager (Some m)))).

(** [TableLayer(...)] on the heap: a fresh address, kept when [__init__]
    returns. *)
Definition TableLayer_new (uuid4 : string) (table : option (Table Unit))
    (frame : Val) (kwargs : list (string * Val)) : M World nat :=
  fun w =>
    let layer := fresh (dom (layers w)) in
    let (s, res) := construct (wire w) uuid4 table frame kwargs in
    match res with
    | inr _ =>
        (mkWorld (<[layer := self s]> (layers w)) (managers w)
                 (sent s) (warnings w ++ warned s), inr layer)
    | inl e =>
        (mkWorld (layers w) (managers w) (sent s) (warnings w ++ warned s),
         inl e)
    end.

Definition add_data_layer (m : nat) (uuid4 : string)
    (table : option (Table Unit)) (frame : Val) (kwargs : list (string * Val))
    : M World nat :=
  match table with
  | Some _ =>
      do layer <- TableLayer_new uuid4 table frame kwargs ;;
      run _add_layer m layer ;;
      ret layer
  | None => raise (ValueError "The table argument is required")
  end.

(** [LayerManager(parent)]: a new manager with no layer. *)
Definition LayerManager_new : M World nat :=
  fun w =>
    let m := fresh (dom (managers w)) in
    (set_layers m [] w, inr m).

(** The calls a program makes on managers and on layers: [_add_layer],
    [add_data_layer] and [remove_layer] on the manager [m], and [remove] on
    a layer. *)
Inductive Op : Type :=
  | attach (m layer : nat)
  | add (m : nat) (uuid4 : string) (table : option (Table Unit)) (frame : Val)
        (kwargs : list (string * Val))
  | detach (m layer : nat)
  | layer_remove (layer : nat).

Definition apply_op (depth : nat) (op : Op) : M World unit :=
  match op with
  | attach m layer => _add_layer m layer
  | add m uuid4 table frame kwargs =>
      do _layer <- add_data_layer m uuid4 table frame kwargs ;; ret tt
  | detach m layer => remove_layer depth m layer
  | layer_remove layer => remove depth layer
  end.

(** A sequence of calls; a call that raises leaves the state it reached
    and the program goes on with the next. *)
Fixpoint run_ops (depth : nat) (ops : list Op) (w : World) : World :=
  match ops with
  | [] => w
  | op :: rest => run_ops depth rest (fst (apply_op depth op w))
  end.

(** Along the sequence, no layer is attached to another manager than [m]
    at a time when [m] lists it. *)
Fixpoint keeps_own (depth m : nat) (ops : list Op) (w : World) : Prop :=
  match ops with
  | [] => True
  | op :: rest =>
      match op with
      | attach m' layer => m' = m \/ layer ∉ _layers w m
      | _ => True
      end
      /\ keeps_own depth m rest (fst (apply_op depth op w))
  end.

(** Counting messages on the wire. *)
Definition is_create (x : Msg) : bool :=
  match x with table_layer_create _ _ _ => true | _ => false end.

Definition is_set (setting : string) (x : Msg) : bool :=
  match x with
  | table_layer_set _ s _ => String.eqb s setting
  | _ => false
  end.

Definition is_remove (x : Msg) : bool :=
  match x with table_layer_remove _ => true | _ => false end.

Definition count_msgs (p : Msg -> bool) (l : list Msg) : nat :=
  length (List.filter p l).

(** ** Notions the properties are stated with *)

(** The order of [sorted] on strings. *)
Definition str_le (a b : string) : Prop := String.leb a b = true.

(** What construction sends before it looks at the keywords. *)
Definition default_messages (uuid4 : string) (t : Table Unit) (frame : Val)
    : list Msg :=
  [table_layer_create uuid4
     (Base64.b64encode (encode_ascii_replace (crlf (table_write t)))) frame;
   table_layer_set uuid4 "scaleFactor" (VFloat 10);
   table_layer_set uuid4 "color" (VStr "white");
   table_layer_set uuid4 "opacity" (VFloat 1)].

(** Neither a create message nor a set message for one of the three forced
    defaults. *)
Definition quiet (x : Msg) : bool :=
  negb (is_create x) && negb (is_set "scaleFactor" x)
  && negb (is_set "color" x) && negb (is_set "opacity" x).

(** [m] only appends to the wire, and what it appends satisfies [P]. *)
Definition sends_only {A} (P : Msg -> bool) (m : M LState A) : Prop :=
  forall s, exists extra,
    sent (fst (m s)) = sent s ++ extra /\ forallb P extra = true.

(** How a call may change the heap: every layer lives on with the manager
    it had, and every manager's list only loses entries. *)
Definition evolves (w w' : World) : Prop :=
  (forall r L, layers w !! r = Some L ->
     exists L', layers w' !! r = Some L' /\ _manager L' = _manager L)
  /\ (forall m, _layers w' m `sublist_of` _layers w m).

(** The invariant of manager [m]. *)
Definition manager_inv (m : nat) (w : World) : Prop :=
  NoDup (_layers w m)
  /\ (forall layer, layer ∈ _layers w m ->
        exists L, layers w !! layer = Some L /\ _manager L = Some m).

(** The heap once a live layer has sent its message and set its flag. *)
Definition marked (layer : nat) (L : TableLayer) (w : World) : World :=
  mkWorld (<[layer := set_removed true L]> (layers w)) (managers w)
          (wire w ++ [table_layer_remove (id L)]) (warnings w).

(** [m] leaves the layer's plain attributes alone and assigns no trait
    outside [names]. *)
Definition stores_only {A} (names : list string) (m : M LState A) : Prop :=
  forall s,
    table (self (fst (m s))) = table (self s)
    /\ id (self (fst (m s))) = id (self s)
    /\ (forall name, name ∉ names ->
          trait (self (fst (m s))) name = trait (self s) name).

(** [guess or colnames[i]] as a value: [None] is the [IndexError]. *)
Definition guess_or_column (guess : option string) (i : nat)
    (colnames : list string) : option string :=
  match guess with
  | Some g => if (String.length g =? 0)%nat then colnames !! i else Some g
  | None => colnames !! i
  end.

(** ** Parts of the methods, the container protocol and the text sent *)

(** The last lines of [__init__] (253 to 259): the defaults of [lon_att]
    and [lat_att]. *)
Definition init_columns (kwargs : list (string * Val)) : M LState unit :=
  do colnames <- table_colnames ;;
  let (lon_guess, lat_guess) := guess_lon_lat_columns colnames in
  run (if bool_decide ("lon_att" ∈ map fst kwargs) then ret tt
       else do v <- py_or lon_guess (colname_at 0) ;; set_lon_att (VStr v)) ;;
  if bool_decide ("lat_att" ∈ map fst kwargs) then ret tt
  else do v <- py_or lat_guess (colname_at 1) ;; setattr "lat_att" (VStr v).

(** No message with the tag [wwt_name]. *)
Definition untagged (wwt_name : string) (x : Msg) : bool :=
  negb (is_set wwt_name x).

(** [update_data] after its message: the part on [alt_att] (lines 288 to
    292) and the part on [lon_att] and [lat_att] (lines 294 to 302). *)
Definition update_alt : M LState unit :=
  do alt_att <- trait_str "alt_att" ;;
  if (0 <? String.length alt_att)%nat then
    do colnames <- table_colnames ;;
    if bool_decide (alt_att ∈ colnames) then _on_alt_att_change
    else set_alt_att (VStr "")
  else ret tt.

Definition update_lon_lat : M LState unit :=
  do colnames <- table_colnames ;;
  let (lon_guess, lat_guess) := guess_lon_lat_columns colnames in
  do lon_att <- trait_str "lon_att" ;;
  run (if bool_decide (lon_att ∈ colnames) then _on_lon_att_change
       else do v <- py_or lon_guess (colname_at 0) ;; set_lon_att (VStr v)) ;;
  do lat_att <- trait_str "lat_att" ;;
  if bool_decide (lat_att ∈ colnames) then ret tt
  else do v <- py_or lat_guess (colname_at 1) ;; setattr "lat_att" (VStr v).

(** A message that sets a trait. *)
Definition is_any_set (x : Msg) : bool :=
  match x with table_layer_set _ _ _ => true | _ => false end.

(** The state once [update_data] has stored the table [t] and sent its
    message. *)
Definition updated (t : Table Unit) (s : LState) : LState :=
  mkLState (set_table (Some t) (self s))
    (sent s ++ [table_layer_update (id (self s))
                  (Base64.b64encode (encode_ascii_replace (crlf (table_write t))))])
    (warned s).

(** [len(manager)] and [manager[item]] for an integer [item] (a negative
    one counts from the end). *)
Definition __len__ (w : World) (m : nat) : nat := length (_layers w m).

Definition __getitem__ (w : World) (m : nat) (item : Z) : Exn + nat :=
  let n := Z.of_nat (length (_layers w m)) in
  let i := if (item <? 0)%Z then (item + n)%Z else item in
  if ((i <? 0) || (n <=? i))%Z then inl IndexError
  else match _layers w m !! Z.to_nat i with
       | Some layer => inr layer
       | None => inl IndexError
       end.

(** Every line feed of [s] comes right after a carriage return
    ([prev_cr]: the character before [s] is one). *)
Fixpoint lf_after_cr (prev_cr : bool) (s : string) : bool :=
  match s with
  | EmptyString => true
  | String c r =>
      (if Ascii.eqb c "010"%char then prev_cr else true)
      && lf_after_cr (Ascii.eqb c "013"%char) r
  end.

(** [s.count(c)] for a character. *)
Fixpoint count_char (c : ascii) (s : string) : nat :=
  match s with
  | EmptyString => 0
  | String c' r => (if Ascii.eqb c' c then 1 else 0) + count_char c r
  end.

(** [s.isascii()] *)
Fixpoint isascii (s : string) : bool :=
  match s with
  | EmptyString => true
  | String c r => (nat_of_ascii c <? 128)%nat && isascii r
  end.

(** [base64.b64decode], the inverse the receiver applies: a character's
    place in the alphabet, four characters to three bytes, [=] padding. *)
Fixpoint alphabet_index (c : ascii) (s : string) (i : N) : N :=
  match s with
  | EmptyString => 0
  | String c' r => if Ascii.eqb c c' then i else alphabet_index c r (i + 1)
  end.

Definition unsextet (c : ascii) : N := alphabet_index c Base64.alphabet 0.

Fixpoint b64_decode (s : string) : list N :=
  match s with
  | String a (String b (String c (String d r))) =>
      let n := (((unsextet a * 64 + unsextet b) * 64 + unsextet c) * 64
                + unsextet d)%N in
      if Ascii.eqb d "="%char then
        if Ascii.eqb c "="%char then [(n / 65536)%N]
        else [(n / 65536)%N; ((n / 256) mod 256)%N]
      else (n / 65536)%N :: ((n / 256) mod 256)%N :: (n mod 256)%N
           :: b64_decode r
  | _ => []
  end.

Definition b64decode (s : string) : string :=
  string_of_list_ascii (map ascii_of_N (b64_decode s)).

(** [m] takes every state to one related to it by [R]. *)
Definition respects {A} (R : LState -> LState -> Prop) (m : M LState A) : Prop :=
  forall s, R s (fst (m s)).

(** The layer's attributes that are no traits are what they were. *)
Definition same_object (s s' : LState) : Prop :=
  table (self s') = table (self s) /\ frame (self s') = frame (self s)
  /\ id (self s') = id (self s) /\ _manager (self s') = _manager (self s)
  /\ _removed (self s') = _removed (self s).

(** The id a message carries. *)
Definition msg_id (x : Msg) : string :=
  match x with
  | table_layer_create i _ _ => i
  | table_layer_update i _ => i
  | table_layer_set i _ _ => i
  | table_layer_remove i => i
  end.

(** The layer keeps its id, and what it has sent since carries that id. *)
Definition sends_own_id (s s' : LState) : Prop :=
  id (self s') = id (self s)
  /\ exists extra, sent s' = sent s ++ extra
       /\ Forall (fun x => msg_id x = id (self s)) extra.

End Layer.

(** ** Sample data *)

Definition sample_table : Table Unit :=
  [mkColumn "ra" (Some Sample.hourangle); mkColumn "dec" (Some Sample.deg);
   mkColumn "dist" (Some Sample.millikm); mkColumn "flux" (Some Sample.kg);
   mkColumn "Vmag" None].

(** A constructed layer over [sample_table]. *)
Definition sample_state : LState :=
  fst (construct [] "layer-0" (Some sample_table) (VStr "Sky") []).

(** The sample layer after [alt_att = "dist"] (which derives [alt_unit = m]
    from the column) and then [alt_unit = "km"]. *)
Definition sample_state_km : LState :=
  fst (set_alt_unit (VStr "km") (fst (set_alt_att (VStr "dist") sample_state))).

(** A heap with one manager (at address 0) holding one layer (at address
    0), built by [LayerManager_new] and [add_data_layer]. *)
Definition empty_world : World := mkWorld ∅ ∅ [] [].

Definition sample_world : World :=
  fst (add_data_layer 0 "layer-0" (Some sample_table) (VStr "Sky") []
         (fst (LayerManager_new empty_world))).

(** A table of two columns, neither of them in [sample_table]. *)
Definition sample_lonlat : Table Unit :=
  [mkColumn "lon_deg" (Some Sample.deg); mkColumn "lat_deg" (Some Sample.deg)].

(** [sample_world] with a second manager, at address 1, holding no layer. *)
Definition sample_world2 : World := fst (LayerManager_new sample_world).

(** * Properties *)

Section Properties.
Context `{Libs : Libraries}.

Local Abbreviation Val := (Value Unit).
Local Abbreviation Dict := (list (Unit * string)).

(** ** Python's [sorted] *)

Lemma insert_sorted_perm x l : Permutation (x :: l) (PyStr.insert_sorted x l).
Proof.
  induction l as [|y r IH]; simpl; [reflexivity|].
  destruct (String.leb x y); [reflexivity|].
  rewrite perm_swap. now apply perm_skip.
Qed.

Lemma sorted_perm l : Permutation l (PyStr.sorted l).
Proof.
  induction l as [|x r IH]; simpl; [reflexivity|].
  etransitivity; [apply perm_skip, IH | apply insert_sorted_perm].
Qed.

Lemma insert_sorted_hd x y l :
  str_le y x -> HdRel str_le y l -> HdRel str_le y (PyStr.insert_sorted x l).
Proof.
  intros Hyx Hl. destruct l as [|z r]; simpl; [now constructor|].
  destruct (String.leb x z); constructor; trivial.
  now inversion Hl.
Qed.

Lemma insert_sorted_sorted x l :
  Sorted str_le l -> Sorted str_le (PyStr.insert_sorted x l).
Proof.
  induction 1 as [|y r Hs IH Hhd]; simpl; [repeat constructor|].
  destruct (String.leb x y) eqn:E.
  - constructor; [now constructor | now constructor].
  - constructor; [exact IH|].
    apply insert_sorted_hd; [|exact Hhd].
    destruct (String.leb_total x y) as [H|H]; [congruence | exact H].
Qed.

Lemma sorted_sorted l : Sorted str_le (PyStr.sorted l).
Proof.
  induction l as [|x r IH]; simpl; [constructor|].
  now apply insert_sorted_sorted.
Qed.

(** ** The unit resolver *)

Lemma distinct_by_tail (k : Unit) ks :
  distinct_by unit_eqb (k :: ks) = true -> distinct_by unit_eqb ks = true.
Proof. simpl. rewrite andb_true_iff. tauto. Qed.

Lemma distinct_by_head (k m : Unit) ks :
  distinct_by unit_eqb (k :: ks) = true -> m ∈ ks -> unit_eqb k m = false.
Proof.
  simpl. rewrite andb_true_iff, forallb_forall. intros [H _] Hm.
  apply list_elem_of_In in Hm. specialize (H m Hm).
  now apply negb_true_iff in H.
Qed.

(** A unit equal to a key resolves to that very key. *)
Lemma pick_loop_member (u0 m : Unit) ks :
  distinct_by unit_eqb ks = true ->
  m ∈ ks -> unit_eqb u0 m = true -> pick_loop (Some u0) ks = Some m.
Proof.
  induction ks as [|k ks IH]; intros Hd Hm He.
  - inversion Hm.
  - simpl. destruct (unit_eqb u0 k) eqn:Ek.
    + apply elem_of_cons in Hm as [->|Hm]; [reflexivity|].
      pose proof (distinct_by_head _ _ _ Hd Hm) as Hkm.
      rewrite unit_eqb_sym in Ek.
      rewrite (unit_eqb_trans _ _ _ Ek He) in Hkm. discriminate.
    + apply elem_of_cons in Hm as [->|Hm]; [congruence|].
      apply IH; eauto using distinct_by_tail.
Qed.

(** A unit equal to no key comes back as it was. *)
Lemma pick_loop_outside (u0 : Unit) ks :
  (forall k, k ∈ ks -> unit_eqb u0 k = false) ->
  pick_loop (Some u0) ks = Some u0.
Proof.
  induction ks as [|k ks IH]; intros H; simpl; [reflexivity|].
  rewrite (H k) by apply list_elem_of_here.
  apply IH. intros k' Hk'. apply H. now apply list_elem_of_further.
Qed.

Lemma pick_loop_None ks : pick_loop None ks = None.
Proof. induction ks; simpl; auto. Qed.

Lemma dict_get_key (m : Unit) (d : Dict) :
  m ∈ keys d -> exists token, dict_get m d = Some token.
Proof.
  induction d as [|[k v] d IH]; simpl; intros H; [inversion H|].
  destruct (decide (m = k)); [eauto|].
  apply elem_of_cons in H as [?|H]; [contradiction|auto].
Qed.

Lemma pick_loop_cases (u0 v : Unit) ks :
  pick_loop (Some u0) ks = Some v ->
  (v ∈ ks /\ unit_eqb u0 v = true) \/ v = u0.
Proof.
  induction ks as [|k ks IH]; simpl; intros H.
  - right. congruence.
  - destruct (unit_eqb u0 k) eqn:Ek.
    + left. injection H as <-. split; [apply list_elem_of_here | exact Ek].
    + destruct (IH H) as [[Hin He]| ->]; [left|right; reflexivity].
      split; [now apply list_elem_of_further | exact He].
Qed.

Lemma check_lon_member value (unit m : Unit) :
  u_Unit false value = Some unit ->
  m ∈ keys VALID_LON_UNITS -> unit_eqb unit m = true ->
  _check_lon_unit value = inr m.
Proof.
  intros Hu Hm He. unfold _check_lon_unit, pick_unit_if_available. rewrite Hu.
  rewrite (pick_loop_member unit m) by (auto; exact lon_units_distinct).
  unfold in_dict. now rewrite bool_decide_eq_true_2.
Qed.

Lemma check_alt_member value (unit m : Unit) :
  u_Unit true value = Some unit ->
  m ∈ keys VALID_ALT_UNITS -> unit_eqb unit m = true ->
  _check_alt_unit value = inr m.
Proof.
  intros Hu Hm He. unfold _check_alt_unit, pick_unit_if_available. rewrite Hu.
  rewrite (pick_loop_member unit m) by (auto; exact alt_units_distinct).
  unfold in_dict. now rewrite bool_decide_eq_true_2.
Qed.

Lemma outside_not_key (unit : Unit) (ks : list Unit) :
  (forall k, k ∈ ks -> unit_eqb unit k = false) -> unit ∉ ks.
Proof.
  intros H Hin. specialize (H unit Hin). rewrite unit_eqb_refl in H. discriminate.
Qed.

Lemma check_lon_outside value (unit : Unit) :
  u_Unit false value = Some unit ->
  (forall k, k ∈ keys VALID_LON_UNITS -> unit_eqb unit k = false) ->
  _check_lon_unit value
  = inl (ValueError ("lon_unit should be one of " ++ unit_choices VALID_LON_UNITS)).
Proof.
  intros Hu Hout. unfold _check_lon_unit, pick_unit_if_available. rewrite Hu.
  rewrite pick_loop_outside by exact Hout.
  unfold in_dict. rewrite bool_decide_eq_false_2; [reflexivity|].
  now apply outside_not_key.
Qed.

Lemma check_lon_inv value (m : Unit) :
  _check_lon_unit value = inr m ->
  m ∈ keys VALID_LON_UNITS
  /\ exists unit, u_Unit false value = Some unit /\ unit_eqb unit m = true.
Proof.
  unfold _check_lon_unit, pick_unit_if_available, in_dict.
  destruct (u_Unit false value) as [unit|]; [|discriminate].
  destruct (pick_loop _ _) as [v|] eqn:Ep; [|discriminate].
  case_bool_decide as Hin; [|discriminate].
  intros [= <-]. split; [exact Hin|]. exists unit. split; [reflexivity|].
  destruct (pick_loop_cases _ _ _ Ep) as [[_ He]| ->]; [exact He|].
  apply unit_eqb_refl.
Qed.

Lemma check_alt_inv value (m : Unit) :
  _check_alt_unit value = inr m ->
  m ∈ keys VALID_ALT_UNITS
  /\ exists unit, u_Unit true value = Some unit /\ unit_eqb unit m = true.
Proof.
  unfold _check_alt_unit, pick_unit_if_available, in_dict.
  destruct (u_Unit true value) as [unit|]; [|discriminate].
  destruct (pick_loop _ _) as [v|] eqn:Ep; [|discriminate].
  case_bool_decide as Hin; [|discriminate].
  intros [= <-]. split; [exact Hin|]. exists unit. split; [reflexivity|].
  destruct (pick_loop_cases _ _ _ Ep) as [[_ He]| ->]; [exact He|].
  apply unit_eqb_refl.
Qed.

(** A key passes its own check unchanged. *)
Lemma check_lon_key (m : Unit) :
  m ∈ keys VALID_LON_UNITS -> _check_lon_unit (VUnit m) = inr m.
Proof.
  intros Hm. apply (check_lon_member _ m m); auto using u_Unit_unit, unit_eqb_refl.
Qed.

Lemma check_alt_key (m : Unit) :
  m ∈ keys VALID_ALT_UNITS -> _check_alt_unit (VUnit m) = inr m.
Proof.
  intros Hm. apply (check_alt_member _ m m); auto using u_Unit_unit, unit_eqb_refl.
Qed.

(** ** Assignment to a trait *)

Lemma set_with_valid observer name value new_value s :
  validate name value = inr new_value ->
  set_with observer name value s
  = if py_eq (trait (self s) name) new_value
    then (with_self (store_trait name new_value) s, inr tt)
    else bind observer (fun _ => _on_trait_change name new_value)
              (with_self (store_trait name new_value) s).
Proof.
  intros H. unfold set_with, bind, lift, gets, modify. rewrite H. simpl.
  destruct (py_eq _ _); reflexivity.
Qed.

Lemma set_with_invalid observer name value e s :
  validate name value = inl e -> set_with observer name value s = (s, inl e).
Proof. intros H. unfold set_with, bind, lift. now rewrite H. Qed.

Lemma validate_lon_unit value :
  value <> VNone ->
  validate "lon_unit" value
  = match _check_lon_unit value with inr unit => inr (VUnit unit) | inl e => inl e end.
Proof. intros H. destruct value; try reflexivity. congruence. Qed.

Lemma validate_alt_unit value :
  value <> VNone ->
  validate "alt_unit" value
  = match _check_alt_unit value with inr unit => inr (VUnit unit) | inl e => inl e end.
Proof. intros H. destruct value; try reflexivity. congruence. Qed.

Lemma listener_lon_unit (m : Unit) token s :
  m ∈ keys VALID_LON_UNITS -> dict_get m VALID_LON_UNITS = Some token ->
  _on_trait_change "lon_unit" (VUnit m) s
  = (mkLState (self s)
       (sent s ++ [table_layer_set (id (self s)) "raUnits" (VStr token)])
       (warned s), inr tt).
Proof.
  intros Hm Hg. unfold _on_trait_change.
  change (trait_metadata "lon_unit") with (Some "raUnits").
  change (String.eqb "lon_unit" "alt_unit") with false.
  change (String.eqb "lon_unit" "lon_unit") with true.
  unfold bind, lift, gets, send, modify, ret. cbv iota.
  rewrite (check_lon_key m Hm), Hg. reflexivity.
Qed.

Lemma listener_alt_unit (m : Unit) token s :
  m ∈ keys VALID_ALT_UNITS -> dict_get m VALID_ALT_UNITS = Some token ->
  _on_trait_change "alt_unit" (VUnit m) s
  = (mkLState (self s)
       (sent s ++ [table_layer_set (id (self s)) "altUnit" (VStr token)])
       (warned s), inr tt).
Proof.
  intros Hm Hg. unfold _on_trait_change.
  change (trait_metadata "alt_unit") with (Some "altUnit").
  change (String.eqb "alt_unit" "alt_unit") with true.
  unfold bind, lift, gets, send, modify, ret. cbv iota.
  rewrite (check_alt_key m Hm), Hg. reflexivity.
Qed.

Lemma trait_store_same name v L : trait (store_trait name v L) name = v.
Proof. unfold trait, store_trait. simpl. now rewrite lookup_insert_eq. Qed.

Lemma trait_store_other name name' v L :
  name <> name' -> trait (store_trait name v L) name' = trait L name'.
Proof. intros H. unfold trait, store_trait. simpl. now rewrite lookup_insert_ne. Qed.

(** C3 (lon_unit validation).  Let the candidate be read by astropy as
    [unit].  If [unit] is equal, for astropy's [==], to a member [m] of the
    position family, the assignment returns and [lon_unit] holds [m] itself.
    If [unit] is equal to no member, the assignment raises a [ValueError]
    whose message is "lon_unit should be one of " followed by the members'
    names, sorted and joined by "/", and the state (the attribute included)
    is what it was. *)
Theorem lon_unit_assignment (s : LState) (value : Val) (unit : Unit) :
  u_Unit false value = Some unit ->
  keys VALID_LON_UNITS = [u_deg; u_hour; u_hourangle]
  /\ (forall m, m ∈ keys VALID_LON_UNITS -> unit_eqb unit m = true ->
      exists s', set_lon_unit value s = (s', inr tt)
                 /\ trait (self s') "lon_unit" = VUnit m)
  /\ ((forall k, k ∈ keys VALID_LON_UNITS -> unit_eqb unit k = false) ->
      exists options,
        set_lon_unit value s
        = (s, inl (ValueError ("lon_unit should be one of "
                                 ++ PyStr.join "/" options)))
        /\ Permutation (map unit_str (keys VALID_LON_UNITS)) options
        /\ Sorted str_le options).
Proof.
  intros Hu.
  assert (Hnn : value <> VNone).
  { intros ->. rewrite u_Unit_None in Hu. discriminate. }
  split; [reflexivity|]. split.
  - intros m Hm He. unfold set_lon_unit.
    rewrite (set_with_valid _ _ _ (VUnit m))
      by (rewrite validate_lon_unit, (check_lon_member _ unit m); auto).
    destruct (py_eq _ _).
    + eexists. split; [reflexivity|]. apply trait_store_same.
    + destruct (dict_get_key m VALID_LON_UNITS Hm) as [token Hg].
      unfold bind at 1, ret at 1.
      rewrite (listener_lon_unit m token) by assumption.
      eexists. split; [reflexivity|]. apply trait_store_same.
  - intros Hout. exists (PyStr.sorted (map unit_str (keys VALID_LON_UNITS))).
    split; [|split; [apply sorted_perm | apply sorted_sorted]].
    unfold set_lon_unit. apply set_with_invalid.
    rewrite validate_lon_unit by assumption.
    now rewrite (check_lon_outside _ unit).
Qed.

Lemma Value_None_or (value : Val) : value = VNone \/ value <> VNone.
Proof. destruct value; [now left | right; discriminate ..]. Qed.

Lemma listener_unit_None name s :
  name = "lon_unit" \/ name = "alt_unit" ->
  exists e, _on_trait_change name VNone s = (s, inl e).
Proof.
  intros [-> | ->]; unfold _on_trait_change;
    [change (trait_metadata "lon_unit") with (Some "raUnits")
    |change (trait_metadata "alt_unit") with (Some "altUnit")];
    unfold bind, lift, _check_lon_unit, _check_alt_unit; simpl;
    rewrite u_Unit_None; eauto.
Qed.

(** What a returning assignment to [lon_unit] has stored and sent. *)
Lemma set_lon_unit_returns value s s' :
  set_lon_unit value s = (s', inr tt) ->
  (value = VNone /\ trait (self s) "lon_unit" = VNone /\ sent s' = sent s)
  \/ exists unit m token,
       u_Unit false value = Some unit /\ unit_eqb unit m = true
       /\ m ∈ keys VALID_LON_UNITS
       /\ trait (self s') "lon_unit" = VUnit m
       /\ dict_get m VALID_LON_UNITS = Some token
       /\ sent s'
          = sent s ++ (if py_eq (trait (self s) "lon_unit") (VUnit m) then []
                       else [table_layer_set (id (self s)) "raUnits" (VStr token)]).
Proof.
  unfold set_lon_unit. destruct (validate "lon_unit" value) as [e|new] eqn:Hv.
  { rewrite (set_with_invalid _ _ _ e) by assumption. discriminate. }
  rewrite (set_with_valid _ _ _ new) by assumption.
  destruct (Value_None_or value) as [->|Hnn].
  - injection Hv as <-.
    destruct (py_eq (trait (self s) "lon_unit") VNone) eqn:E.
    + intros [= <-]. left. split; [reflexivity|]. split; [|reflexivity].
      destruct (trait (self s) "lon_unit"); try discriminate E. reflexivity.
    + unfold bind at 1, ret at 1.
      destruct (listener_unit_None "lon_unit"
                  (with_self (store_trait "lon_unit" VNone) s)) as [e ->]; auto.
      discriminate.
  - rewrite validate_lon_unit in Hv by assumption.
    destruct (_check_lon_unit value) as [|m] eqn:Hc; [discriminate|].
    injection Hv as <-. apply check_lon_inv in Hc as (Hm & unit & Hu & He).
    destruct (dict_get_key m VALID_LON_UNITS Hm) as [token Hg].
    destruct (py_eq (trait (self s) "lon_unit") (VUnit m)) eqn:E.
    + intros [= <-]. right. exists unit, m, token. rewrite E. simpl.
      rewrite trait_store_same, app_nil_r. auto 10.
    + unfold bind at 1, ret at 1.
      rewrite (listener_lon_unit m token) by assumption.
      intros [= <-]. right. exists unit, m, token. rewrite E. simpl.
      rewrite trait_store_same. auto 10.
Qed.

Lemma set_alt_unit_returns value s s' :
  set_alt_unit value s = (s', inr tt) ->
  (value = VNone /\ trait (self s) "alt_unit" = VNone /\ sent s' = sent s)
  \/ exists unit m token,
       u_Unit true value = Some unit /\ unit_eqb unit m = true
       /\ m ∈ keys VALID_ALT_UNITS
       /\ trait (self s') "alt_unit" = VUnit m
       /\ dict_get m VALID_ALT_UNITS = Some token
       /\ sent s'
          = sent s ++ (if py_eq (trait (self s) "alt_unit") (VUnit m) then []
                       else [table_layer_set (id (self s)) "altUnit" (VStr token)]).
Proof.
  unfold set_alt_unit. destruct (validate "alt_unit" value) as [e|new] eqn:Hv.
  { rewrite (set_with_invalid _ _ _ e) by assumption. discriminate. }
  rewrite (set_with_valid _ _ _ new) by assumption.
  destruct (Value_None_or value) as [->|Hnn].
  - injection Hv as <-.
    destruct (py_eq (trait (self s) "alt_unit") VNone) eqn:E.
    + intros [= <-]. left. split; [reflexivity|]. split; [|reflexivity].
      destruct (trait (self s) "alt_unit"); try discriminate E. reflexivity.
    + unfold bind at 1, ret at 1.
      destruct (listener_unit_None "alt_unit"
                  (with_self (store_trait "alt_unit" VNone) s)) as [e ->]; auto.
      discriminate.
  - rewrite validate_alt_unit in Hv by assumption.
    destruct (_check_alt_unit value) as [|m] eqn:Hc; [discriminate|].
    injection Hv as <-. apply check_alt_inv in Hc as (Hm & unit & Hu & He).
    destruct (dict_get_key m VALID_ALT_UNITS Hm) as [token Hg].
    destruct (py_eq (trait (self s) "alt_unit") (VUnit m)) eqn:E.
    + intros [= <-]. right. exists unit, m, token. rewrite E. simpl.
      rewrite trait_store_same, app_nil_r. auto 10.
    + unfold bind at 1, ret at 1.
      rewrite (listener_alt_unit m token) by assumption.
      intros [= <-]. right. exists unit, m, token. rewrite E. simpl.
      rewrite trait_store_same. auto 10.
Qed.

(** C5 (what the listener sends), amended.  A returning assignment to
    [lon_unit] or [alt_unit] of a value other than [None] stores the member
    [m] of the family that the value is equal to; when [m] is equal to the
    value held before, nothing is sent, and otherwise exactly one
    [table_layer_set] is sent, whose value is the dictionary's token for [m]
    and not the value assigned.  ([None] is accepted only where [None] is
    held, and sends nothing.)  Assigning the string "hourangle" to
    [lon_unit] returns for every layer and stores [hourangle]; the token
    "hours" is sent exactly when the value held before is not equal to
    [hourangle].  The listener sends nothing for a trait without a [wwt]
    tag. *)
Theorem unit_message_carries_token (s : LState) :
  (forall value s', set_lon_unit value s = (s', inr tt) ->
     (value = VNone /\ trait (self s) "lon_unit" = VNone /\ sent s' = sent s)
     \/ exists unit m token,
          u_Unit false value = Some unit /\ unit_eqb unit m = true
          /\ m ∈ keys VALID_LON_UNITS
          /\ trait (self s') "lon_unit" = VUnit m
          /\ dict_get m VALID_LON_UNITS = Some token
          /\ sent s'
             = sent s ++ (if py_eq (trait (self s) "lon_unit") (VUnit m) then []
                          else [table_layer_set (id (self s)) "raUnits"
                                  (VStr token)]))
  /\ (forall value s', set_alt_unit value s = (s', inr tt) ->
     (value = VNone /\ trait (self s) "alt_unit" = VNone /\ sent s' = sent s)
     \/ exists unit m token,
          u_Unit true value = Some unit /\ unit_eqb unit m = true
          /\ m ∈ keys VALID_ALT_UNITS
          /\ trait (self s') "alt_unit" = VUnit m
          /\ dict_get m VALID_ALT_UNITS = Some token
          /\ sent s'
             = sent s ++ (if py_eq (trait (self s) "alt_unit") (VUnit m) then []
                          else [table_layer_set (id (self s)) "altUnit"
                                  (VStr token)]))
  /\ (exists s', set_lon_unit (VStr "hourangle") s = (s', inr tt)
        /\ trait (self s') "lon_unit" = VUnit u_hourangle
        /\ sent s'
           = sent s ++ (if py_eq (trait (self s) "lon_unit") (VUnit u_hourangle)
                        then []
                        else [table_layer_set (id (self s)) "raUnits"
                                (VStr "hours")]))
  /\ (forall name new, trait_metadata name = None ->
      _on_trait_change name new s = (s, inr tt)).
Proof.
  split; [intros value s' H; exact (set_lon_unit_returns _ _ _ H)|].
  split; [intros value s' H; exact (set_alt_unit_returns _ _ _ H)|].
  split.
  - assert (Hk : u_hourangle ∈ keys VALID_LON_UNITS).
    { simpl. apply list_elem_of_further, list_elem_of_further, list_elem_of_here. }
    assert (Hg : dict_get u_hourangle VALID_LON_UNITS = Some "hours").
    { simpl. pose proof lon_units_distinct as Hd. simpl in Hd.
      rewrite !andb_true_iff, !negb_true_iff in Hd.
      destruct Hd as ((Hdh & Hda & _) & (Hha & _) & _).
      destruct (decide (u_hourangle = u_deg)) as [E|_].
      { rewrite <- E, unit_eqb_refl in Hda. discriminate. }
      destruct (decide (u_hourangle = u_hour)) as [E|_]; [reflexivity|].
      destruct (decide (u_hourangle = u_hourangle)); [reflexivity|congruence]. }
    unfold set_lon_unit.
    rewrite (set_with_valid _ _ _ (VUnit u_hourangle)).
    + destruct (py_eq (trait (self s) "lon_unit") (VUnit u_hourangle)).
      * eexists. split; [reflexivity|]. simpl.
        rewrite trait_store_same, app_nil_r. auto.
      * unfold bind at 1, ret at 1.
        rewrite (listener_lon_unit u_hourangle "hours") by assumption.
        eexists. split; [reflexivity|]. simpl.
        split; [apply trait_store_same | reflexivity].
    + rewrite validate_lon_unit by discriminate.
      rewrite (check_lon_member (VStr "hourangle") u_hourangle u_hourangle);
        auto using u_Unit_hourangle, unit_eqb_refl.
  - intros name new H. unfold _on_trait_change. now rewrite H.
Qed.

(** ** Running the monad *)

Lemma bind_returns {S A B} (m : M S A) (k : A -> M S B) s s' a :
  m s = (s', inr a) -> bind m k s = k a s'.
Proof. intros H. unfold bind. now rewrite H. Qed.

Lemma bind_raises {S A B} (m : M S A) (k : A -> M S B) s s' e :
  m s = (s', inl e) -> bind m k s = (s', inl e).
Proof. intros H. unfold bind. now rewrite H. Qed.

Lemma listener_plain name wwt_name new s :
  trait_metadata name = Some wwt_name ->
  String.eqb name "alt_unit" = false -> String.eqb name "lon_unit" = false ->
  _on_trait_change name new s
  = (mkLState (self s)
       (sent s ++ [table_layer_set (id (self s)) wwt_name new]) (warned s),
     inr tt).
Proof.
  intros Hm Ha Hl. unfold _on_trait_change. rewrite Hm, Ha, Hl. reflexivity.
Qed.

Lemma validate_alt_att name : validate "alt_att" (VStr name) = inr (VStr name).
Proof. reflexivity. Qed.

Lemma string_length_0 (x : string) : (String.length x =? 0)%nat = true <-> x = "".
Proof. destruct x; simpl; split; congruence. Qed.

(** [set_alt_unit] on a member of the family: it is stored, and no warning
    is issued. *)
Lemma set_alt_unit_key (m : Unit) s :
  m ∈ keys VALID_ALT_UNITS ->
  exists s', set_alt_unit (VUnit m) s = (s', inr tt)
    /\ self s' = store_trait "alt_unit" (VUnit m) (self s)
    /\ warned s' = warned s.
Proof.
  intros Hm. unfold set_alt_unit.
  rewrite (set_with_valid _ _ _ (VUnit m))
    by (rewrite validate_alt_unit, check_alt_key; auto; discriminate).
  destruct (py_eq _ _); [eexists; split; [reflexivity|]; auto|].
  destruct (dict_get_key m VALID_ALT_UNITS Hm) as [token Hg].
  unfold bind at 1, ret at 1. rewrite (listener_alt_unit m token) by assumption.
  eexists. split; [reflexivity|]. auto.
Qed.

(** The observer of [alt_att], once the new name is stored, on its four
    paths. *)
Lemma on_alt_att_change_empty s :
  trait (self s) "alt_att" = VStr "" -> _on_alt_att_change s = (s, inr tt).
Proof.
  intros H. unfold _on_alt_att_change, trait_str, bind, gets. now rewrite H.
Qed.

Lemma on_alt_att_change_column s name t column :
  trait (self s) "alt_att" = VStr name -> name <> "" ->
  table (self s) = Some t ->
  find (fun c => String.eqb (cname c) name) t = Some column ->
  _on_alt_att_change s
  = match pick_unit_if_available (cunit column) VALID_ALT_UNITS with
    | Some unit =>
        if in_dict unit VALID_ALT_UNITS then set_alt_unit (VUnit unit) s
        else warn ("Column " ++ name ++ " has units of " ++ unit_str unit
                   ++ " but this is not a valid unit of altitude - set the unit directly with alt_unit") s
    | None => (s, inr tt)
    end.
Proof.
  intros Ha Hne Ht Hf.
  assert (E : (String.length name =? 0)%nat = false).
  { destruct (String.length name =? 0)%nat eqn:E; [|reflexivity].
    apply string_length_0 in E. contradiction. }
  unfold _on_alt_att_change, trait_str, table_column, bind, gets, ret, raise.
  rewrite Ha. cbv beta iota. rewrite E, Ht, Hf. cbv beta iota.
  destruct (pick_unit_if_available _ _) as [unit|]; [|reflexivity].
  destruct (in_dict unit VALID_ALT_UNITS); reflexivity.
Qed.

(** An assignment that changes [alt_att] is the observer, run on the state
    with the new name stored, and then the listener's one message. *)
Lemma set_alt_att_changed s name s2 :
  py_eq (trait (self s) "alt_att") (VStr name) = false ->
  _on_alt_att_change (with_self (store_trait "alt_att" (VStr name)) s)
  = (s2, inr tt) ->
  exists s', set_alt_att (VStr name) s = (s', inr tt)
    /\ self s' = self s2 /\ warned s' = warned s2.
Proof.
  intros Hne Hobs. unfold set_alt_att.
  rewrite (set_with_valid _ _ _ (VStr name)) by apply validate_alt_att.
  rewrite Hne, (bind_returns _ _ _ _ _ Hobs).
  rewrite (listener_plain "alt_att" "altColumn") by reflexivity.
  eexists. split; [reflexivity|]. auto.
Qed.

(** C4, amended (the observer of [alt_att]).  For every assignment that
    changes [alt_att] to the string [name]: when [name] is empty, [alt_unit]
    and the warnings stay as they were; otherwise, with [column] the column
    of that name, when its unit is equal to a member [m] of the altitude
    family [alt_unit] becomes [m] and no warning is issued; when it has a
    unit equal to no member, one warning is issued, nothing is raised and
    [alt_unit] stays; when it has no unit, [alt_unit] and the warnings
    stay. *)
Theorem alt_att_change (s : LState) (name : string) :
  py_eq (trait (self s) "alt_att") (VStr name) = false ->
  (name = "" ->
   exists s', set_alt_att (VStr name) s = (s', inr tt)
     /\ trait (self s') "alt_unit" = trait (self s) "alt_unit"
     /\ warned s' = warned s)
  /\ (forall t column,
      name <> "" -> table (self s) = Some t ->
      find (fun c => String.eqb (cname c) name) t = Some column ->
      (forall unit m,
         cunit column = Some unit ->
         m ∈ keys VALID_ALT_UNITS -> unit_eqb unit m = true ->
         exists s', set_alt_att (VStr name) s = (s', inr tt)
           /\ trait (self s') "alt_unit" = VUnit m
           /\ warned s' = warned s)
      /\ (forall unit,
         cunit column = Some unit ->
         (forall k, k ∈ keys VALID_ALT_UNITS -> unit_eqb unit k = false) ->
         exists s' w, set_alt_att (VStr name) s = (s', inr tt)
           /\ trait (self s') "alt_unit" = trait (self s) "alt_unit"
           /\ warned s' = warned s ++ [w])
      /\ (cunit column = None ->
         exists s', set_alt_att (VStr name) s = (s', inr tt)
           /\ trait (self s') "alt_unit" = trait (self s) "alt_unit"
           /\ warned s' = warned s)).
Proof.
  intros Hne.
  set (s1 := with_self (store_trait "alt_att" (VStr name)) s).
  assert (Ha : trait (self s1) "alt_att" = VStr name) by apply trait_store_same.
  assert (Hu : trait (self s1) "alt_unit" = trait (self s) "alt_unit")
    by (apply trait_store_other; discriminate).
  split.
  - intros ->.
    destruct (set_alt_att_changed s "" s1 Hne) as (s' & -> & Hs & Hw).
    { now apply on_alt_att_change_empty. }
    exists s'. rewrite Hs, Hw. auto.
  - intros t column Hname Ht Hf.
    pose proof (on_alt_att_change_column s1 name t column Ha Hname Ht Hf) as Hobs.
    unfold pick_unit_if_available in Hobs. repeat split.
    + intros unit m Hc Hm He. rewrite Hc in Hobs.
      rewrite (pick_loop_member unit m) in Hobs
        by (auto; exact alt_units_distinct).
      unfold in_dict in Hobs. rewrite bool_decide_eq_true_2 in Hobs by assumption.
      destruct (set_alt_unit_key m s1 Hm) as (s2 & H2 & Hs2 & Hw2).
      rewrite H2 in Hobs.
      destruct (set_alt_att_changed s name s2 Hne Hobs) as (s' & -> & Hs & Hw).
      exists s'. rewrite Hs, Hw, Hs2, Hw2.
      split; [reflexivity|]. split; [apply trait_store_same | reflexivity].
    + intros unit Hc Hout. rewrite Hc in Hobs.
      rewrite pick_loop_outside in Hobs by assumption.
      unfold in_dict in Hobs.
      rewrite bool_decide_eq_false_2 in Hobs by now apply outside_not_key.
      destruct (set_alt_att_changed s name _ Hne Hobs) as (s' & -> & Hs & Hw).
      exists s'. eexists. rewrite Hs, Hw. simpl. auto.
    + intros Hc. rewrite Hc, pick_loop_None in Hobs.
      destruct (set_alt_att_changed s name s1 Hne Hobs) as (s' & -> & Hs & Hw).
      exists s'. rewrite Hs, Hw. auto.
Qed.

(** ** Construction *)

Lemma trait_unset t f i m r name :
  trait (mkLayer t f i m r ∅) name = trait_default name.
Proof. unfold trait. simpl. now rewrite lookup_empty. Qed.

Lemma init_defaults_eval log ws uuid4 t frame :
  init_defaults uuid4 (Some t) frame (mkLState blank log ws)
  = (mkLState (mkLayer (Some t) frame uuid4 None false ∅)
       (log ++ default_messages uuid4 t frame) ws, inr tt).
Proof.
  unfold init_defaults, _initialize_layer, _table_b64.
  unfold bind, gets, modify, send, ret, with_self.
  cbn -[_on_trait_change trait Base64.b64encode encode_ascii_replace crlf].
  rewrite (listener_plain "size_scale" "scaleFactor") by reflexivity.
  cbn -[_on_trait_change trait Base64.b64encode encode_ascii_replace crlf].
  rewrite (listener_plain "color" "color") by reflexivity.
  cbn -[_on_trait_change trait Base64.b64encode encode_ascii_replace crlf].
  rewrite (listener_plain "opacity" "opacity") by reflexivity.
  cbn -[_on_trait_change trait Base64.b64encode encode_ascii_replace crlf].
  rewrite !trait_unset. unfold default_messages.
  rewrite <- !app_assoc. reflexivity.
Qed.

Lemma unknown_key_iff (kwargs : list (string * Val)) :
  unknown_key kwargs = true
  <-> exists key, key ∈ map fst kwargs /\ key ∉ trait_names.
Proof.
  unfold unknown_key. rewrite existsb_exists. split.
  - intros ([key v] & Hin & Hneg). exists key.
    apply negb_true_iff, bool_decide_eq_false in Hneg.
    split; [|exact Hneg].
    apply list_elem_of_In, in_map_iff. exists (key, v). auto.
  - intros (key & Hin & Hneg).
    apply list_elem_of_In, in_map_iff in Hin as ([k v] & <- & Hin).
    exists (k, v). split; [exact Hin|].
    apply negb_true_iff, bool_decide_eq_false. exact Hneg.
Qed.

(** C9 (a keyword that names no trait).  Construction over a table with
    such a keyword raises [KeyError], and by then the parent has received
    the create message and the three forced defaults, in this order, and
    nothing else. *)
Theorem unknown_keyword_after_messages (log : list Msg) (uuid4 : string)
    (t : Table Unit) (frame : Val) (kwargs : list (string * Val)) :
  (exists key, key ∈ map fst kwargs /\ key ∉ trait_names) ->
  snd (construct log uuid4 (Some t) frame kwargs)
  = inl (KeyError "a key doesn't match any layer trait name")
  /\ sent (fst (construct log uuid4 (Some t) frame kwargs))
     = log ++ [table_layer_create uuid4
                 (Base64.b64encode (encode_ascii_replace (crlf (table_write t))))
                 frame;
               table_layer_set uuid4 "scaleFactor" (VFloat 10);
               table_layer_set uuid4 "color" (VStr "white");
               table_layer_set uuid4 "opacity" (VFloat 1)].
Proof.
  intros Hk. apply unknown_key_iff in Hk.
  unfold construct, __init__.
  rewrite (bind_returns _ _ _ _ _ (init_defaults_eval log [] uuid4 t frame)).
  unfold init_traits. rewrite Hk. split; reflexivity.
Qed.

(** ** What a computation adds to the wire *)

Section SendsOnly.
Variable P : Msg -> bool.

Lemma sends_nothing {A} (m : M LState A) :
  (forall s, sent (fst (m s)) = sent s) -> sends_only P m.
Proof. intros H s. exists []. rewrite H, app_nil_r. auto. Qed.

Lemma sends_only_ret {A} (a : A) : sends_only P (ret a).
Proof. now apply sends_nothing. Qed.

Lemma sends_only_raise {A} e : sends_only P (@raise LState A e).
Proof. now apply sends_nothing. Qed.

Lemma sends_only_lift {A} (r : Exn + A) : sends_only P (lift r).
Proof. now apply sends_nothing. Qed.

Lemma sends_only_gets {A} (f : LState -> A) : sends_only P (gets f).
Proof. now apply sends_nothing. Qed.

Lemma sends_only_with_self f : sends_only P (modify (with_self f)).
Proof. now apply sends_nothing. Qed.

Lemma sends_only_warn w : sends_only P (warn w).
Proof. now apply sends_nothing. Qed.

Lemma sends_only_send x : P x = true -> sends_only P (send x).
Proof. intros H s. exists [x]. simpl. rewrite H. auto. Qed.

Lemma sends_only_bind {A B} (m : M LState A) (k : A -> M LState B) :
  sends_only P m -> (forall a, sends_only P (k a)) -> sends_only P (bind m k).
Proof.
  intros Hm Hk s. unfold bind. destruct (Hm s) as (e1 & H1 & F1).
  destruct (m s) as [s' [e|a]]; simpl in *.
  - exists e1. auto.
  - destruct (Hk a s') as (e2 & H2 & F2). exists (e1 ++ e2).
    rewrite H2, H1, app_assoc, forallb_app, F1, F2. auto.
Qed.

End SendsOnly.

Ltac sends_step :=
  first
    [ apply sends_only_ret | apply sends_only_raise | apply sends_only_lift
    | apply sends_only_gets | apply sends_only_with_self | apply sends_only_warn
    | apply sends_only_bind; [|intros ?] ].

Lemma sends_only_listener P name new :
  (forall wwt_name i v,
     trait_metadata name = Some wwt_name ->
     P (table_layer_set i wwt_name v) = true) ->
  sends_only P (_on_trait_change name new).
Proof.
  intros H. unfold _on_trait_change.
  destruct (trait_metadata name) as [wwt_name|]; [|sends_step].
  sends_step.
  - destruct (String.eqb name "alt_unit"); [|destruct (String.eqb name "lon_unit")];
      repeat sends_step;
      match goal with |- context [dict_get ?u0 ?d] => destruct (dict_get u0 d) end;
      sends_step.
  - sends_step; [sends_step|]. apply sends_only_send. now apply H.
Qed.

Lemma sends_only_set_with P observer name value :
  sends_only P observer ->
  (forall wwt_name i v,
     trait_metadata name = Some wwt_name ->
     P (table_layer_set i wwt_name v) = true) ->
  sends_only P (set_with observer name value).
Proof.
  intros Ho Hl. unfold set_with. repeat sends_step.
  destruct (py_eq _ _); [sends_step|].
  sends_step; [exact Ho|]. now apply sends_only_listener.
Qed.

Lemma sends_only_table_column P name : sends_only P (table_column name).
Proof.
  unfold table_column. repeat sends_step.
  destruct (table _); [|sends_step]. destruct (find _ _); sends_step.
Qed.

Lemma sends_only_table_colnames P : sends_only P table_colnames.
Proof. unfold table_colnames. repeat sends_step. destruct (table _); sends_step. Qed.

Lemma sends_only_trait_str P name : sends_only P (trait_str name).
Proof. unfold trait_str. repeat sends_step. destruct (trait _ _); sends_step. Qed.

Lemma sends_only_colname_at P i : sends_only P (colname_at i).
Proof.
  unfold colname_at. sends_step; [apply sends_only_table_colnames|].
  destruct (_ !! _); sends_step.
Qed.

Lemma sends_only_py_or P guess fallback :
  sends_only P fallback -> sends_only P (py_or guess fallback).
Proof.
  intros H. unfold py_or. destruct guess as [g|]; [|exact H].
  destruct (String.length g =? 0)%nat; [exact H | sends_step].
Qed.

(** The tags of the traits other than [size_scale], [color] and [opacity]
    are other than theirs. *)
Lemma tag_quiet name wwt_name i v :
  name ∉ ["size_scale"; "color"; "opacity"] ->
  trait_metadata name = Some wwt_name ->
  quiet (table_layer_set i wwt_name v) = true.
Proof.
  intros Hn. unfold trait_metadata, class_traits, assoc.
  repeat match goal with
         | |- context [String.eqb name ?x] =>
             destruct (String.eqb_spec name x) as [->|_]
         end;
    try (intros [= <-]; reflexivity); try discriminate;
    exfalso; apply Hn;
    repeat first [apply list_elem_of_here | apply list_elem_of_further].
Qed.

Lemma quiet_set_alt_unit value : sends_only quiet (set_alt_unit value).
Proof.
  apply sends_only_set_with; [sends_step|].
  intros w i v [= <-]. reflexivity.
Qed.

Lemma quiet_set_lon_unit value : sends_only quiet (set_lon_unit value).
Proof.
  apply sends_only_set_with; [sends_step|].
  intros w i v [= <-]. reflexivity.
Qed.

Lemma quiet_on_alt_att_change : sends_only quiet _on_alt_att_change.
Proof.
  unfold _on_alt_att_change. sends_step; [apply sends_only_trait_str|].
  destruct (String.length _ =? 0)%nat; [sends_step|].
  sends_step; [apply sends_only_table_column|].
  destruct (pick_unit_if_available _ _) as [unit|]; [|sends_step].
  destruct (in_dict _ _); [apply quiet_set_alt_unit | sends_step].
Qed.

Lemma quiet_on_lon_att_change : sends_only quiet _on_lon_att_change.
Proof.
  unfold _on_lon_att_change. sends_step; [apply sends_only_trait_str|].
  destruct (String.length _ =? 0)%nat; [sends_step|].
  sends_step; [apply sends_only_table_column|].
  destruct (pick_unit_if_available _ _) as [unit|]; [|sends_step].
  destruct (in_dict _ _); [apply quiet_set_lon_unit | sends_step].
Qed.

Lemma quiet_set_lon_att value : sends_only quiet (set_lon_att value).
Proof.
  apply sends_only_set_with; [apply quiet_on_lon_att_change|].
  intros w i v [= <-]. reflexivity.
Qed.

Lemma quiet_setattr name value :
  name ∉ ["size_scale"; "color"; "opacity"] ->
  sends_only quiet (setattr name value).
Proof.
  intros Hn. unfold setattr, set_alt_att, set_lon_att.
  destruct (String.eqb name "alt_att");
    [|destruct (String.eqb name "lon_att")];
    apply sends_only_set_with;
    auto using quiet_on_alt_att_change, quiet_on_lon_att_change, sends_only_ret;
    try (intros w i v [= <-]; reflexivity).
  intros w i v H. now apply (tag_quiet name).
Qed.

Lemma quiet_apply_kwargs (kwargs : list (string * Val)) :
  (forall key, key ∈ map fst kwargs -> key ∉ ["size_scale"; "color"; "opacity"]) ->
  sends_only quiet (apply_kwargs kwargs).
Proof.
  induction kwargs as [|[key value] rest IH]; intros H; simpl; [sends_step|].
  sends_step.
  - apply quiet_setattr, H. simpl. apply list_elem_of_here.
  - apply IH. intros k Hk. apply H. simpl. now apply list_elem_of_further.
Qed.

Lemma quiet_init_traits (kwargs : list (string * Val)) :
  (forall key, key ∈ map fst kwargs -> key ∉ ["size_scale"; "color"; "opacity"]) ->
  sends_only quiet (init_traits kwargs).
Proof.
  intros H. unfold init_traits. destruct (unknown_key kwargs); [sends_step|].
  sends_step; [now apply quiet_apply_kwargs|].
  sends_step; [apply sends_only_table_colnames|].
  destruct (guess_lon_lat_columns _) as [lon_guess lat_guess].
  sends_step.
  - case_bool_decide; [sends_step|].
    sends_step; [apply sends_only_py_or, sends_only_colname_at|].
    apply quiet_set_lon_att.
  - case_bool_decide; [sends_step|].
    sends_step; [apply sends_only_py_or, sends_only_colname_at|].
    apply quiet_setattr.
    intros Hin. repeat (apply elem_of_cons in Hin as [Hin|Hin]; [discriminate|]).
    inversion Hin.
Qed.

Lemma count_msgs_app p (l1 l2 : list Msg) :
  count_msgs p (l1 ++ l2) = count_msgs p l1 + count_msgs p l2.
Proof. unfold count_msgs. now rewrite List.filter_app, length_app. Qed.

Lemma count_msgs_none p q (l : list Msg) :
  (forall x, q x = true -> p x = false) ->
  forallb q l = true -> count_msgs p l = 0.
Proof.
  intros Hpq. unfold count_msgs. induction l as [|x r IH]; simpl; [reflexivity|].
  rewrite andb_true_iff. intros [Hx Hr]. rewrite (Hpq x Hx). auto.
Qed.

Lemma quiet_inv x :
  quiet x = true ->
  is_create x = false /\ is_set "scaleFactor" x = false
  /\ is_set "color" x = false /\ is_set "opacity" x = false.
Proof.
  unfold quiet. rewrite !andb_true_iff, !negb_true_iff. tauto.
Qed.

(** C6 (the forced defaults at construction).  When no keyword is
    [size_scale], [color] or [opacity], construction over a table sends,
    whether it returns or raises, exactly one create message and exactly one
    set message for each of [scaleFactor], [color] and [opacity]; these are
    the messages of the default-forcing pass and carry the declared
    defaults. *)
Theorem forced_defaults_sent_once (log : list Msg) (uuid4 : string)
    (t : Table Unit) (frame : Val) (kwargs : list (string * Val)) :
  (forall key, key ∈ map fst kwargs -> key ∉ ["size_scale"; "color"; "opacity"]) ->
  exists rest,
    sent (fst (construct log uuid4 (Some t) frame kwargs))
    = log ++ default_messages uuid4 t frame ++ rest
    /\ count_msgs is_create (default_messages uuid4 t frame ++ rest) = 1
    /\ count_msgs (is_set "scaleFactor") (default_messages uuid4 t frame ++ rest) = 1
    /\ count_msgs (is_set "color") (default_messages uuid4 t frame ++ rest) = 1
    /\ count_msgs (is_set "opacity") (default_messages uuid4 t frame ++ rest) = 1
    /\ trait_default "size_scale" = VFloat 10
    /\ trait_default "color" = VStr "white"
    /\ trait_default "opacity" = VFloat 1.
Proof.
  intros Hk. unfold construct, __init__.
  rewrite (bind_returns _ _ _ _ _ (init_defaults_eval log [] uuid4 t frame)).
  destruct (quiet_init_traits kwargs Hk
              (mkLState (mkLayer (Some t) frame uuid4 None false ∅)
                 (log ++ default_messages uuid4 t frame) []))
    as (rest & Hs & Hq).
  exists rest. rewrite Hs. simpl sent. rewrite <- app_assoc.
  split; [reflexivity|].
  rewrite !count_msgs_app.
  rewrite (count_msgs_none is_create quiet rest),
          (count_msgs_none (is_set "scaleFactor") quiet rest),
          (count_msgs_none (is_set "color") quiet rest),
          (count_msgs_none (is_set "opacity") quiet rest);
    try assumption; try (intros x Hx; apply quiet_inv in Hx; tauto).
  repeat split; reflexivity.
Qed.

(** ** [update_data] *)

(** C10 ([update_data] with no table).  The parameter defaults to [None];
    the call stores [None] as the layer's table and then raises while it
    builds the message: the table is [None] afterwards, whatever it was, and
    nothing has been sent. *)
Theorem update_data_None_loses_table (s : LState) :
  update_data_default s = update_data None s
  /\ snd (update_data None s) = inl AttributeError
  /\ table (self (fst (update_data None s))) = None
  /\ sent (fst (update_data None s)) = sent s
  /\ fst (update_data None s) = with_self (set_table None) s.
Proof. repeat split; reflexivity. Qed.

(** ** [remove] and the manager *)

Lemma evolves_refl w : evolves w w.
Proof. split; [eauto | reflexivity]. Qed.

Lemma evolves_trans w1 w2 w3 : evolves w1 w2 -> evolves w2 w3 -> evolves w1 w3.
Proof.
  intros [H1 S1] [H2 S2]. split.
  - intros r L HL. destruct (H1 r L HL) as (L' & HL' & E1).
    destruct (H2 r L' HL') as (L'' & HL'' & E2). exists L''. split; congruence.
  - intros m. etransitivity; [apply S2 | apply S1].
Qed.

Lemma manager_inv_evolves m w w' : manager_inv m w -> evolves w w' -> manager_inv m w'.
Proof.
  intros [Hnd Hb] [Hl Hs]. split.
  - exact (sublist_NoDup _ _ Hnd (Hs m)).
  - intros layer Hin.
    destruct (Hb layer (elem_of_sublist _ _ _ Hin (Hs m))) as (L & HL & Hm).
    destruct (Hl layer L HL) as (L' & HL' & E). exists L'. split; congruence.
Qed.

Lemma list_remove_sublist x l : list_remove x l `sublist_of` l.
Proof.
  induction l as [|y r IH]; simpl; [constructor|].
  destruct (decide (x = y)); [apply sublist_cons; reflexivity | now apply sublist_skip].
Qed.

Lemma layers_set_layers m ls w m' :
  _layers (set_layers m ls w) m' = if decide (m = m') then ls else _layers w m'.
Proof.
  unfold _layers, set_layers. simpl. rewrite lookup_insert.
  destruct (decide (m = m')); reflexivity.
Qed.

Lemma evolves_drop m layer w :
  evolves w (set_layers m (list_remove layer (_layers w m)) w).
Proof.
  split; [eauto|]. intros m'. rewrite layers_set_layers.
  destruct (decide (m = m')) as [<-|]; [apply list_remove_sublist | reflexivity].
Qed.

Lemma remove_layer_with_evolves layer_remove m layer w :
  (forall l w0, evolves w0 (fst (layer_remove l w0))) ->
  evolves w (fst (remove_layer_with layer_remove m layer w)).
Proof.
  intros H. unfold remove_layer_with, bind, gets, modify, raise, ret.
  case_bool_decide; [|apply evolves_refl].
  pose proof (H layer w) as Hw. destruct (layer_remove layer w) as [w1 [e|[]]];
    simpl in *; [exact Hw|].
  case_bool_decide; [|exact Hw].
  eapply evolves_trans; [exact Hw | apply evolves_drop].
Qed.

Lemma evolves_mark layer L f w msgs ws :
  layers w !! layer = Some L -> _manager (f L) = _manager L ->
  evolves w (mkWorld (<[layer := f L]> (layers w)) (managers w) msgs ws).
Proof.
  intros HL Hf. split; [|reflexivity].
  intros r L0 H0. simpl. destruct (decide (layer = r)) as [<-|Hne].
  - rewrite lookup_insert_eq. exists (f L). split; congruence.
  - rewrite lookup_insert_ne by assumption. eauto.
Qed.

Lemma remove_removed d layer L w :
  layers w !! layer = Some L -> _removed L = true ->
  remove (S d) layer w = (w, inr tt).
Proof.
  intros HL Hr. simpl. unfold bind, get_layer. now rewrite HL, Hr.
Qed.

Lemma remove_live d layer L w :
  layers w !! layer = Some L -> _removed L = false ->
  remove (S d) layer w
  = match _manager L with
    | None => (marked layer L w, inr tt)
    | Some m => remove_layer_with (remove d) m layer (marked layer L w)
    end.
Proof.
  intros HL Hr. simpl. unfold bind at 1, get_layer. rewrite HL, Hr.
  unfold bind, on_layer, send, modify, with_self. rewrite HL. simpl.
  rewrite lookup_insert_eq. simpl. rewrite insert_insert_eq.
  destruct (_manager L); reflexivity.
Qed.

Lemma remove_evolves depth : forall layer w, evolves w (fst (remove depth layer w)).
Proof.
  induction depth as [|d IH]; intros layer w; [apply evolves_refl|].
  destruct (layers w !! layer) as [L|] eqn:HL.
  - destruct (_removed L) eqn:Hr.
    + rewrite (remove_removed d layer L) by assumption. apply evolves_refl.
    + rewrite (remove_live d layer L) by assumption.
      assert (Hm : evolves w (marked layer L w))
        by (apply (evolves_mark layer L (set_removed true)); auto).
      destruct (_manager L) as [m|]; [|exact Hm].
      eapply evolves_trans; [exact Hm|].
      now apply remove_layer_with_evolves.
  - simpl. unfold bind, get_layer. rewrite HL. apply evolves_refl.
Qed.

Lemma remove_layer_evolves depth m layer w :
  evolves w (fst (remove_layer depth m layer w)).
Proof. apply remove_layer_with_evolves, remove_evolves. Qed.

Lemma marked_lookup layer L w :
  layers (marked layer L w) !! layer = Some (set_removed true L).
Proof. unfold marked. simpl. apply lookup_insert_eq. Qed.

(** The manager's part of a live layer's [remove]: the nested call of
    [remove] finds the flag set and returns. *)
Lemma remove_layer_marked d m layer L w :
  remove_layer_with (remove (S d)) m layer (marked layer L w)
  = if bool_decide (layer ∈ _layers w m)
    then (set_layers m (list_remove layer (_layers w m)) (marked layer L w),
          inr tt)
    else (marked layer L w, inl (ValueError "layer not in layer manager")).
Proof.
  unfold remove_layer_with, bind, gets, modify, raise.
  change (_layers (marked layer L w) m) with (_layers w m).
  case_bool_decide as Hin; [|reflexivity].
  rewrite (remove_removed d layer (set_removed true L))
    by (auto using marked_lookup).
  change (_layers (marked layer L w) m) with (_layers w m).
  now rewrite bool_decide_eq_true_2.
Qed.

(** C7 ([remove] twice).  On a layer not removed before, the first call
    appends exactly one [table_layer_remove] message with the layer's id
    (and does not exhaust the call stack); the second call returns, sends
    nothing and leaves the whole state as the first call left it. *)
Theorem remove_twice (d : nat) (w : World) (layer : nat) (L : TableLayer) :
  layers w !! layer = Some L -> _removed L = false ->
  snd (remove (S (S d)) layer w) <> inl RecursionError
  /\ wire (fst (remove (S (S d)) layer w))
     = wire w ++ [table_layer_remove (id L)]
  /\ remove (S (S d)) layer (fst (remove (S (S d)) layer w))
     = (fst (remove (S (S d)) layer w), inr tt)
  /\ count_msgs is_remove
       (wire (fst (remove (S (S d)) layer (fst (remove (S (S d)) layer w)))))
     = count_msgs is_remove (wire w) + 1.
Proof.
  intros HL Hr.
  assert (H : snd (remove (S (S d)) layer w) <> inl RecursionError
              /\ wire (fst (remove (S (S d)) layer w))
                 = wire w ++ [table_layer_remove (id L)]
              /\ layers (fst (remove (S (S d)) layer w)) !! layer
                 = Some (set_removed true L)).
  { rewrite (remove_live (S d) layer L) by assumption.
    destruct (_manager L) as [m|].
    - rewrite remove_layer_marked. case_bool_decide; simpl;
        (split; [discriminate|]); (split; [reflexivity|]);
        apply lookup_insert_eq.
    - simpl. split; [discriminate|]. split; [reflexivity|].
      apply lookup_insert_eq. }
  destruct H as (Hno & Hw & Hl).
  assert (H2 : remove (S (S d)) layer (fst (remove (S (S d)) layer w))
               = (fst (remove (S (S d)) layer w), inr tt))
    by (apply (remove_removed _ _ (set_removed true L)); auto).
  repeat split; try assumption.
  rewrite H2. cbn [fst]. rewrite Hw, count_msgs_app. reflexivity.
Qed.

Lemma add_layer_present m layer L w :
  layers w !! layer = Some L -> layer ∈ _layers w m ->
  _add_layer m layer w
  = (w, inl (ValueError "layer already exists in layer manager")).
Proof.
  intros HL Hin. unfold _add_layer, bind, get_layer, gets, raise.
  rewrite HL. now rewrite bool_decide_eq_true_2.
Qed.

Lemma add_layer_absent m layer L w :
  layers w !! layer = Some L -> layer ∉ _layers w m ->
  _add_layer m layer w
  = (mkWorld (<[layer := set_manager (Some m) L]> (layers w))
             (<[m := _layers w m ++ [layer]]> (managers w))
             (wire w) (warnings w), inr tt).
Proof.
  intros HL Hin. unfold _add_layer, bind, get_layer, gets, modify, on_layer.
  rewrite HL. rewrite bool_decide_eq_false_2 by assumption.
  simpl. now rewrite HL.
Qed.

Lemma add_layer_inv m layer w :
  manager_inv m w -> manager_inv m (fst (_add_layer m layer w)).
Proof.
  intros [Hnd Hb]. destruct (layers w !! layer) as [L|] eqn:HL.
  - destruct (decide (layer ∈ _layers w m)) as [Hin|Hin].
    + rewrite (add_layer_present m layer L) by assumption. now split.
    + rewrite (add_layer_absent m layer L) by assumption.
      unfold manager_inv, _layers. simpl. rewrite lookup_insert_eq.
      fold (_layers w m). split.
      * apply NoDup_app. repeat split; [exact Hnd | | apply NoDup_singleton].
        intros x Hx Hx'. apply list_elem_of_singleton in Hx'. congruence.
      * intros r Hr. apply elem_of_app in Hr as [Hr|Hr].
        -- rewrite lookup_insert_ne by congruence. auto.
        -- apply list_elem_of_singleton in Hr as ->.
           rewrite lookup_insert_eq. eauto.
  - unfold _add_layer, bind, get_layer. rewrite HL. now split.
Qed.

Lemma fresh_layer_unused (w : World) : layers w !! fresh (dom (layers w)) = None.
Proof. apply not_elem_of_dom, is_fresh. Qed.

Lemma new_layer_inv m uuid4 table frame kwargs w :
  manager_inv m w ->
  manager_inv m (fst (TableLayer_new uuid4 table frame kwargs w)).
Proof.
  intros [Hnd Hb]. unfold TableLayer_new.
  destruct (construct _ _ _ _ _) as [s [e|[]]]; simpl; [now split|].
  split; [exact Hnd|]. intros r Hr. simpl.
  destruct (Hb r Hr) as (L & HL & Hm). exists L. split; [|exact Hm].
  rewrite lookup_insert_ne; [exact HL|].
  intros <-. rewrite fresh_layer_unused in HL. discriminate.
Qed.

Lemma add_data_layer_inv m uuid4 table frame kwargs w :
  manager_inv m w ->
  manager_inv m (fst (add_data_layer m uuid4 table frame kwargs w)).
Proof.
  intros Hinv. unfold add_data_layer. destruct table as [t|]; [|exact Hinv].
  pose proof (new_layer_inv m uuid4 (Some t) frame kwargs w Hinv) as Hn.
  unfold bind. destruct (TableLayer_new _ _ _ _ _) as [w1 [e|layer]]; [exact Hn|].
  pose proof (add_layer_inv m layer w1 Hn) as Ha.
  destruct (_add_layer m layer w1) as [w2 [e|[]]]; exact Ha.
Qed.

Lemma add_layer_other_inv m m' layer w :
  m' <> m -> layer ∉ _layers w m ->
  manager_inv m w -> manager_inv m (fst (_add_layer m' layer w)).
Proof.
  intros Hne Hout [Hnd Hb]. destruct (layers w !! layer) as [L|] eqn:HL.
  - destruct (decide (layer ∈ _layers w m')) as [Hin|Hin].
    + rewrite (add_layer_present m' layer L) by assumption. now split.
    + rewrite (add_layer_absent m' layer L) by assumption.
      unfold manager_inv, _layers. simpl.
      rewrite lookup_insert_ne by assumption. fold (_layers w m).
      split; [exact Hnd|].
      intros r Hr. rewrite lookup_insert_ne by congruence. auto.
  - unfold _add_layer, bind, get_layer. rewrite HL. now split.
Qed.

(** A layer just constructed is in no list yet of a manager whose listed
    layers are live. *)
Lemma new_layer_unlisted m uuid4 table frame kwargs w w1 layer :
  manager_inv m w ->
  TableLayer_new uuid4 table frame kwargs w = (w1, inr layer) ->
  layer ∉ _layers w1 m.
Proof.
  intros [_ Hb]. unfold TableLayer_new.
  destruct (construct _ _ _ _ _) as [s [e|[]]]; [discriminate|].
  intros [= <- <-] Hin. change (fresh (dom (layers w)) ∈ _layers w m) in Hin.
  destruct (Hb _ Hin) as (L & HL & _).
  rewrite fresh_layer_unused in HL. discriminate.
Qed.

Lemma add_data_layer_other_inv m m' uuid4 table frame kwargs w :
  m' <> m -> manager_inv m w ->
  manager_inv m (fst (add_data_layer m' uuid4 table frame kwargs w)).
Proof.
  intros Hne Hinv. unfold add_data_layer. destruct table as [t|]; [|exact Hinv].
  pose proof (new_layer_inv m uuid4 (Some t) frame kwargs w Hinv) as Hn.
  pose proof (new_layer_unlisted m uuid4 (Some t) frame kwargs w) as Hu.
  unfold bind. destruct (TableLayer_new _ _ _ _ _) as [w1 [e|layer]]; [exact Hn|].
  pose proof (add_layer_other_inv m m' layer w1 Hne (Hu w1 layer Hinv eq_refl) Hn)
    as Ha.
  destruct (_add_layer m' layer w1) as [w2 [e|[]]]; exact Ha.
Qed.

Lemma apply_op_inv depth m op w :
  match op with
  | attach m' layer => m' = m \/ layer ∉ _layers w m
  | _ => True
  end ->
  manager_inv m w -> manager_inv m (fst (apply_op depth op w)).
Proof.
  intros Hown Hinv.
  destruct op as [m' layer|m' uuid4 table frame kwargs|m' layer|layer]; simpl.
  - destruct (decide (m' = m)) as [->|Hne]; [now apply add_layer_inv|].
    destruct Hown as [?|Hout]; [contradiction|].
    now apply add_layer_other_inv.
  - assert (Ha : manager_inv m
                   (fst (add_data_layer m' uuid4 table frame kwargs w))).
    { destruct (decide (m' = m)) as [->|Hne];
        [now apply add_data_layer_inv | now apply add_data_layer_other_inv]. }
    unfold bind. destruct (add_data_layer _ _ _ _ _ _) as [w1 [e|layer]]; exact Ha.
  - eapply manager_inv_evolves; [exact Hinv | apply remove_layer_evolves].
  - eapply manager_inv_evolves; [exact Hinv | apply remove_evolves].
Qed.

Lemma run_ops_inv depth m ops : forall w,
  keeps_own depth m ops w ->
  manager_inv m w -> manager_inv m (run_ops depth ops w).
Proof.
  induction ops as [|op rest IH]; intros w Hown Hinv; simpl; [exact Hinv|].
  destruct Hown as [Hop Hrest].
  apply IH; [exact Hrest | now apply apply_op_inv].
Qed.

Lemma new_manager_inv (w0 : World) :
  manager_inv (fresh (dom (managers w0))) (fst (LayerManager_new w0)).
Proof.
  unfold LayerManager_new, manager_inv. simpl. rewrite layers_set_layers.
  destruct (decide _); [|congruence]. split; [constructor|].
  intros layer H. inversion H.
Qed.

Lemma remove_layer_absent depth m layer w :
  layer ∉ _layers w m ->
  remove_layer depth m layer w
  = (w, inl (ValueError "layer not in layer manager")).
Proof.
  intros H. unfold remove_layer, remove_layer_with, bind, gets, raise.
  now rewrite bool_decide_eq_false_2.
Qed.

(** C8 (the manager's invariant), amended.  Let [m] be a newly created
    manager and [w] the state after any sequence of [_add_layer],
    [add_data_layer] and [remove_layer] calls on [m] or on other managers
    and of [remove] calls on layers, starting from any heap, in which no
    layer is attached to another manager while [m] lists it.  Then no layer
    is twice in [m]'s list, every layer in the list has [m] as its
    [_manager], attaching a layer that is in the list raises [ValueError]
    and changes nothing, and so does removing a layer that is not in it. *)
Theorem manager_invariant (depth : nat) (w0 : World) (ops : list Op) :
  let m := fresh (dom (managers w0)) in
  let w := run_ops depth ops (fst (LayerManager_new w0)) in
  keeps_own depth m ops (fst (LayerManager_new w0)) ->
  NoDup (_layers w m)
  /\ (forall layer, layer ∈ _layers w m ->
        exists L, layers w !! layer = Some L /\ _manager L = Some m)
  /\ (forall layer, layer ∈ _layers w m ->
        _add_layer m layer w
        = (w, inl (ValueError "layer already exists in layer manager")))
  /\ (forall layer, layer ∉ _layers w m ->
        remove_layer depth m layer w
        = (w, inl (ValueError "layer not in layer manager"))).
Proof.
  intros m w Hown.
  destruct (run_ops_inv depth m ops _ Hown (new_manager_inv w0)) as [Hnd Hb].
  fold w in Hnd, Hb.
  repeat split; try assumption.
  - intros layer Hin. destruct (Hb layer Hin) as (L & HL & _).
    now apply (add_layer_present m layer L).
  - intros layer Hin. now apply remove_layer_absent.
Qed.

(** With room for two nested calls, neither [remove] nor [remove_layer]
    exhausts the call stack. *)
Lemma calls_do_not_overflow (d m layer : nat) (w : World) :
  snd (remove (S (S d)) layer w) <> inl RecursionError
  /\ snd (remove_layer (S (S d)) m layer w) <> inl RecursionError.
Proof.
  assert (Hr : forall w0, snd (remove (S (S d)) layer w0) <> inl RecursionError).
  { intros w0. destruct (layers w0 !! layer) as [L|] eqn:HL.
    - destruct (_removed L) eqn:Hrm.
      + now rewrite (remove_removed _ layer L).
      + rewrite (remove_live _ layer L) by assumption.
        destruct (_manager L); [|discriminate].
        rewrite remove_layer_marked. case_bool_decide; discriminate.
    - simpl. unfold bind, get_layer. rewrite HL. discriminate. }
  split; [apply Hr|].
  unfold remove_layer, remove_layer_with, bind, gets, modify, raise.
  case_bool_decide; [|discriminate].
  specialize (Hr w). destruct (remove (S (S d)) layer w) as [w1 [e|[]]].
  - exact Hr.
  - simpl. case_bool_decide; discriminate.
Qed.

(** ** The column guesser on upper-case names *)

(** C2, at the failing input.  On the columns [RA], [Dec] the exact-match
    rule fires and returns the lower-case stems, which are not names of the
    table; the prefix rule, on [RA_deg], [Dec_deg], returns the names as the
    table spells them. *)
Theorem guess_exact_match_returns_stems :
  guess_lon_lat_columns ["RA"; "Dec"] = (Some "ra", Some "dec")
  /\ guess_lon_lat_columns ["RA"; "Dec"] <> (Some "RA", Some "Dec")
  /\ guess_lon_lat_columns ["RA_deg"; "Dec_deg"] = (Some "RA_deg", Some "Dec_deg").
Proof. split; [reflexivity|]. split; [discriminate | reflexivity]. Qed.

(** C1, at the failing input.  Over the columns [RA], [Dec], [Vmag] and
    with no keyword, the guess is the pair of stems; construction stores
    "ra" in [lon_att], the observer looks that column up, and the lookup
    raises [KeyError]: [lon_att] is "ra", not "RA", and [lat_att] is never
    assigned. *)
Theorem construct_RA_Dec_Vmag (log : list Msg) (uuid4 : string) (frame : Val)
    (u1 u2 u3 : option Unit) :
  let t := [mkColumn "RA" u1; mkColumn "Dec" u2; mkColumn "Vmag" u3] in
  guess_lon_lat_columns (map cname t) = (Some "ra", Some "dec")
  /\ snd (construct log uuid4 (Some t) frame []) = inl (KeyError "ra")
  /\ trait (self (fst (construct log uuid4 (Some t) frame []))) "lon_att"
     = VStr "ra"
  /\ trait (self (fst (construct log uuid4 (Some t) frame []))) "lat_att"
     = VStr "".
Proof.
  intros t. split; [reflexivity|].
  unfold construct, __init__.
  rewrite (bind_returns _ _ _ _ _ (init_defaults_eval log [] uuid4 t frame)).
  repeat split; vm_compute; reflexivity.
Qed.

(** ** The column guesser in general *)

Lemma sum_cons (b : bool) (l : list bool) :
  PyList.sum (b :: l) = (if b then 1 else 0) + PyList.sum l.
Proof.
  unfold PyList.sum. rewrite filter_cons.
  destruct b; case_decide; simpl; congruence.
Qed.

(** Where a list of matches holds a [True], [index] finds the first, and the
    name at that place matches. *)
Lemma index_true_lookup (f : string -> bool) (l : list string) :
  PyList.sum (map f l) <> 0 ->
  exists x, l !! PyList.index_true (map f l) = Some x /\ f x = true.
Proof.
  induction l as [|y r IH]; simpl; intros H.
  - now contradict H.
  - destruct (f y) eqn:E; [exists y; auto|].
    rewrite sum_cons in H. simpl in H. destruct (IH H) as (x & Hx & Hf).
    exists x. auto.
Qed.

(** What one round of the loop can return. *)
Lemma guess_loop_result (colnames : list string) pairs a b :
  guess_loop colnames (map PyStr.lower colnames) pairs = (a, b) ->
  (a = None /\ b = None)
  \/ (exists lon lat, (lon, lat) ∈ pairs /\ a = Some lon /\ b = Some lat
        /\ PyList.count lon (map PyStr.lower colnames) = 1
        /\ PyList.count lat (map PyStr.lower colnames) = 1)
  \/ (exists lon lat x y, (lon, lat) ∈ pairs /\ a = Some x /\ b = Some y
        /\ x ∈ colnames /\ y ∈ colnames
        /\ PyStr.startswith lon (PyStr.lower x) = true
        /\ PyStr.startswith lat (PyStr.lower y) = true).
Proof.
  induction pairs as [|[lon lat] rest IH]; simpl.
  - intros [= <- <-]. now left.
  - destruct (_ && _) eqn:Eexact.
    + intros [= <- <-]. right. left. exists lon, lat.
      apply andb_true_iff in Eexact as [H1 H2].
      apply Nat.eqb_eq in H1, H2.
      split; [apply list_elem_of_here | auto].
    + destruct ((PyList.sum _ =? 1)%nat && _) eqn:Eprefix.
      * apply andb_true_iff in Eprefix as [H1 H2].
        apply Nat.eqb_eq in H1, H2. rewrite map_map in H1, H2.
        destruct (index_true_lookup (fun c => PyStr.startswith lon (PyStr.lower c))
                    colnames) as (x & Hx & Fx); [rewrite H1; discriminate|].
        destruct (index_true_lookup (fun c => PyStr.startswith lat (PyStr.lower c))
                    colnames) as (y & Hy & Fy); [rewrite H2; discriminate|].
        rewrite !map_map, Hx, Hy. intros [= <- <-].
        right. right. exists lon, lat, x, y.
        split; [apply list_elem_of_here|].
        repeat split; eauto using list_elem_of_lookup_2.
      * intros H. destruct (IH H) as [?|[(l1 & l2 & Hin & ?)|(l1 & l2 & x & y & Hin & ?)]].
        -- now left.
        -- right. left. exists l1, l2. split; [now apply list_elem_of_further | auto].
        -- right. right. exists l1, l2, x, y.
           split; [now apply list_elem_of_further | auto].
Qed.

(** The guesser answers [(None, None)], or the two stems of a pair each of
    which is the lower-case form of exactly one column, or two columns of
    the table, spelled as the table spells them, whose lower-case forms
    start with the stems of a pair; a name that only contains a stem
    further on is never returned by the prefix rule. *)
Theorem guess_lon_lat_columns_result (colnames : list string) a b :
  guess_lon_lat_columns colnames = (a, b) ->
  (a = None /\ b = None)
  \/ (exists lon lat, (lon, lat) ∈ stem_pairs /\ a = Some lon /\ b = Some lat
        /\ PyList.count lon (map PyStr.lower colnames) = 1
        /\ PyList.count lat (map PyStr.lower colnames) = 1)
  \/ (exists lon lat x y, (lon, lat) ∈ stem_pairs /\ a = Some x /\ b = Some y
        /\ x ∈ colnames /\ y ∈ colnames
        /\ PyStr.startswith lon (PyStr.lower x) = true
        /\ PyStr.startswith lat (PyStr.lower y) = true).
Proof. apply guess_loop_result. Qed.

Lemma guess_loop_no_match colnames lower pairs :
  (forall lon lat, (lon, lat) ∈ pairs ->
     ~ (PyList.count lon lower = 1 /\ PyList.count lat lower = 1)
     /\ ~ (PyList.sum (map (PyStr.startswith lon) lower) = 1
           /\ PyList.sum (map (PyStr.startswith lat) lower) = 1)) ->
  guess_loop colnames lower pairs = (None, None).
Proof.
  induction pairs as [|[lon lat] rest IH]; intros H; simpl; [reflexivity|].
  destruct (H lon lat (list_elem_of_here _ _)) as [He Hp].
  destruct (_ && _) eqn:E1.
  { apply andb_true_iff in E1 as [H1 H2]. apply Nat.eqb_eq in H1, H2. tauto. }
  destruct ((PyList.sum _ =? 1)%nat && _) eqn:E2.
  { apply andb_true_iff in E2 as [H1 H2]. apply Nat.eqb_eq in H1, H2. tauto. }
  apply IH. intros l1 l2 Hin. apply H. now apply list_elem_of_further.
Qed.

(** When no stem pair has a unique match, by equality or by prefix, the
    guesser answers [(None, None)]. *)
Theorem guess_lon_lat_columns_no_match (colnames : list string) :
  (forall lon lat, (lon, lat) ∈ stem_pairs ->
     ~ (PyList.count lon (map PyStr.lower colnames) = 1
        /\ PyList.count lat (map PyStr.lower colnames) = 1)
     /\ ~ (PyList.sum (map (PyStr.startswith lon) (map PyStr.lower colnames)) = 1
           /\ PyList.sum (map (PyStr.startswith lat) (map PyStr.lower colnames)) = 1)) ->
  guess_lon_lat_columns colnames = (None, None).
Proof. apply guess_loop_no_match. Qed.

(** ** [alt_type] *)

(** Assigning to [alt_type] a string outside [VALID_ALT_TYPES] raises
    [ValueError] and leaves the state as it was; a string of the list is
    stored. *)
Theorem alt_type_assignment (s : LState) (value : string) :
  (value ∉ VALID_ALT_TYPES ->
   setattr "alt_type" (VStr value) s
   = (s, inl (ValueError
                "alt_type should be one of depth/altitude/distance/seaLevel/terrain")))
  /\ (value ∈ VALID_ALT_TYPES ->
      exists s', setattr "alt_type" (VStr value) s = (s', inr tt)
        /\ trait (self s') "alt_type" = VStr value).
Proof.
  change (setattr "alt_type" (VStr value))
    with (set_with (ret tt) "alt_type" (VStr value)).
  assert (Hv : validate "alt_type" (VStr value) = _check_alt_type (VStr value))
    by reflexivity.
  split; intros Hin.
  - apply set_with_invalid. rewrite Hv. unfold _check_alt_type.
    now rewrite bool_decide_eq_false_2.
  - rewrite (set_with_valid _ _ _ (VStr value))
      by (rewrite Hv; unfold _check_alt_type; now rewrite bool_decide_eq_true_2).
    destruct (py_eq _ _); [eexists; split; [reflexivity|apply trait_store_same]|].
    unfold bind at 1, ret at 1.
    rewrite (listener_plain "alt_type" "altType") by reflexivity.
    eexists. split; [reflexivity|]. apply trait_store_same.
Qed.

(** ** Which traits a computation assigns *)

Section StoresOnly.
Variable names : list string.

Lemma stores_nothing {A} (m : M LState A) :
  (forall s, self (fst (m s)) = self s) -> stores_only names m.
Proof. intros H s. rewrite H. auto. Qed.

Lemma stores_only_bind {A B} (m : M LState A) (k : A -> M LState B) :
  stores_only names m -> (forall a, stores_only names (k a)) ->
  stores_only names (bind m k).
Proof.
  intros Hm Hk s. unfold bind. destruct (Hm s) as (T1 & I1 & N1).
  destruct (m s) as [s' [e|a]]; simpl in *; [auto|].
  destruct (Hk a s') as (T2 & I2 & N2).
  split; [congruence|]. split; [congruence|].
  intros name Hn. rewrite N2, N1; auto.
Qed.

Lemma stores_only_store name v :
  name ∈ names -> stores_only names (modify (with_self (store_trait name v))).
Proof.
  intros Hin s. simpl. repeat split.
  intros name' Hn. apply trait_store_other. congruence.
Qed.

End StoresOnly.

Lemma stores_only_mono {A} names names' (m : M LState A) :
  (forall name, name ∈ names -> name ∈ names') ->
  stores_only names m -> stores_only names' m.
Proof.
  intros Hsub H s. destruct (H s) as (T & I & N). repeat split; auto.
Qed.

Ltac stores_step :=
  first
    [ apply stores_nothing; reflexivity
    | apply stores_only_bind; [|intros ?] ].

Lemma stores_only_listener names name new :
  stores_only names (_on_trait_change name new).
Proof.
  unfold _on_trait_change. destruct (trait_metadata name); [|stores_step].
  stores_step; [|repeat stores_step].
  destruct (String.eqb name "alt_unit"); [|destruct (String.eqb name "lon_unit")];
    repeat stores_step;
    match goal with |- context [dict_get ?u0 ?d] => destruct (dict_get u0 d) end;
    stores_step.
Qed.

Lemma stores_only_set_with names observer name value :
  name ∈ names -> stores_only names observer ->
  stores_only names (set_with observer name value).
Proof.
  intros Hin Ho. unfold set_with. repeat stores_step.
  - now apply stores_only_store.
  - destruct (py_eq _ _); [stores_step|].
    stores_step; [exact Ho | apply stores_only_listener].
Qed.

Lemma stores_only_table_column names name : stores_only names (table_column name).
Proof.
  unfold table_column. repeat stores_step.
  destruct (table _); [|stores_step]. destruct (find _ _); stores_step.
Qed.

Lemma stores_only_trait_str names name : stores_only names (trait_str name).
Proof. unfold trait_str. repeat stores_step. destruct (trait _ _); stores_step. Qed.

Lemma stores_only_on_lon_att_change names :
  "lon_unit" ∈ names -> stores_only names _on_lon_att_change.
Proof.
  intros Hin. unfold _on_lon_att_change.
  stores_step; [apply stores_only_trait_str|].
  destruct (String.length _ =? 0)%nat; [stores_step|].
  stores_step; [apply stores_only_table_column|].
  destruct (pick_unit_if_available _ _); [|stores_step].
  destruct (in_dict _ _); [|stores_step].
  apply stores_only_set_with; [exact Hin | stores_step].
Qed.

Lemma stores_only_on_alt_att_change names :
  "alt_unit" ∈ names -> stores_only names _on_alt_att_change.
Proof.
  intros Hin. unfold _on_alt_att_change.
  stores_step; [apply stores_only_trait_str|].
  destruct (String.length _ =? 0)%nat; [stores_step|].
  stores_step; [apply stores_only_table_column|].
  destruct (pick_unit_if_available _ _); [|stores_step].
  destruct (in_dict _ _); [|stores_step].
  apply stores_only_set_with; [exact Hin | stores_step].
Qed.

Lemma stores_only_setattr name value :
  stores_only [name; "lon_unit"; "alt_unit"] (setattr name value).
Proof.
  unfold setattr, set_alt_att, set_lon_att.
  destruct (String.eqb_spec name "alt_att") as [->|_];
    [|destruct (String.eqb_spec name "lon_att") as [->|_]];
    apply stores_only_set_with; try apply list_elem_of_here.
  - apply stores_only_on_alt_att_change.
    apply list_elem_of_further, list_elem_of_further, list_elem_of_here.
  - apply stores_only_on_lon_att_change.
    apply list_elem_of_further, list_elem_of_here.
  - stores_step.
Qed.

(** No assignment of a trait touches the table. *)
Lemma apply_kwargs_table (kwargs : list (string * Val)) s :
  table (self (fst (apply_kwargs kwargs s))) = table (self s).
Proof.
  revert s. induction kwargs as [|[key value] rest IH]; intros s; [reflexivity|].
  simpl. unfold bind.
  pose proof (stores_only_setattr key value s) as (T & _).
  destruct (setattr key value s) as [s1 [e|[]]]; simpl in *; [exact T|].
  now rewrite IH.
Qed.

Lemma py_or_eval guess i s t :
  table (self s) = Some t ->
  py_or guess (colname_at i) s
  = (s, match guess_or_column guess i (map cname t) with
        | Some v => inr v
        | None => inl IndexError
        end).
Proof.
  intros Ht.
  assert (Hc : colname_at i s
               = (s, match map cname t !! i with
                     | Some v => inr v | None => inl IndexError end)).
  { unfold colname_at, table_colnames, bind, gets, ret, raise. rewrite Ht.
    destruct (map cname t !! i); reflexivity. }
  unfold py_or, guess_or_column. destruct guess as [g|]; [|exact Hc].
  destruct (String.length g =? 0)%nat; [exact Hc | reflexivity].
Qed.

(** A returning assignment of a string to [lon_att] leaves it stored. *)
Lemma set_lon_att_stored v s s' :
  set_lon_att (VStr v) s = (s', inr tt) ->
  trait (self s') "lon_att" = VStr v /\ table (self s') = table (self s).
Proof.
  unfold set_lon_att.
  rewrite (set_with_valid _ _ _ (VStr v)) by reflexivity.
  set (s1 := with_self (store_trait "lon_att" (VStr v)) s).
  assert (H1 : trait (self s1) "lon_att" = VStr v) by apply trait_store_same.
  destruct (py_eq _ _); [intros [= <-]; auto|].
  intros H.
  assert (Hs : stores_only ["lon_unit"]
                 (bind _on_lon_att_change
                       (fun _ => _on_trait_change "lon_att" (VStr v)))).
  { stores_step; [|apply stores_only_listener].
    apply stores_only_on_lon_att_change, list_elem_of_here. }
  destruct (Hs s1) as (T & _ & N). rewrite H in T, N. simpl in T, N.
  split; [|exact T]. rewrite N; [exact H1|].
  intros Hin. apply list_elem_of_singleton in Hin. discriminate.
Qed.

Lemma set_lat_att_stored v s s' :
  setattr "lat_att" (VStr v) s = (s', inr tt) ->
  trait (self s') "lat_att" = VStr v
  /\ trait (self s') "lon_att" = trait (self s) "lon_att".
Proof.
  change (setattr "lat_att" (VStr v)) with (set_with (ret tt) "lat_att" (VStr v)).
  rewrite (set_with_valid _ _ _ (VStr v)) by reflexivity.
  set (s1 := with_self (store_trait "lat_att" (VStr v)) s).
  assert (H1 : trait (self s1) "lat_att" = VStr v) by apply trait_store_same.
  assert (H2 : trait (self s1) "lon_att" = trait (self s) "lon_att")
    by (apply trait_store_other; discriminate).
  destruct (py_eq _ _); [intros [= <-]; auto|].
  unfold bind at 1, ret at 1.
  rewrite (listener_plain "lat_att" "latColumn") by reflexivity.
  intros [= <-]. auto.
Qed.

(** When construction over a table returns: a [lon_att] not given as a
    keyword holds the guessed longitude column or, without a guess, the
    table's first column; a [lat_att] not given as a keyword holds the
    guessed latitude column or the table's second column. *)
Theorem construct_default_columns (log : list Msg) (uuid4 : string)
    (t : Table Unit) (frame : Val) (kwargs : list (string * Val)) (s' : LState) :
  construct log uuid4 (Some t) frame kwargs = (s', inr tt) ->
  ("lon_att" ∉ map fst kwargs ->
   exists v,
     guess_or_column (fst (guess_lon_lat_columns (map cname t))) 0 (map cname t)
     = Some v
     /\ trait (self s') "lon_att" = VStr v)
  /\ ("lat_att" ∉ map fst kwargs ->
      exists v,
        guess_or_column (snd (guess_lon_lat_columns (map cname t))) 1 (map cname t)
        = Some v
        /\ trait (self s') "lat_att" = VStr v).
Proof.
  unfold construct, __init__.
  rewrite (bind_returns _ _ _ _ _ (init_defaults_eval log [] uuid4 t frame)).
  set (s4 := mkLState _ _ _).
  unfold init_traits. destruct (unknown_key kwargs); [discriminate|].
  unfold bind at 1.
  pose proof (apply_kwargs_table kwargs s4) as Ht.
  destruct (apply_kwargs kwargs s4) as [s5 [e|[]]]; [discriminate|].
  simpl in Ht.
  unfold bind at 1, table_colnames at 1, bind at 1, gets at 1.
  rewrite Ht. unfold ret at 1.
  destruct (guess_lon_lat_columns (map cname t)) as [lon_guess lat_guess].
  simpl fst. simpl snd. unfold bind at 1.
  case_bool_decide as Hlon.
  - unfold ret at 1. case_bool_decide as Hlat.
    + intros _. split; intros; contradiction.
    + unfold bind at 1. rewrite (py_or_eval lat_guess 1 s5 t Ht).
      destruct (guess_or_column lat_guess 1 (map cname t)) as [v|]; [|discriminate].
      intros H. apply set_lat_att_stored in H as [H _].
      split; [intros; contradiction | eauto].
  - unfold bind at 1. rewrite (py_or_eval lon_guess 0 s5 t Ht).
    destruct (guess_or_column lon_guess 0 (map cname t)) as [v|]; [|discriminate].
    destruct (set_lon_att (VStr v) s5) as [s6 [e|[]]] eqn:Hset; [discriminate|].
    apply set_lon_att_stored in Hset as [Hl Ht6]. rewrite Ht in Ht6.
    case_bool_decide as Hlat.
    + intros [= <-]. split; [eauto | intros; contradiction].
    + unfold bind at 1. rewrite (py_or_eval lat_guess 1 s6 t Ht6).
      destruct (guess_or_column lat_guess 1 (map cname t)) as [v'|]; [|discriminate].
      intros H. apply set_lat_att_stored in H as [H Hk].
      split; intros _; [exists v; rewrite Hk | exists v']; auto.
Qed.

(** ** The altitude unit and the longitude column *)

Lemma check_alt_outside value (unit : Unit) :
  u_Unit true value = Some unit ->
  (forall k, k ∈ keys VALID_ALT_UNITS -> unit_eqb unit k = false) ->
  _check_alt_unit value
  = inl (ValueError ("alt_unit should be one of " ++ unit_choices VALID_ALT_UNITS)).
Proof.
  intros Hu Hout. unfold _check_alt_unit, pick_unit_if_available. rewrite Hu.
  rewrite pick_loop_outside by exact Hout.
  unfold in_dict. rewrite bool_decide_eq_false_2; [reflexivity|].
  now apply outside_not_key.
Qed.

(** Assignment to [alt_unit]: the candidate is read with the imperial units
    enabled.  A unit equal to a member of the altitude family is stored as
    that member; a unit equal to none is refused with a [ValueError] that
    lists the members' names, sorted, and nothing changes; a candidate
    astropy cannot read is refused as well and nothing changes. *)
Theorem alt_unit_assignment (s : LState) (value : Val) :
  value <> VNone ->
  (forall unit m,
     u_Unit true value = Some unit ->
     m ∈ keys VALID_ALT_UNITS -> unit_eqb unit m = true ->
     exists s', set_alt_unit value s = (s', inr tt)
       /\ trait (self s') "alt_unit" = VUnit m)
  /\ (forall unit,
      u_Unit true value = Some unit ->
      (forall k, k ∈ keys VALID_ALT_UNITS -> unit_eqb unit k = false) ->
      exists options,
        set_alt_unit value s
        = (s, inl (ValueError ("alt_unit should be one of "
                                 ++ PyStr.join "/" options)))
        /\ Permutation (map unit_str (keys VALID_ALT_UNITS)) options
        /\ Sorted str_le options)
  /\ (u_Unit true value = None ->
      set_alt_unit value s = (s, inl UnitError)).
Proof.
  intros Hnn. repeat split.
  - intros unit m Hu Hm He.
    destruct (set_alt_unit_key m s Hm) as (s' & _ & _ & _).
    unfold set_alt_unit.
    rewrite (set_with_valid _ _ _ (VUnit m))
      by (rewrite validate_alt_unit, (check_alt_member _ unit m); auto).
    destruct (py_eq _ _).
    + eexists. split; [reflexivity|]. apply trait_store_same.
    + destruct (dict_get_key m VALID_ALT_UNITS Hm) as [token Hg].
      unfold bind at 1, ret at 1.
      rewrite (listener_alt_unit m token) by assumption.
      eexists. split; [reflexivity|]. apply trait_store_same.
  - intros unit Hu Hout.
    exists (PyStr.sorted (map unit_str (keys VALID_ALT_UNITS))).
    split; [|split; [apply sorted_perm | apply sorted_sorted]].
    unfold set_alt_unit. apply set_with_invalid.
    rewrite validate_alt_unit by assumption.
    now rewrite (check_alt_outside _ unit).
  - intros Hu. unfold set_alt_unit. apply set_with_invalid.
    rewrite validate_alt_unit by assumption.
    unfold _check_alt_unit. now rewrite Hu.
Qed.

Lemma set_lon_unit_key (m : Unit) s :
  m ∈ keys VALID_LON_UNITS ->
  exists s', set_lon_unit (VUnit m) s = (s', inr tt)
    /\ self s' = store_trait "lon_unit" (VUnit m) (self s)
    /\ warned s' = warned s.
Proof.
  intros Hm. unfold set_lon_unit.
  rewrite (set_with_valid _ _ _ (VUnit m))
    by (rewrite validate_lon_unit, check_lon_key; auto; discriminate).
  destruct (py_eq _ _); [eexists; split; [reflexivity|]; auto|].
  destruct (dict_get_key m VALID_LON_UNITS Hm) as [token Hg].
  unfold bind at 1, ret at 1. rewrite (listener_lon_unit m token) by assumption.
  eexists. split; [reflexivity|]. auto.
Qed.

Lemma on_lon_att_change_empty s :
  trait (self s) "lon_att" = VStr "" -> _on_lon_att_change s = (s, inr tt).
Proof.
  intros H. unfold _on_lon_att_change, trait_str, bind, gets. now rewrite H.
Qed.

Lemma on_lon_att_change_column s name t column :
  trait (self s) "lon_att" = VStr name -> name <> "" ->
  table (self s) = Some t ->
  find (fun c => String.eqb (cname c) name) t = Some column ->
  _on_lon_att_change s
  = match pick_unit_if_available (cunit column) VALID_LON_UNITS with
    | Some unit =>
        if in_dict unit VALID_LON_UNITS then set_lon_unit (VUnit unit) s
        else warn ("Column " ++ name ++ " has units of " ++ unit_str unit
                   ++ " but this is not a valid unit of longitude - set the unit directly with lon_unit") s
    | None => (s, inr tt)
    end.
Proof.
  intros Ha Hne Ht Hf.
  assert (E : (String.length name =? 0)%nat = false).
  { destruct (String.length name =? 0)%nat eqn:E; [|reflexivity].
    apply string_length_0 in E. contradiction. }
  unfold _on_lon_att_change, trait_str, table_column, bind, gets, ret, raise.
  rewrite Ha. cbv beta iota. rewrite E, Ht, Hf. cbv beta iota.
  destruct (pick_unit_if_available _ _) as [unit|]; [|reflexivity].
  destruct (in_dict unit VALID_LON_UNITS); reflexivity.
Qed.

Lemma on_lon_att_change_missing s name t :
  trait (self s) "lon_att" = VStr name -> name <> "" ->
  table (self s) = Some t ->
  find (fun c => String.eqb (cname c) name) t = None ->
  _on_lon_att_change s = (s, inl (KeyError name)).
Proof.
  intros Ha Hne Ht Hf.
  assert (E : (String.length name =? 0)%nat = false).
  { destruct (String.length name =? 0)%nat eqn:E; [|reflexivity].
    apply string_length_0 in E. contradiction. }
  unfold _on_lon_att_change, trait_str, table_column, bind, gets, ret, raise.
  rewrite Ha. cbv beta iota. rewrite E, Ht, Hf. reflexivity.
Qed.

Lemma set_lon_att_changed s name s2 :
  py_eq (trait (self s) "lon_att") (VStr name) = false ->
  _on_lon_att_change (with_self (store_trait "lon_att" (VStr name)) s)
  = (s2, inr tt) ->
  exists s', set_lon_att (VStr name) s = (s', inr tt)
    /\ self s' = self s2 /\ warned s' = warned s2.
Proof.
  intros Hne Hobs. unfold set_lon_att.
  rewrite (set_with_valid _ _ _ (VStr name)) by reflexivity.
  rewrite Hne, (bind_returns _ _ _ _ _ Hobs).
  rewrite (listener_plain "lon_att" "lngColumn") by reflexivity.
  eexists. split; [reflexivity|]. auto.
Qed.

(** The observer of [lon_att].  For every assignment that changes [lon_att]
    to the string [name]: when [name] is empty, [lon_unit] and the warnings
    stay; when the table has no column of that name the assignment raises
    [KeyError] with the new name already stored; otherwise, when the
    column's unit is equal to a member [m] of the position family [lon_unit]
    becomes [m]; when it is equal to none, one warning is issued and
    [lon_unit] stays; when the column has no unit, nothing more happens. *)
Theorem lon_att_change (s : LState) (name : string) :
  py_eq (trait (self s) "lon_att") (VStr name) = false ->
  (name = "" ->
   exists s', set_lon_att (VStr name) s = (s', inr tt)
     /\ trait (self s') "lon_unit" = trait (self s) "lon_unit"
     /\ warned s' = warned s)
  /\ (forall t,
      name <> "" -> table (self s) = Some t ->
      find (fun c => String.eqb (cname c) name) t = None ->
      set_lon_att (VStr name) s
      = (with_self (store_trait "lon_att" (VStr name)) s, inl (KeyError name)))
  /\ (forall t column,
      name <> "" -> table (self s) = Some t ->
      find (fun c => String.eqb (cname c) name) t = Some column ->
      (forall unit m,
         cunit column = Some unit ->
         m ∈ keys VALID_LON_UNITS -> unit_eqb unit m = true ->
         exists s', set_lon_att (VStr name) s = (s', inr tt)
           /\ trait (self s') "lon_unit" = VUnit m
           /\ warned s' = warned s)
      /\ (forall unit,
         cunit column = Some unit ->
         (forall k, k ∈ keys VALID_LON_UNITS -> unit_eqb unit k = false) ->
         exists s' w, set_lon_att (VStr name) s = (s', inr tt)
           /\ trait (self s') "lon_unit" = trait (self s) "lon_unit"
           /\ warned s' = warned s ++ [w])
      /\ (cunit column = None ->
         exists s', set_lon_att (VStr name) s = (s', inr tt)
           /\ trait (self s') "lon_unit" = trait (self s) "lon_unit"
           /\ warned s' = warned s)).
Proof.
  intros Hne.
  set (s1 := with_self (store_trait "lon_att" (VStr name)) s).
  assert (Ha : trait (self s1) "lon_att" = VStr name) by apply trait_store_same.
  assert (Hu : trait (self s1) "lon_unit" = trait (self s) "lon_unit")
    by (apply trait_store_other; discriminate).
  split; [|split].
  - intros ->.
    destruct (set_lon_att_changed s "" s1 Hne) as (s' & -> & Hs & Hw).
    { now apply on_lon_att_change_empty. }
    exists s'. rewrite Hs, Hw. auto.
  - intros t Hname Ht Hf. unfold set_lon_att.
    rewrite (set_with_valid _ _ _ (VStr name)) by reflexivity. rewrite Hne.
    apply bind_raises. now apply (on_lon_att_change_missing s1 name t).
  - intros t column Hname Ht Hf.
    pose proof (on_lon_att_change_column s1 name t column Ha Hname Ht Hf) as Hobs.
    unfold pick_unit_if_available in Hobs. repeat split.
    + intros unit m Hc Hm He. rewrite Hc in Hobs.
      rewrite (pick_loop_member unit m) in Hobs
        by (auto; exact lon_units_distinct).
      unfold in_dict in Hobs. rewrite bool_decide_eq_true_2 in Hobs by assumption.
      destruct (set_lon_unit_key m s1 Hm) as (s2 & H2 & Hs2 & Hw2).
      rewrite H2 in Hobs.
      destruct (set_lon_att_changed s name s2 Hne Hobs) as (s' & -> & Hs & Hw).
      exists s'. rewrite Hs, Hw, Hs2, Hw2.
      split; [reflexivity|]. split; [apply trait_store_same | reflexivity].
    + intros unit Hc Hout. rewrite Hc in Hobs.
      rewrite pick_loop_outside in Hobs by assumption.
      unfold in_dict in Hobs.
      rewrite bool_decide_eq_false_2 in Hobs by now apply outside_not_key.
      destruct (set_lon_att_changed s name _ Hne Hobs) as (s' & -> & Hs & Hw).
      exists s'. eexists. rewrite Hs, Hw. simpl. auto.
    + intros Hc. rewrite Hc, pick_loop_None in Hobs.
      destruct (set_lon_att_changed s name s1 Hne Hobs) as (s' & -> & Hs & Hw).
      exists s'. rewrite Hs, Hw. auto.
Qed.

(** ** [pick_unit_if_available] in general *)

Lemma pick_loop_split (u0 : Unit) (ks : list Unit) :
  (exists pre k post,
     ks = pre ++ k :: post /\ unit_eqb u0 k = true
     /\ forall k', k' ∈ pre -> unit_eqb u0 k' = false)
  \/ (forall k, k ∈ ks -> unit_eqb u0 k = false).
Proof.
  induction ks as [|k ks IH].
  - right. intros k H. inversion H.
  - destruct (unit_eqb u0 k) eqn:E.
    + left. exists [], k, ks. split; [reflexivity|]. split; [exact E|].
      intros k' H. inversion H.
    + destruct IH as [(pre & k1 & post & -> & He & Hpre)|Hall].
      * left. exists (k :: pre), k1, post. split; [reflexivity|].
        split; [exact He|]. intros k' H.
        apply elem_of_cons in H as [->|H]; auto.
      * right. intros k' H. apply elem_of_cons in H as [->|H]; auto.
Qed.

Lemma pick_loop_first (u0 k : Unit) pre post :
  unit_eqb u0 k = true -> (forall k', k' ∈ pre -> unit_eqb u0 k' = false) ->
  pick_loop (Some u0) (pre ++ k :: post) = Some k.
Proof.
  intros He. induction pre as [|p pre IH]; intros Hpre; simpl.
  - now rewrite He.
  - rewrite (Hpre p) by apply list_elem_of_here.
    apply IH. intros k' H. apply Hpre. now apply list_elem_of_further.
Qed.

(** [pick_unit_if_available] returns [None] on [None]; on a unit it returns
    the first key of the dictionary that is [==] to it, or the unit itself
    when no key is; and picking again changes nothing. *)
Theorem pick_unit_if_available_result (unit : option Unit) (valid_units : Dict) :
  match unit with
  | None => pick_unit_if_available None valid_units = None
  | Some u0 =>
      (exists pre k post,
         keys valid_units = pre ++ k :: post
         /\ unit_eqb u0 k = true
         /\ (forall k', k' ∈ pre -> unit_eqb u0 k' = false)
         /\ pick_unit_if_available (Some u0) valid_units = Some k)
      \/ ((forall k, k ∈ keys valid_units -> unit_eqb u0 k = false)
          /\ pick_unit_if_available (Some u0) valid_units = Some u0)
  end
  /\ pick_unit_if_available (pick_unit_if_available unit valid_units) valid_units
     = pick_unit_if_available unit valid_units.
Proof.
  unfold pick_unit_if_available. destruct unit as [u0|].
  - destruct (pick_loop_split u0 (keys valid_units))
      as [(pre & k & post & Hk & He & Hpre)|Hall].
    + pose proof (pick_loop_first u0 k pre post He Hpre) as Hp.
      rewrite Hk, Hp. split.
      * left. exists pre, k, post. auto.
      * apply pick_loop_first; [apply unit_eqb_refl|].
        intros k' Hin. destruct (unit_eqb k k') eqn:E; [|reflexivity].
        rewrite <- (Hpre k' Hin). symmetry. now apply (unit_eqb_trans u0 k k').
    + rewrite pick_loop_outside by assumption. split; [right; auto|].
      now apply pick_loop_outside.
  - rewrite pick_loop_None. split; [reflexivity | apply pick_loop_None].
Qed.

(** ** Traits without a validator or an observer *)

Lemma plain_setattr (s : LState) (name : string) (t : TraitType)
    (default : Val) (wwt_name : string) (value : Val) :
  name ∈ ["lat_att"; "cmap_att"; "size_att"; "size_scale"; "color"; "opacity"] ->
  assoc name class_traits = Some (t, default, wwt_name) ->
  (type_validate t value = inl TraitError ->
   setattr name value s = (s, inl TraitError))
  /\ (type_validate t value = inr value ->
      setattr name value s
      = if py_eq (trait (self s) name) value
        then (with_self (store_trait name value) s, inr tt)
        else (mkLState (store_trait name value (self s))
                (sent s ++ [table_layer_set (id (self s)) wwt_name value])
                (warned s), inr tt)).
Proof.
  intros Hin Ha.
  assert (Hs : setattr name value = set_with (ret tt) name value
               /\ validate name value = type_validate t value
               /\ trait_metadata name = Some wwt_name
               /\ String.eqb name "alt_unit" = false
               /\ String.eqb name "lon_unit" = false).
  { repeat (apply elem_of_cons in Hin as [->|Hin];
            [injection Ha as <- <- <-; repeat split; destruct value; reflexivity|]).
    inversion Hin. }
  destruct Hs as (-> & Hv & Hm & E1 & E2). split; intros Ht.
  - apply set_with_invalid. congruence.
  - rewrite (set_with_valid _ _ _ value) by congruence.
    destruct (py_eq _ _); [reflexivity|].
    unfold bind at 1, ret at 1.
    now rewrite (listener_plain name wwt_name).
Qed.

(** For [lat_att], [cmap_att], [size_att], [size_scale], [color] and
    [opacity]: a value of the wrong type is refused with [TraitError] and
    nothing changes; a value of the trait's type is stored, and when it
    differs from the old value exactly one [table_layer_set] is sent, with
    the trait's tag and the value as assigned. *)
Theorem plain_trait_assignment (s : LState) (name : string) (t : TraitType)
    (default : Val) (wwt_name : string) (value : Val) :
  name ∈ ["lat_att"; "cmap_att"; "size_att"; "size_scale"; "color"; "opacity"] ->
  assoc name class_traits = Some (t, default, wwt_name) ->
  (type_validate t value = inl TraitError ->
   setattr name value s = (s, inl TraitError))
  /\ (type_validate t value = inr value ->
      setattr name value s
      = if py_eq (trait (self s) name) value
        then (with_self (store_trait name value) s, inr tt)
        else (mkLState (store_trait name value (self s))
                (sent s ++ [table_layer_set (id (self s)) wwt_name value])
                (warned s), inr tt)).
Proof. exact (plain_setattr s name t default wwt_name value). Qed.

(** ** An override of a forced default *)

Lemma init_traits_unfold (kwargs : list (string * Val)) :
  init_traits kwargs
  = if unknown_key kwargs
    then raise (KeyError "a key doesn't match any layer trait name")
    else bind (apply_kwargs kwargs) (fun _ => init_columns kwargs).
Proof. reflexivity. Qed.

Lemma bind_inv {S A B} (m : M S A) (k : A -> M S B) s s' b :
  bind m k s = (s', inr b) ->
  exists a s1, m s = (s1, inr a) /\ k a s1 = (s', inr b).
Proof.
  unfold bind. destruct (m s) as [s1 [e|a]]; [discriminate|]. eauto.
Qed.

Lemma bind_assoc {S A B C} (m : M S A) (k : A -> M S B) (h : B -> M S C) s :
  bind (bind m k) h s = bind m (fun a => bind (k a) h) s.
Proof. unfold bind. destruct (m s) as [s1 [e|a]]; reflexivity. Qed.

Lemma bind_ext {S A B} (m : M S A) (k k' : A -> M S B) s :
  (forall a s1, k a s1 = k' a s1) -> bind m k s = bind m k' s.
Proof. intros H. unfold bind. destruct (m s) as [s1 [e|a]]; auto. Qed.

Lemma apply_kwargs_app (pre post : list (string * Val)) key value s :
  apply_kwargs (pre ++ (key, value) :: post) s
  = bind (apply_kwargs pre)
         (fun _ => bind (setattr key value) (fun _ => apply_kwargs post)) s.
Proof.
  revert s. induction pre as [|[k v] pre IH]; intros s; [reflexivity|].
  simpl. rewrite bind_assoc. apply bind_ext. intros _ s1. apply IH.
Qed.

Lemma sends_only_mono {A} (P Q : Msg -> bool) (m : M LState A) :
  (forall x, P x = true -> Q x = true) -> sends_only P m -> sends_only Q m.
Proof.
  intros H Hm s. destruct (Hm s) as (extra & Hs & Hf). exists extra.
  split; [exact Hs|]. rewrite forallb_forall in *. auto.
Qed.

Lemma quiet_untagged name t default wwt_name x :
  name ∈ ["size_scale"; "color"; "opacity"] ->
  assoc name class_traits = Some (t, default, wwt_name) ->
  quiet x = true -> untagged wwt_name x = true.
Proof.
  intros Hin Ha Hq. apply quiet_inv in Hq as (_ & H1 & H2 & H3). unfold untagged.
  repeat (apply elem_of_cons in Hin as [->|Hin];
          [injection Ha as <- <- <-; now apply negb_true_iff|]).
  inversion Hin.
Qed.

Lemma untagged_setattr name t default wwt_name key value :
  name ∈ ["size_scale"; "color"; "opacity"] ->
  assoc name class_traits = Some (t, default, wwt_name) ->
  key <> name ->
  sends_only (untagged wwt_name) (setattr key value).
Proof.
  intros Hin Ha Hne.
  destruct (decide (key ∈ ["size_scale"; "color"; "opacity"])) as [Hk|Hk].
  - change (setattr key value) with (setattr key value).
    assert (Hs : setattr key value = set_with (ret tt) key value).
    { repeat (apply elem_of_cons in Hk as [->|Hk]; [reflexivity|]). inversion Hk. }
    rewrite Hs. apply sends_only_set_with; [sends_step|].
    intros w i v Hm. unfold untagged. apply negb_true_iff. simpl.
    apply String.eqb_neq. intros ->. apply Hne.
    clear Hs. unfold trait_metadata in Hm.
    repeat (apply elem_of_cons in Hk as [->|Hk];
            [repeat (apply elem_of_cons in Hin as [->|Hin];
                     [try reflexivity;
                      injection Ha as <- <- <-; simpl in Hm; discriminate|]);
             inversion Hin|]).
    inversion Hk.
  - eapply sends_only_mono; [|now apply quiet_setattr].
    intros x. now apply (quiet_untagged name t default).
Qed.

Lemma untagged_apply_kwargs name t default wwt_name (kwargs : list (string * Val)) :
  name ∈ ["size_scale"; "color"; "opacity"] ->
  assoc name class_traits = Some (t, default, wwt_name) ->
  name ∉ map fst kwargs ->
  sends_only (untagged wwt_name) (apply_kwargs kwargs).
Proof.
  intros Hin Ha. induction kwargs as [|[key value] rest IH]; intros Hn; simpl;
    [sends_step|].
  sends_step.
  - apply (untagged_setattr name t default); auto.
    intros ->. apply Hn. simpl. apply list_elem_of_here.
  - apply IH. intros H. apply Hn. simpl. now apply list_elem_of_further.
Qed.

Lemma quiet_init_columns (kwargs : list (string * Val)) :
  sends_only quiet (init_columns kwargs).
Proof.
  unfold init_columns.
  sends_step; [apply sends_only_table_colnames|].
  destruct (guess_lon_lat_columns _) as [lon_guess lat_guess].
  sends_step.
  - case_bool_decide; [sends_step|].
    sends_step; [apply sends_only_py_or, sends_only_colname_at|].
    apply quiet_set_lon_att.
  - case_bool_decide; [sends_step|].
    sends_step; [apply sends_only_py_or, sends_only_colname_at|].
    apply quiet_setattr.
    intros Hin. repeat (apply elem_of_cons in Hin as [Hin|Hin]; [discriminate|]).
    inversion Hin.
Qed.

(** The keywords before [name] leave the layer's id and the trait [name]
    as they were. *)
Lemma apply_kwargs_keeps name (kwargs : list (string * Val)) s :
  name ∈ ["size_scale"; "color"; "opacity"] ->
  name ∉ map fst kwargs ->
  id (self (fst (apply_kwargs kwargs s))) = id (self s)
  /\ trait (self (fst (apply_kwargs kwargs s))) name = trait (self s) name.
Proof.
  intros Hin. revert s.
  induction kwargs as [|[key value] rest IH]; intros s Hn; [auto|].
  simpl. unfold bind.
  destruct (stores_only_setattr key value s) as (_ & Hi & Ht).
  assert (Hk : name ∉ [key; "lon_unit"; "alt_unit"]).
  { intros H. apply elem_of_cons in H as [->|H].
    - apply Hn. simpl. apply list_elem_of_here.
    - repeat (apply elem_of_cons in Hin as [->|Hin];
              [repeat (apply elem_of_cons in H as [H|H]; [discriminate|]);
               inversion H|]).
      inversion Hin. }
  specialize (Ht name Hk).
  destruct (setattr key value s) as [s1 [e|[]]]; simpl in *; [auto|].
  destruct (IH s1) as [H1 H2].
  { intros H. apply Hn. simpl. now apply list_elem_of_further. }
  split; congruence.
Qed.

Lemma count_untagged wwt_name (l : list Msg) :
  forallb (untagged wwt_name) l = true -> count_msgs (is_set wwt_name) l = 0.
Proof.
  apply count_msgs_none. intros x. unfold untagged. now rewrite negb_true_iff.
Qed.

(** When a keyword overrides [size_scale], [color] or [opacity] with a
    value other than the default and construction returns, the parent has
    received exactly two set messages with that trait's tag: first the
    forced default, later the override. *)
Theorem overridden_default_sent_twice (log : list Msg) (uuid4 : string)
    (t : Table Unit) (frame : Val) (pre post : list (string * Val))
    (name : string) (ty : TraitType) (default : Val) (wwt_name : string)
    (value : Val) (s' : LState) :
  name ∈ ["size_scale"; "color"; "opacity"] ->
  assoc name class_traits = Some (ty, default, wwt_name) ->
  name ∉ map fst pre -> name ∉ map fst post ->
  py_eq default value = false ->
  construct log uuid4 (Some t) frame (pre ++ (name, value) :: post)
  = (s', inr tt) ->
  exists a b c,
    sent s'
    = log ++ a ++ table_layer_set uuid4 wwt_name default
                 :: b ++ table_layer_set uuid4 wwt_name value :: c
    /\ count_msgs (is_set wwt_name) a = 0
    /\ count_msgs (is_set wwt_name) b = 0
    /\ count_msgs (is_set wwt_name) c = 0.
Proof.
  intros Hin Ha Hpre Hpost Hdiff. unfold construct, __init__.
  rewrite (bind_returns _ _ _ _ _ (init_defaults_eval log [] uuid4 t frame)).
  set (s4 := mkLState _ _ _).
  rewrite init_traits_unfold. destruct (unknown_key _); [discriminate|].
  intros H. apply bind_inv in H as ([] & s8 & Hk & Hcols).
  rewrite apply_kwargs_app in Hk.
  apply bind_inv in Hk as ([] & s5 & Hk1 & Hk).
  apply bind_inv in Hk as ([] & s6 & Hset & Hk2).
  (* the pieces of the wire *)
  destruct (untagged_apply_kwargs name ty default wwt_name pre Hin Ha Hpre s4)
    as (e1 & E1 & F1). rewrite Hk1 in E1. simpl in E1.
  destruct (untagged_apply_kwargs name ty default wwt_name post Hin Ha Hpost s6)
    as (e3 & E3 & F3). rewrite Hk2 in E3. simpl in E3.
  destruct (quiet_init_columns (pre ++ (name, value) :: post) s8)
    as (e4 & E4 & F4). rewrite Hcols in E4. simpl in E4.
  destruct (apply_kwargs_keeps name pre s4 Hin Hpre) as [Hid Htr].
  rewrite Hk1 in Hid, Htr. simpl in Hid, Htr.
  rewrite trait_unset in Htr.
  assert (Hdef : trait_default name = default).
  { unfold trait_default. now rewrite Ha. }
  rewrite Hdef in Htr.
  (* the assignment of the override *)
  assert (E2 : sent s6 = sent s5 ++ [table_layer_set uuid4 wwt_name value]).
  { destruct (plain_setattr s5 name ty default wwt_name value) as [Hbad Hok];
      [|exact Ha|].
    { repeat (apply elem_of_cons in Hin as [->|Hin];
              [repeat first [apply list_elem_of_here | apply list_elem_of_further]|]).
      inversion Hin. }
    assert (Hty : type_validate ty value = inr value
                  \/ type_validate ty value = inl TraitError)
      by (destruct ty, value; simpl; auto).
    destruct Hty as [Hty|Hty].
    - rewrite (Hok Hty), Htr, Hdiff in Hset.
      injection Hset as <-. simpl. now rewrite Hid.
    - rewrite (Hbad Hty) in Hset. discriminate. }
  assert (F4' : forallb (untagged wwt_name) e4 = true).
  { rewrite forallb_forall in *. intros x Hx.
    apply (quiet_untagged name ty default); auto. }
  assert (Hd : exists a b,
             default_messages uuid4 t frame
             = a ++ table_layer_set uuid4 wwt_name default :: b
             /\ count_msgs (is_set wwt_name) a = 0
             /\ count_msgs (is_set wwt_name) b = 0).
  { unfold default_messages.
    repeat (apply elem_of_cons in Hin as [->|Hin];
            [injection Ha as <- <- <-|]); [| | |inversion Hin].
    - eexists [_], [_; _]. repeat split.
    - eexists [_; _], [_]. repeat split.
    - eexists [_; _; _], []. repeat split. }
  destruct Hd as (a & b & Hd & Ca & Cb).
  exists a, (b ++ e1), (e3 ++ e4).
  rewrite E4, E3, E2, E1. subst s4. simpl sent. rewrite Hd.
  split; [repeat rewrite <- app_assoc; simpl; repeat rewrite <- app_assoc; reflexivity|].
  rewrite !count_msgs_app, Ca, Cb, !count_untagged by assumption.
  auto.
Qed.

(** ** [update_data] over a table *)

Lemma update_data_eval (t : Table Unit) s :
  update_data (Some t) s
  = bind update_alt (fun _ => update_lon_lat) (updated t s).
Proof.
  unfold update_data, update_alt.
  unfold bind at 1, modify at 1. unfold bind at 1, gets at 1.
  unfold bind at 1, _table_b64 at 1, bind at 1, gets at 1.
  cbn [with_self set_table self table].
  unfold ret at 1. unfold bind at 1, send at 1, modify at 1.
  cbn [self sent warned id].
  fold (updated t s). rewrite bind_assoc. apply bind_ext.
  intros alt_att s1. reflexivity.
Qed.

Section SendsSets.
Variable P : Msg -> bool.
Hypothesis P_set : forall i w v, P (table_layer_set i w v) = true.

Lemma sets_set_with observer name value :
  sends_only P observer -> sends_only P (set_with observer name value).
Proof. intros H. apply sends_only_set_with; auto. Qed.

Lemma sets_on_alt_att_change : sends_only P _on_alt_att_change.
Proof.
  unfold _on_alt_att_change. sends_step; [apply sends_only_trait_str|].
  destruct (String.length _ =? 0)%nat; [sends_step|].
  sends_step; [apply sends_only_table_column|].
  destruct (pick_unit_if_available _ _) as [unit|]; [|sends_step].
  destruct (in_dict _ _); [apply sets_set_with | ]; sends_step.
Qed.

Lemma sets_on_lon_att_change : sends_only P _on_lon_att_change.
Proof.
  unfold _on_lon_att_change. sends_step; [apply sends_only_trait_str|].
  destruct (String.length _ =? 0)%nat; [sends_step|].
  sends_step; [apply sends_only_table_column|].
  destruct (pick_unit_if_available _ _) as [unit|]; [|sends_step].
  destruct (in_dict _ _); [apply sets_set_with | ]; sends_step.
Qed.

Lemma sets_setattr name value : sends_only P (setattr name value).
Proof.
  unfold setattr, set_alt_att, set_lon_att.
  destruct (String.eqb name "alt_att"); [|destruct (String.eqb name "lon_att")];
    apply sets_set_with;
    auto using sets_on_alt_att_change, sets_on_lon_att_change, sends_only_ret.
Qed.

Lemma sets_update_alt : sends_only P update_alt.
Proof.
  unfold update_alt. sends_step; [apply sends_only_trait_str|].
  destruct (0 <? _)%nat; [|sends_step].
  sends_step; [apply sends_only_table_colnames|].
  case_bool_decide; [apply sets_on_alt_att_change|].
  apply sets_set_with, sets_on_alt_att_change.
Qed.

Lemma sets_update_lon_lat : sends_only P update_lon_lat.
Proof.
  unfold update_lon_lat. sends_step; [apply sends_only_table_colnames|].
  destruct (guess_lon_lat_columns _) as [lon_guess lat_guess].
  sends_step; [apply sends_only_trait_str|].
  sends_step.
  - case_bool_decide; [apply sets_on_lon_att_change|].
    sends_step; [apply sends_only_py_or, sends_only_colname_at|].
    apply sets_set_with, sets_on_lon_att_change.
  - sends_step; [apply sends_only_trait_str|].
    case_bool_decide; [sends_step|].
    sends_step; [apply sends_only_py_or, sends_only_colname_at|].
    apply sets_setattr.
Qed.

End SendsSets.

Lemma stores_only_table_colnames names : stores_only names table_colnames.
Proof. unfold table_colnames. repeat stores_step. destruct (table _); stores_step. Qed.

Lemma stores_only_colname_at names i : stores_only names (colname_at i).
Proof.
  unfold colname_at. stores_step; [apply stores_only_table_colnames|].
  destruct (_ !! _); stores_step.
Qed.

Lemma stores_only_py_or names guess fallback :
  stores_only names fallback -> stores_only names (py_or guess fallback).
Proof.
  intros H. unfold py_or. destruct guess as [g|]; [|exact H].
  destruct (String.length g =? 0)%nat; [exact H | stores_step].
Qed.

Lemma stores_only_update_alt names :
  "alt_att" ∈ names -> "alt_unit" ∈ names -> stores_only names update_alt.
Proof.
  intros H1 H2. unfold update_alt. stores_step; [apply stores_only_trait_str|].
  destruct (0 <? _)%nat; [|stores_step].
  stores_step; [apply stores_only_table_colnames|].
  case_bool_decide; [now apply stores_only_on_alt_att_change|].
  apply stores_only_set_with; [exact H1 | now apply stores_only_on_alt_att_change].
Qed.

Lemma stores_only_update_lon_lat names :
  "lon_att" ∈ names -> "lon_unit" ∈ names -> "lat_att" ∈ names ->
  stores_only names update_lon_lat.
Proof.
  intros H1 H2 H3. unfold update_lon_lat.
  stores_step; [apply stores_only_table_colnames|].
  destruct (guess_lon_lat_columns _) as [lon_guess lat_guess].
  stores_step; [apply stores_only_trait_str|].
  stores_step.
  - case_bool_decide; [now apply stores_only_on_lon_att_change|].
    stores_step; [apply stores_only_py_or, stores_only_colname_at|].
    apply stores_only_set_with; [exact H1 | now apply stores_only_on_lon_att_change].
  - stores_step; [apply stores_only_trait_str|].
    case_bool_decide; [stores_step|].
    stores_step; [apply stores_only_py_or, stores_only_colname_at|].
    match goal with
    | |- stores_only _ (setattr "lat_att" ?v) =>
        change (setattr "lat_att" v) with (set_with (ret tt) "lat_att" v)
    end.
    apply stores_only_set_with; [exact H3 | stores_step].
Qed.

(** [update_data] over a table, whether it returns or raises, stores the
    table and sends exactly one [table_layer_update], with the layer's id
    and the new table's text, before anything else; whatever follows are
    [table_layer_set] messages. *)
Theorem update_data_sends_update_first (t : Table Unit) (s : LState) :
  exists rest,
    sent (fst (update_data (Some t) s))
    = sent s
      ++ table_layer_update (id (self s))
           (Base64.b64encode (encode_ascii_replace (crlf (table_write t))))
         :: rest
    /\ forallb is_any_set rest = true
    /\ table (self (fst (update_data (Some t) s))) = Some t.
Proof.
  rewrite update_data_eval.
  assert (Hs : sends_only is_any_set (bind update_alt (fun _ => update_lon_lat))).
  { sends_step; [apply sets_update_alt | apply sets_update_lon_lat]; reflexivity. }
  destruct (Hs (updated t s)) as (rest & E & F).
  assert (Ht : stores_only ["alt_att"; "alt_unit"; "lon_att"; "lon_unit"; "lat_att"]
                 (bind update_alt (fun _ => update_lon_lat))).
  { stores_step; [apply stores_only_update_alt | apply stores_only_update_lon_lat];
      repeat first [apply list_elem_of_here | apply list_elem_of_further]. }
  destruct (Ht (updated t s)) as (Ht' & _).
  exists rest. rewrite E, Ht'. simpl. rewrite <- app_assoc. auto.
Qed.

Lemma trait_str_eval name v s :
  trait (self s) name = VStr v -> trait_str name s = (s, inr v).
Proof. intros H. unfold trait_str, bind, gets, ret. now rewrite H. Qed.

Lemma table_colnames_eval t s :
  table (self s) = Some t -> table_colnames s = (s, inr (map cname t)).
Proof. intros H. unfold table_colnames, bind, gets, ret. now rewrite H. Qed.

(** When the column named by [alt_att] is not in the new table,
    [update_data] resets [alt_att] to the empty string and tells the parent,
    right after the update message; this holds whether the rest of the call
    returns or raises. *)
Theorem update_data_resets_alt_att (t : Table Unit) (s : LState) (alt_att : string) :
  trait (self s) "alt_att" = VStr alt_att ->
  alt_att <> "" -> alt_att ∉ map cname t ->
  exists rest,
    trait (self (fst (update_data (Some t) s))) "alt_att" = VStr ""
    /\ trait (self (fst (update_data (Some t) s))) "alt_unit"
       = trait (self s) "alt_unit"
    /\ sent (fst (update_data (Some t) s))
       = sent s
         ++ table_layer_update (id (self s))
              (Base64.b64encode (encode_ascii_replace (crlf (table_write t))))
            :: table_layer_set (id (self s)) "altColumn" (VStr "")
            :: rest.
Proof.
  intros Ha Hne Hin. rewrite update_data_eval.
  set (s1 := updated t s).
  assert (Ha1 : trait (self s1) "alt_att" = VStr alt_att) by exact Ha.
  assert (Halt : update_alt s1
                 = (mkLState (store_trait "alt_att" (VStr "") (self s1))
                      (sent s1 ++ [table_layer_set (id (self s)) "altColumn" (VStr "")])
                      (warned s1), inr tt)).
  { unfold update_alt.
    rewrite (bind_returns _ _ _ _ _ (trait_str_eval "alt_att" alt_att s1 Ha1)).
    assert (E : (0 <? String.length alt_att)%nat = true)
      by (destruct alt_att; [contradiction | reflexivity]).
    rewrite E.
    rewrite (bind_returns _ _ _ _ _ (table_colnames_eval t s1 eq_refl)).
    rewrite bool_decide_eq_false_2 by assumption.
    unfold set_alt_att.
    rewrite (set_with_valid _ _ _ (VStr "")) by reflexivity.
    rewrite Ha1.
    assert (Ep : py_eq (VStr alt_att) (VStr "") = false).
    { simpl. apply String.eqb_neq. exact Hne. }
    rewrite Ep.
    rewrite (bind_returns _ _ _ _ tt
               (on_alt_att_change_empty
                  (with_self (store_trait "alt_att" (VStr "")) s1)
                  (trait_store_same "alt_att" (VStr "") (self s1)))).
    now rewrite (listener_plain "alt_att" "altColumn"). }
  rewrite (bind_returns _ _ _ _ _ Halt).
  set (s2 := mkLState _ _ _).
  destruct (sets_update_lon_lat (fun _ => true) (fun _ _ _ => eq_refl) s2)
    as (rest & E & _).
  destruct (stores_only_update_lon_lat ["lon_att"; "lon_unit"; "lat_att"]
              (list_elem_of_here _ _)
              (list_elem_of_further _ _ _ (list_elem_of_here _ _))
              (list_elem_of_further _ _ _
                 (list_elem_of_further _ _ _ (list_elem_of_here _ _))) s2)
    as (_ & _ & N).
  assert (Hno : forall name, name = "alt_att" \/ name = "alt_unit" ->
                 name ∉ ["lon_att"; "lon_unit"; "lat_att"]).
  { intros name [-> | ->] H;
      repeat (apply elem_of_cons in H as [H|H]; [discriminate|]); inversion H. }
  exists rest. rewrite E, !N by auto.
  subst s2 s1. simpl. rewrite <- app_assoc.
  split; [apply trait_store_same|]. split.
  - rewrite trait_store_other by discriminate. reflexivity.
  - now rewrite <- app_assoc.
Qed.

(** ** [update_data] keeps a selection that still fits *)

Lemma find_name_in (t : Table Unit) name column :
  find (fun c => String.eqb (cname c) name) t = Some column ->
  name ∈ map cname t.
Proof.
  induction t as [|c t IH]; simpl; [discriminate|].
  destruct (String.eqb_spec (cname c) name) as [<-|_].
  - intros _. apply list_elem_of_here.
  - intros H. apply list_elem_of_further. auto.
Qed.

Lemma in_find_name (t : Table Unit) name :
  name ∈ map cname t ->
  exists column, find (fun c => String.eqb (cname c) name) t = Some column.
Proof.
  induction t as [|c t IH]; simpl; intros H; [inversion H|].
  destruct (String.eqb_spec (cname c) name) as [_|Hne]; [eauto|].
  apply elem_of_cons in H as [H|H]; [congruence | auto].
Qed.

(** Re-running an observer on a name that is a column returns, and touches
    the unit trait only. *)
Lemma on_alt_att_change_returns s name t :
  trait (self s) "alt_att" = VStr name -> table (self s) = Some t ->
  name = "" \/ name ∈ map cname t ->
  exists s', _on_alt_att_change s = (s', inr tt)
    /\ table (self s') = Some t
    /\ forall n, n <> "alt_unit" -> trait (self s') n = trait (self s) n.
Proof.
  intros Ha Ht Hin.
  destruct (String.eqb_spec name "") as [->|Hne].
  { rewrite on_alt_att_change_empty by assumption. eauto. }
  destruct Hin as [?|Hin]; [contradiction|].
  destruct (in_find_name t name Hin) as [column Hf].
  rewrite (on_alt_att_change_column s name t column) by assumption.
  destruct (pick_unit_if_available _ _) as [unit|]; [|eauto].
  unfold in_dict. case_bool_decide as Hk.
  - destruct (set_alt_unit_key unit s Hk) as (s' & -> & Hs & _).
    exists s'. rewrite Hs. split; [reflexivity|]. split; [exact Ht|].
    intros n Hn. apply trait_store_other. congruence.
  - eexists. split; [reflexivity|]. simpl. auto.
Qed.

Lemma on_lon_att_change_returns s name t :
  trait (self s) "lon_att" = VStr name -> table (self s) = Some t ->
  name = "" \/ name ∈ map cname t ->
  exists s', _on_lon_att_change s = (s', inr tt)
    /\ table (self s') = Some t
    /\ forall n, n <> "lon_unit" -> trait (self s') n = trait (self s) n.
Proof.
  intros Ha Ht Hin.
  destruct (String.eqb_spec name "") as [->|Hne].
  { rewrite on_lon_att_change_empty by assumption. eauto. }
  destruct Hin as [?|Hin]; [contradiction|].
  destruct (in_find_name t name Hin) as [column Hf].
  rewrite (on_lon_att_change_column s name t column) by assumption.
  destruct (pick_unit_if_available _ _) as [unit|]; [|eauto].
  unfold in_dict. case_bool_decide as Hk.
  - destruct (set_lon_unit_key unit s Hk) as (s' & -> & Hs & _).
    exists s'. rewrite Hs. split; [reflexivity|]. split; [exact Ht|].
    intros n Hn. apply trait_store_other. congruence.
  - eexists. split; [reflexivity|]. simpl. auto.
Qed.

Lemma update_alt_returns s name t :
  trait (self s) "alt_att" = VStr name -> table (self s) = Some t ->
  name = "" \/ name ∈ map cname t ->
  exists s', update_alt s = (s', inr tt)
    /\ table (self s') = Some t
    /\ forall n, n <> "alt_unit" -> trait (self s') n = trait (self s) n.
Proof.
  intros Ha Ht Hin. unfold update_alt.
  rewrite (bind_returns _ _ _ _ _ (trait_str_eval "alt_att" name s Ha)).
  destruct (0 <? String.length name)%nat eqn:E; [|unfold ret; eauto].
  rewrite (bind_returns _ _ _ _ _ (table_colnames_eval t s Ht)).
  assert (Hc : name ∈ map cname t).
  { destruct Hin as [->|]; [discriminate | assumption]. }
  rewrite bool_decide_eq_true_2 by assumption.
  now apply (on_alt_att_change_returns s name t).
Qed.

Lemma update_lon_lat_returns s lon lat t :
  table (self s) = Some t ->
  trait (self s) "lon_att" = VStr lon -> lon ∈ map cname t ->
  trait (self s) "lat_att" = VStr lat ->
  lat ∈ map cname t
  \/ guess_or_column (snd (guess_lon_lat_columns (map cname t))) 1 (map cname t)
     = Some lat ->
  exists s', update_lon_lat s = (s', inr tt)
    /\ forall n, n <> "lon_unit" -> trait (self s') n = trait (self s) n.
Proof.
  intros Ht Hlon Hlin Hlat Hlatin. unfold update_lon_lat.
  rewrite (bind_returns _ _ _ _ _ (table_colnames_eval t s Ht)).
  destruct (guess_lon_lat_columns (map cname t)) as [lon_guess lat_guess].
  simpl snd in Hlatin.
  rewrite (bind_returns _ _ _ _ _ (trait_str_eval "lon_att" lon s Hlon)).
  rewrite bool_decide_eq_true_2 by assumption.
  destruct (on_lon_att_change_returns s lon t Hlon Ht (or_intror Hlin))
    as (s1 & H1 & Ht1 & N1).
  rewrite (bind_returns _ _ _ _ _ H1).
  assert (Hlat1 : trait (self s1) "lat_att" = VStr lat)
    by (rewrite N1; [exact Hlat | discriminate]).
  rewrite (bind_returns _ _ _ _ _ (trait_str_eval "lat_att" lat s1 Hlat1)).
  case_bool_decide as Hin.
  - exists s1. split; [reflexivity | exact N1].
  - destruct Hlatin as [?|Hg]; [contradiction|].
    rewrite (bind_returns _ _ s1 s1 lat)
      by (rewrite (py_or_eval lat_guess 1 s1 t Ht1), Hg; reflexivity).
    change (setattr "lat_att" (VStr lat))
      with (set_with (ret tt) "lat_att" (VStr lat)).
    rewrite (set_with_valid _ _ _ (VStr lat)) by reflexivity.
    rewrite Hlat1. simpl py_eq. rewrite String.eqb_refl.
    eexists. split; [reflexivity|]. intros n Hn. simpl.
    destruct (String.eqb_spec n "lat_att") as [->|Hne].
    + rewrite trait_store_same. rewrite <- Hlat1. now apply N1.
    + rewrite trait_store_other by congruence. now apply N1.
Qed.

Lemma update_data_stable (t : Table Unit) (s : LState) (lon lat alt : string) :
  trait (self s) "lon_att" = VStr lon -> lon ∈ map cname t ->
  trait (self s) "lat_att" = VStr lat ->
  lat ∈ map cname t
  \/ guess_or_column (snd (guess_lon_lat_columns (map cname t))) 1 (map cname t)
     = Some lat ->
  trait (self s) "alt_att" = VStr alt -> alt = "" \/ alt ∈ map cname t ->
  exists s', update_data (Some t) s = (s', inr tt)
    /\ trait (self s') "lon_att" = VStr lon
    /\ trait (self s') "lat_att" = VStr lat
    /\ trait (self s') "alt_att" = VStr alt
    /\ table (self s') = Some t.
Proof.
  intros Hlon Hlin Hlat Hlatin Halt Haltin. rewrite update_data_eval.
  destruct (update_alt_returns (updated t s) alt t Halt eq_refl Haltin)
    as (s1 & H1 & Ht1 & N1).
  rewrite (bind_returns _ _ _ _ _ H1).
  assert (Hlon1 : trait (self s1) "lon_att" = VStr lon)
    by (rewrite N1; [exact Hlon | discriminate]).
  assert (Hlat1 : trait (self s1) "lat_att" = VStr lat)
    by (rewrite N1; [exact Hlat | discriminate]).
  assert (Halt1 : trait (self s1) "alt_att" = VStr alt)
    by (rewrite N1; [exact Halt | discriminate]).
  destruct (update_lon_lat_returns s1 lon lat t Ht1 Hlon1 Hlin Hlat1 Hlatin)
    as (s2 & H2 & N2).
  exists s2. split; [exact H2|].
  rewrite !N2 by discriminate.
  destruct (stores_only_update_lon_lat ["lon_att"; "lon_unit"; "lat_att"]
              (list_elem_of_here _ _)
              (list_elem_of_further _ _ _ (list_elem_of_here _ _))
              (list_elem_of_further _ _ _
                 (list_elem_of_further _ _ _ (list_elem_of_here _ _))) s1)
    as (T & _). rewrite H2 in T. simpl in T.
  repeat split; congruence.
Qed.

(** When [lon_att] and [lat_att] name columns of the new table and
    [alt_att] is empty or names one, [update_data] returns and leaves the
    three as they are (it may derive [lon_unit] and [alt_unit] again). *)
Theorem update_data_keeps_columns (t : Table Unit) (s : LState)
    (lon lat alt : string) :
  trait (self s) "lon_att" = VStr lon -> lon ∈ map cname t ->
  trait (self s) "lat_att" = VStr lat -> lat ∈ map cname t ->
  trait (self s) "alt_att" = VStr alt -> alt = "" \/ alt ∈ map cname t ->
  exists s', update_data (Some t) s = (s', inr tt)
    /\ trait (self s') "lon_att" = VStr lon
    /\ trait (self s') "lat_att" = VStr lat
    /\ trait (self s') "alt_att" = VStr alt
    /\ table (self s') = Some t.
Proof. intros. apply update_data_stable; auto. Qed.

(** ** Construction, then [update_data] with the same table *)

Lemma apply_kwargs_trait name (kwargs : list (string * Val)) s :
  name ∉ map fst kwargs -> name <> "lon_unit" -> name <> "alt_unit" ->
  trait (self (fst (apply_kwargs kwargs s))) name = trait (self s) name.
Proof.
  intros Hn H1 H2. revert s Hn.
  induction kwargs as [|[key value] rest IH]; intros s Hn; [reflexivity|].
  simpl. unfold bind.
  destruct (stores_only_setattr key value s) as (_ & _ & Ht).
  assert (Hk : name ∉ [key; "lon_unit"; "alt_unit"]).
  { intros H. apply elem_of_cons in H as [->|H].
    - apply Hn. simpl. apply list_elem_of_here.
    - apply elem_of_cons in H as [?|H]; [contradiction|].
      apply list_elem_of_singleton in H. contradiction. }
  specialize (Ht name Hk).
  destruct (setattr key value s) as [s1 [e|[]]]; simpl in *; [exact Ht|].
  rewrite IH; [exact Ht|].
  intros H. apply Hn. simpl. now apply list_elem_of_further.
Qed.

Lemma guess_or_column_in guess i (colnames : list string) :
  guess_or_column guess i colnames = Some "" -> "" ∈ colnames.
Proof.
  unfold guess_or_column. destruct guess as [g|].
  - destruct (String.length g =? 0)%nat eqn:E.
    + intros H. eauto using list_elem_of_lookup_2.
    + intros [= ->]. discriminate.
  - intros H. eauto using list_elem_of_lookup_2.
Qed.

(** A first assignment of [lon_att] that returns has found the column. *)
Lemma set_lon_att_column v s s' t :
  set_lon_att (VStr v) s = (s', inr tt) ->
  table (self s) = Some t -> trait (self s) "lon_att" = VStr "" ->
  v = "" \/ v ∈ map cname t.
Proof.
  intros H Ht Hold. destruct v as [|c r]; [now left|].
  right. set (v := String c r) in *.
  assert (Hne : v <> "") by discriminate.
  unfold set_lon_att in H.
  rewrite (set_with_valid _ _ _ (VStr v)) in H by reflexivity.
  rewrite Hold in H. change (py_eq (VStr "") (VStr v)) with false in H.
  apply bind_inv in H as ([] & s2 & Hobs & _).
  set (s1 := with_self (store_trait "lon_att" (VStr v)) s) in *.
  destruct (find (fun c => String.eqb (cname c) v) t) as [column|] eqn:Hf.
  - now apply (find_name_in t v column).
  - rewrite (on_lon_att_change_missing s1 v t) in Hobs;
      [discriminate | apply trait_store_same | exact Hne | exact Ht | exact Hf].
Qed.

(** What a returning construction that was given none of [lon_att],
    [lat_att], [alt_att] leaves behind. *)
Lemma construct_returns_state (log : list Msg) (uuid4 : string) (t : Table Unit)
    (frame : Val) (kwargs : list (string * Val)) (s' : LState) :
  "lon_att" ∉ map fst kwargs -> "lat_att" ∉ map fst kwargs ->
  "alt_att" ∉ map fst kwargs ->
  construct log uuid4 (Some t) frame kwargs = (s', inr tt) ->
  exists lon lat,
    table (self s') = Some t
    /\ trait (self s') "lon_att" = VStr lon /\ lon ∈ map cname t
    /\ trait (self s') "lat_att" = VStr lat
    /\ guess_or_column (snd (guess_lon_lat_columns (map cname t))) 1 (map cname t)
       = Some lat
    /\ trait (self s') "alt_att" = VStr "".
Proof.
  intros Hlon Hlat Halt. unfold construct, __init__.
  rewrite (bind_returns _ _ _ _ _ (init_defaults_eval log [] uuid4 t frame)).
  set (s4 := mkLState _ _ _).
  rewrite init_traits_unfold. destruct (unknown_key kwargs); [discriminate|].
  intros H. apply bind_inv in H as ([] & s5 & Hk & H).
  assert (Ht5 : table (self s5) = Some t).
  { pose proof (apply_kwargs_table kwargs s4) as E. now rewrite Hk in E. }
  assert (T5 : forall n, n ∉ map fst kwargs -> n <> "lon_unit" -> n <> "alt_unit" ->
                 trait (self s5) n = trait_default n).
  { intros n H1 H2 H3. pose proof (apply_kwargs_trait n kwargs s4 H1 H2 H3) as E.
    rewrite Hk in E. simpl in E. rewrite E. apply trait_unset. }
  unfold init_columns in H.
  rewrite (bind_returns _ _ _ _ _ (table_colnames_eval t s5 Ht5)) in H.
  destruct (guess_lon_lat_columns (map cname t)) as [lon_guess lat_guess].
  simpl snd.
  rewrite !bool_decide_eq_false_2 in H by assumption.
  apply bind_inv in H as ([] & s6 & Hl & H).
  apply bind_inv in Hl as (lon0 & s5' & Hp & Hl).
  rewrite (py_or_eval lon_guess 0 s5 t Ht5) in Hp.
  destruct (guess_or_column lon_guess 0 (map cname t)) as [lon|] eqn:Glon;
    [|discriminate].
  injection Hp as <- <-.
  pose proof (set_lon_att_stored lon s5 s6 Hl) as [L6 Ht6]. rewrite Ht5 in Ht6.
  assert (Hin : lon ∈ map cname t).
  { assert (Hold : trait (self s5) "lon_att" = VStr "")
      by (apply T5; [assumption | discriminate | discriminate]).
    destruct (set_lon_att_column lon s5 s6 t Hl Ht5 Hold) as [->|Hin]; auto.
    now apply (guess_or_column_in lon_guess 0). }
  assert (A6 : trait (self s6) "alt_att" = VStr "").
  { assert (Hs : stores_only ["lon_att"; "lon_unit"] (set_lon_att (VStr lon))).
    { apply stores_only_set_with; [apply list_elem_of_here|].
      apply stores_only_on_lon_att_change, list_elem_of_further, list_elem_of_here. }
    destruct (Hs s5) as (_ & _ & N). rewrite Hl in N. simpl in N.
    rewrite N.
    - apply T5; [assumption | discriminate | discriminate].
    - intros Hx. repeat (apply elem_of_cons in Hx as [Hx|Hx]; [discriminate|]).
      inversion Hx. }
  apply bind_inv in H as (lat0 & s6' & Hp & H).
  rewrite (py_or_eval lat_guess 1 s6 t Ht6) in Hp.
  destruct (guess_or_column lat_guess 1 (map cname t)) as [lat|] eqn:Glat;
    [|discriminate].
  injection Hp as <- <-.
  pose proof (set_lat_att_stored lat s6 s' H) as [L7 K7].
  assert (Hs : stores_only ["lat_att"] (setattr "lat_att" (VStr lat))).
  { change (setattr "lat_att" (VStr lat))
      with (set_with (ret tt) "lat_att" (VStr lat)).
    apply stores_only_set_with; [apply list_elem_of_here | stores_step]. }
  destruct (Hs s6) as (T7 & _ & N7). rewrite H in T7, N7. simpl in T7, N7.
  exists lon, lat. repeat split; try congruence.
  rewrite N7; [exact A6|].
  intros Hx. apply list_elem_of_singleton in Hx. discriminate.
Qed.

(** Round trip: after a construction that returns (with none of [lon_att],
    [lat_att], [alt_att] given as a keyword), [update_data] with the same
    table returns and leaves [lon_att], [lat_att] and [alt_att] as
    construction chose them. *)
Theorem update_data_same_table (log : list Msg) (uuid4 : string) (t : Table Unit)
    (frame : Val) (kwargs : list (string * Val)) (s' : LState) :
  "lon_att" ∉ map fst kwargs -> "lat_att" ∉ map fst kwargs ->
  "alt_att" ∉ map fst kwargs ->
  construct log uuid4 (Some t) frame kwargs = (s', inr tt) ->
  exists s'', update_data (Some t) s' = (s'', inr tt)
    /\ trait (self s'') "lon_att" = trait (self s') "lon_att"
    /\ trait (self s'') "lat_att" = trait (self s') "lat_att"
    /\ trait (self s'') "alt_att" = trait (self s') "alt_att".
Proof.
  intros Hlon Hlat Halt Hc.
  destruct (construct_returns_state log uuid4 t frame kwargs s' Hlon Hlat Halt Hc)
    as (lon & lat & Ht & L & Lin & La & Lg & A).
  destruct (update_data_stable t s' lon lat "" L Lin La (or_intror Lg) A
              (or_introl eq_refl)) as (s'' & -> & H1 & H2 & H3 & _).
  exists s''. rewrite L, La, A. auto.
Qed.

(** ** Detaching and attaching *)

Lemma list_remove_absent (x : nat) l : x ∉ l -> list_remove x l = l.
Proof.
  induction l as [|y r IH]; simpl; intros H; [reflexivity|].
  apply not_elem_of_cons in H as [Hne Hr].
  destruct (decide (x = y)); [contradiction|]. now rewrite IH.
Qed.

Lemma list_remove_NoDup (x : nat) l :
  NoDup l -> list_remove x l = filter (fun y => y <> x) l.
Proof.
  induction 1 as [|y r Hy Hnd IH]; simpl; [reflexivity|].
  rewrite filter_cons. destruct (decide (x = y)) as [->|Hne].
  - rewrite decide_False by (intros H; now apply H).
    rewrite <- IH. symmetry. now apply list_remove_absent.
  - rewrite decide_True by congruence. now rewrite IH.
Qed.

(** [remove] on a live layer that is in its manager's list (a list without
    repetition) returns; it sends the one remove message, sets the flag, and
    takes the layer out of the list, the other layers staying in order.
    [remove_layer] on the manager has the very same effect. *)
Theorem remove_detaches (d : nat) (w : World) (m layer : nat) (L : TableLayer) :
  layers w !! layer = Some L -> _removed L = false -> _manager L = Some m ->
  layer ∈ _layers w m -> NoDup (_layers w m) ->
  exists w',
    remove (S (S d)) layer w = (w', inr tt)
    /\ remove_layer (S (S (S d))) m layer w = (w', inr tt)
    /\ _layers w' m = filter (fun l => l <> layer) (_layers w m)
    /\ (layer ∉ _layers w' m)
    /\ (forall m', m' <> m -> _layers w' m' = _layers w m')
    /\ wire w' = wire w ++ [table_layer_remove (id L)]
    /\ layers w' = <[layer := set_removed true L]> (layers w).
Proof.
  intros HL Hr Hm Hin Hnd.
  set (w' := set_layers m (list_remove layer (_layers w m)) (marked layer L w)).
  assert (Hrm : forall d0, remove (S (S d0)) layer w = (w', inr tt)).
  { intros d0. rewrite (remove_live (S d0) layer L) by assumption.
    rewrite Hm, remove_layer_marked. now rewrite bool_decide_eq_true_2. }
  assert (Hl : _layers w' m = filter (fun l => l <> layer) (_layers w m)).
  { unfold w'. rewrite layers_set_layers.
    destruct (decide (m = m)); [|congruence]. now apply list_remove_NoDup. }
  assert (Hout : layer ∉ _layers w' m).
  { rewrite Hl. intros H. apply list_elem_of_filter in H as [H _]. now apply H. }
  exists w'. split; [apply Hrm|]. split.
  - unfold remove_layer, remove_layer_with, bind, gets, modify, ret.
    rewrite bool_decide_eq_true_2 by assumption.
    rewrite (Hrm (S d)).
    now rewrite bool_decide_eq_false_2.
  - repeat split; auto.
    intros m' Hne. unfold w'. rewrite layers_set_layers.
    destruct (decide (m = m')); [congruence | reflexivity].
Qed.

Lemma getitem_last (w : World) (m : nat) (ls : list nat) (layer : nat) :
  _layers w m = ls ++ [layer] -> __getitem__ w m (-1) = inr layer.
Proof.
  intros H. unfold __getitem__. rewrite H, length_app. simpl length.
  change (-1 <? 0)%Z with true. cbv zeta.
  replace (-1 + Z.of_nat (length ls + 1))%Z with (Z.of_nat (length ls)) by lia.
  rewrite (proj2 (Z.ltb_ge _ _)) by lia.
  rewrite (proj2 (Z.leb_gt _ _)) by lia.
  simpl orb. cbv iota. rewrite Nat2Z.id.
  now rewrite list_lookup_middle.
Qed.

Lemma getitem_front (w w' : World) (m : nat) (extra : list nat) (i : nat) :
  _layers w' m = _layers w m ++ extra -> i < length (_layers w m) ->
  __getitem__ w' m (Z.of_nat i) = __getitem__ w m (Z.of_nat i).
Proof.
  intros H Hi. unfold __getitem__. rewrite H, length_app. cbv zeta.
  rewrite (proj2 (Z.ltb_ge (Z.of_nat i) 0)) by lia.
  rewrite !(proj2 (Z.leb_gt _ (Z.of_nat i))) by lia.
  simpl orb. cbv iota. rewrite Nat2Z.id.
  now rewrite lookup_app_l.
Qed.

Lemma apply_kwargs_id (kwargs : list (string * Val)) s :
  id (self (fst (apply_kwargs kwargs s))) = id (self s).
Proof.
  revert s. induction kwargs as [|[key value] rest IH]; intros s; [reflexivity|].
  simpl. unfold bind.
  pose proof (stores_only_setattr key value s) as (_ & Hi & _).
  destruct (setattr key value s) as [s1 [e|[]]]; simpl in *; [exact Hi|].
  now rewrite IH.
Qed.

Lemma stores_only_init_columns (kwargs : list (string * Val)) :
  stores_only ["lon_att"; "lon_unit"; "lat_att"] (init_columns kwargs).
Proof.
  unfold init_columns.
  stores_step; [apply stores_only_table_colnames|].
  destruct (guess_lon_lat_columns _) as [lon_guess lat_guess].
  stores_step.
  - case_bool_decide; [stores_step|].
    stores_step; [apply stores_only_py_or, stores_only_colname_at|].
    apply stores_only_set_with; [apply list_elem_of_here|].
    apply stores_only_on_lon_att_change, list_elem_of_further, list_elem_of_here.
  - case_bool_decide; [stores_step|].
    stores_step; [apply stores_only_py_or, stores_only_colname_at|].
    match goal with
    | |- stores_only _ (setattr "lat_att" ?v) =>
        change (setattr "lat_att" v) with (set_with (ret tt) "lat_att" v)
    end.
    apply stores_only_set_with; [|stores_step].
    apply list_elem_of_further, list_elem_of_further, list_elem_of_here.
Qed.

(** Whatever construction does, the layer keeps the id it was given. *)
Lemma construct_id (log : list Msg) (uuid4 : string) (t : Table Unit)
    (frame : Val) (kwargs : list (string * Val)) :
  id (self (fst (construct log uuid4 (Some t) frame kwargs))) = uuid4.
Proof.
  unfold construct, __init__.
  rewrite (bind_returns _ _ _ _ _ (init_defaults_eval log [] uuid4 t frame)).
  set (s4 := mkLState _ _ _).
  rewrite init_traits_unfold. destruct (unknown_key kwargs); [reflexivity|].
  unfold bind. pose proof (apply_kwargs_id kwargs s4) as Hk.
  destruct (apply_kwargs kwargs s4) as [s5 [e|[]]]; simpl in Hk; [exact Hk|].
  destruct (stores_only_init_columns kwargs s5) as (_ & Hi & _).
  now rewrite Hi.
Qed.

(** [add_data_layer] without a table raises [ValueError] and changes
    nothing.  With a table: when construction raises, the same exception
    comes out, no layer is added to any manager or to the heap, and the
    parent keeps the messages construction sent; when construction returns,
    the new layer is returned, it is last in the manager's list (the others
    keep their places), it is what [manager[-1]] gives, its [_manager] is
    the manager and its id the one generated. *)
Theorem add_data_layer_appends (w : World) (m : nat) (uuid4 : string)
    (table : option (Table Unit)) (frame : Val) (kwargs : list (string * Val)) :
  (forall r, r ∈ _layers w m -> is_Some (layers w !! r)) ->
  match table with
  | None =>
      add_data_layer m uuid4 None frame kwargs w
      = (w, inl (ValueError "The table argument is required"))
  | Some t =>
      match construct (wire w) uuid4 (Some t) frame kwargs with
      | (s, inl e) =>
          exists w',
            add_data_layer m uuid4 (Some t) frame kwargs w = (w', inl e)
            /\ layers w' = layers w /\ managers w' = managers w
            /\ wire w' = sent s
      | (s, inr _) =>
          exists w' layer L,
            add_data_layer m uuid4 (Some t) frame kwargs w = (w', inr layer)
            /\ layers w !! layer = None
            /\ layers w' !! layer = Some L
            /\ _manager L = Some m /\ id L = uuid4
            /\ _layers w' m = _layers w m ++ [layer]
            /\ __len__ w' m = S (__len__ w m)
            /\ __getitem__ w' m (-1) = inr layer
            /\ (forall i, i < __len__ w m ->
                  __getitem__ w' m (Z.of_nat i) = __getitem__ w m (Z.of_nat i))
            /\ wire w' = sent s
      end
  end.
Proof.
  intros Hlive. destruct table as [t|]; [|reflexivity].
  destruct (construct (wire w) uuid4 (Some t) frame kwargs) as [s [e|[]]] eqn:Hc.
  - eexists. unfold add_data_layer, bind, TableLayer_new. rewrite Hc.
    split; [reflexivity|]. auto.
  - set (layer := fresh (dom (layers w))).
    set (w1 := mkWorld (<[layer := self s]> (layers w)) (managers w)
                       (sent s) (warnings w ++ warned s)).
    assert (Hnew : TableLayer_new uuid4 (Some t) frame kwargs w = (w1, inr layer)).
    { unfold TableLayer_new. now rewrite Hc. }
    assert (Hfresh : layers w !! layer = None) by apply fresh_layer_unused.
    assert (Hout : layer ∉ _layers w1 m).
    { intros H. destruct (Hlive layer H) as [L HL]. congruence. }
    assert (Hadd := add_layer_absent m layer (self s) w1
                      (lookup_insert_eq _ _ _) Hout).
    assert (Hid : id (self s) = uuid4).
    { pose proof (construct_id (wire w) uuid4 t frame kwargs) as Hi.
      now rewrite Hc in Hi. }
    eexists _, layer, (set_manager (Some m) (self s)).
    unfold add_data_layer. rewrite (bind_returns _ _ _ _ _ Hnew).
    rewrite (bind_returns _ _ _ _ _ Hadd). unfold ret.
    split; [reflexivity|]. split; [exact Hfresh|].
    split; [simpl; apply lookup_insert_eq|].
    split; [reflexivity|]. split; [exact Hid|].
    assert (Hls : _layers
                    (mkWorld (<[layer := set_manager (Some m) (self s)]> (layers w1))
                       (<[m := _layers w1 m ++ [layer]]> (managers w1))
                       (wire w1) (warnings w1)) m
                  = _layers w m ++ [layer]).
    { unfold _layers at 1. simpl. now rewrite lookup_insert_eq. }
    split; [exact Hls|].
    split; [unfold __len__; rewrite Hls, length_app; simpl; lia|].
    split; [now apply (getitem_last _ _ (_layers w m))|].
    split; [|reflexivity].
    intros i Hi. now apply (getitem_front w _ m [layer]).
Qed.

(** ** The text of a table *)

Lemma encode_ascii_replace_isascii s : isascii (encode_ascii_replace s) = true.
Proof.
  induction s as [|c r IH]; simpl; [reflexivity|].
  rewrite IH, andb_true_r.
  destruct (nat_of_ascii c <? 128)%nat eqn:E; [exact E | reflexivity].
Qed.

Lemma encode_ascii_replace_length s :
  String.length (encode_ascii_replace s) = String.length s.
Proof. induction s; simpl; congruence. Qed.

Lemma encode_ascii_replace_eqb c x :
  (nat_of_ascii x <? 128)%nat = true ->
  Ascii.eqb (if (nat_of_ascii c <? 128)%nat then c else "?"%char) x
  = Ascii.eqb c x || (negb (nat_of_ascii c <? 128)%nat && Ascii.eqb "?"%char x).
Proof.
  intros Hx. destruct (nat_of_ascii c <? 128)%nat eqn:E; simpl.
  - now rewrite orb_false_r.
  - destruct (Ascii.eqb_spec c x) as [->|_]; [congruence | reflexivity].
Qed.

Lemma encode_ascii_replace_lf prev s :
  lf_after_cr prev (encode_ascii_replace s) = lf_after_cr prev s.
Proof.
  revert prev. induction s as [|c r IH]; intros prev; simpl; [reflexivity|].
  rewrite !encode_ascii_replace_eqb by reflexivity.
  change (Ascii.eqb "?" "010") with false. change (Ascii.eqb "?" "013") with false.
  rewrite !andb_false_r, !orb_false_r. now rewrite IH.
Qed.

Lemma crlf_lf prev s : lf_after_cr prev (crlf s) = true.
Proof.
  revert prev. induction s as [|c r IH]; intros prev; simpl; [reflexivity|].
  destruct (Ascii.eqb_spec c "010") as [->|Hne]; simpl.
  - apply IH.
  - apply Ascii.eqb_neq in Hne. rewrite Hne. simpl. apply IH.
Qed.

Lemma crlf_length s :
  String.length (crlf s) = String.length s + count_char "010" s.
Proof.
  induction s as [|c r IH]; simpl; [reflexivity|].
  destruct (Ascii.eqb c "010"); simpl; rewrite IH; lia.
Qed.

Lemma crlf_count_cr s :
  count_char "013" (crlf s) = count_char "013" s + count_char "010" s.
Proof.
  induction s as [|c r IH]; simpl; [reflexivity|].
  destruct (Ascii.eqb_spec c "010") as [->|Hne]; simpl.
  - rewrite IH. lia.
  - rewrite IH. destruct (Ascii.eqb c "013"); lia.
Qed.

(** For a layer with a table, [_table_b64] returns without touching the
    state, and what it encodes in base 64 is plain ASCII in which every line
    feed follows a carriage return.  Each line feed of the table's text gets
    its carriage return whether or not it had one: the text grows by one
    character per line feed, and so does its number of carriage returns. *)
Theorem table_b64_text (s : LState) (t : Table Unit) :
  table (self s) = Some t ->
  exists text,
    _table_b64 s = (s, inr (Base64.b64encode text))
    /\ text = encode_ascii_replace (crlf (table_write t))
    /\ isascii text = true
    /\ lf_after_cr false text = true
    /\ String.length text
       = String.length (table_write t) + count_char "010" (table_write t)
    /\ count_char "013" (crlf (table_write t))
       = count_char "013" (table_write t) + count_char "010" (table_write t).
Proof.
  intros Ht. eexists. split.
  { unfold _table_b64, bind, gets, ret. rewrite Ht. reflexivity. }
  split; [reflexivity|].
  split; [apply encode_ascii_replace_isascii|].
  split; [rewrite encode_ascii_replace_lf; apply crlf_lf|].
  split; [rewrite encode_ascii_replace_length; apply crlf_length|].
  apply crlf_count_cr.
Qed.

(** ** Base 64 *)

Lemma sextet_table :
  forallb (fun j => N.eqb (unsextet (Base64.sextet j)) j
                    && negb (Ascii.eqb (Base64.sextet j) "="%char))
          (map N.of_nat (seq 0 64)) = true.
Proof. vm_compute. reflexivity. Qed.

Lemma sextet_spec (k : N) :
  unsextet (Base64.sextet k) = (k mod 64)%N
  /\ Ascii.eqb (Base64.sextet k) "="%char = false.
Proof.
  assert (Hk : Base64.sextet k = Base64.sextet (k mod 64)).
  { unfold Base64.sextet. now rewrite N.Div0.mod_mod. }
  rewrite Hk.
  pose proof sextet_table as H. rewrite forallb_forall in H.
  specialize (H (k mod 64)%N).
  assert (Hin : In (k mod 64)%N (map N.of_nat (seq 0 64))).
  { apply in_map_iff. exists (N.to_nat (k mod 64)). split; [apply N2Nat.id|].
    apply in_seq.
    assert (H64 : (k mod 64 < 64)%N) by (apply N.mod_upper_bound; discriminate).
    revert H64. generalize (k mod 64)%N. intros n H64. lia. }
  specialize (H Hin). apply andb_true_iff in H as [H1 H2].
  apply N.eqb_eq in H1. apply negb_true_iff in H2. auto.
Qed.

Lemma list_ind3 (P : list N -> Prop) :
  P [] -> (forall a, P [a]) -> (forall a b, P [a; b]) ->
  (forall a b c r, P r -> P (a :: b :: c :: r)) ->
  forall l, P l.
Proof.
  intros H0 H1 H2 H3 l.
  assert (H : P l /\ (forall a, P (a :: l)) /\ (forall a b, P (a :: b :: l))).
  { induction l as [|x l (IH0 & IH1 & IH2)]; [auto|].
    split; [apply IH1|]. split; [intros a; apply IH2|]. intros a b. now apply H3. }
  apply H.
Qed.

Lemma b64_decode_encode (bytes : list N) :
  Forall (fun b => (b < 256)%N) bytes ->
  b64_decode (Base64.encode bytes) = bytes.
Proof.
  induction bytes as [|a|a b|a b c r IH] using list_ind3; intros HF.
  - reflexivity.
  - apply Forall_cons in HF as [Ha _].
    cbn [Base64.encode b64_decode].
    change (Ascii.eqb "=" "=") with true. cbv iota zeta.
    destruct (sextet_spec (a * 65536 / 262144)) as [-> _].
    destruct (sextet_spec (a * 65536 / 4096)) as [-> _].
    change (unsextet "=") with 0%N.
    f_equal. zify. Z.to_euclidean_division_equations. lia.
  - apply Forall_cons in HF as [Ha HF]. apply Forall_cons in HF as [Hb _].
    cbn [Base64.encode b64_decode].
    change (Ascii.eqb "=" "=") with true.
    destruct (sextet_spec ((a * 65536 + b * 256) / 64)) as [E3 ->].
    cbv iota zeta. rewrite E3.
    destruct (sextet_spec ((a * 65536 + b * 256) / 262144)) as [-> _].
    destruct (sextet_spec ((a * 65536 + b * 256) / 4096)) as [-> _].
    change (unsextet "=") with 0%N.
    f_equal; [|f_equal]; zify; Z.to_euclidean_division_equations; lia.
  - apply Forall_cons in HF as [Ha HF]. apply Forall_cons in HF as [Hb HF].
    apply Forall_cons in HF as [Hc HF].
    cbn [Base64.encode b64_decode].
    destruct (sextet_spec (a * 65536 + b * 256 + c)) as [E4 ->].
    cbv iota zeta. rewrite E4.
    destruct (sextet_spec ((a * 65536 + b * 256 + c) / 262144)) as [-> _].
    destruct (sextet_spec ((a * 65536 + b * 256 + c) / 4096)) as [-> _].
    destruct (sextet_spec ((a * 65536 + b * 256 + c) / 64)) as [-> _].
    rewrite (IH HF).
    f_equal; [|f_equal; [|f_equal]]; zify; Z.to_euclidean_division_equations; lia.
Qed.

Lemma N_of_ascii_bound c : (N_of_ascii c < 256)%N.
Proof. destruct c as [[] [] [] [] [] [] [] []]; vm_compute; reflexivity. Qed.

(** Decoding what [b64encode] gives returns the text, for every text: the
    table field of a create or update message decodes to the table's text
    as [_table_b64] prepared it. *)
Theorem b64decode_b64encode (text : string) :
  b64decode (Base64.b64encode text) = text.
Proof.
  unfold b64decode, Base64.b64encode.
  rewrite b64_decode_encode.
  - rewrite map_map.
    rewrite (map_ext _ (fun c => c)) by apply ascii_N_embedding.
    rewrite map_id. apply string_of_list_ascii_of_string.
  - apply Forall_forall. intros b Hb.
    apply list_elem_of_In, in_map_iff in Hb as (c & <- & _).
    apply N_of_ascii_bound.
Qed.

(** ** Relations every assignment respects *)

Section Respects.
Variable R : LState -> LState -> Prop.
Hypothesis R_refl : forall s, R s s.
Hypothesis R_trans : forall s1 s2 s3, R s1 s2 -> R s2 s3 -> R s1 s3.
Hypothesis R_store : forall name v s, R s (with_self (store_trait name v) s).
Hypothesis R_warn : forall w s, R s (mkLState (self s) (sent s) (warned s ++ [w])).
Hypothesis R_set : forall w v s,
  R s (mkLState (self s) (sent s ++ [table_layer_set (id (self s)) w v]) (warned s)).

Lemma respects_pure {A} (m : M LState A) :
  (forall s, fst (m s) = s) -> respects R m.
Proof. intros H s. rewrite H. apply R_refl. Qed.

Lemma respects_bind {A B} (m : M LState A) (k : A -> M LState B) :
  respects R m -> (forall a, respects R (k a)) -> respects R (bind m k).
Proof.
  intros Hm Hk s. unfold bind. pose proof (Hm s) as H1.
  destruct (m s) as [s1 [e|a]]; simpl in *; [exact H1|].
  eapply R_trans; [exact H1 | apply Hk].
Qed.

Ltac respects_step :=
  first
    [ apply respects_pure; reflexivity
    | apply respects_bind; [|intros ?] ].

Lemma respects_listener name new : respects R (_on_trait_change name new).
Proof.
  unfold _on_trait_change. destruct (trait_metadata name); [|respects_step].
  respects_step.
  - destruct (String.eqb name "alt_unit"); [|destruct (String.eqb name "lon_unit")];
      repeat respects_step;
      match goal with |- context [dict_get ?u0 ?d] => destruct (dict_get u0 d) end;
      respects_step.
  - intros s0. apply R_set.
Qed.

Lemma respects_set_with observer name value :
  respects R observer -> respects R (set_with observer name value).
Proof.
  intros Ho. unfold set_with. repeat respects_step.
  - intros s0. apply R_store.
  - destruct (py_eq _ _); [respects_step|].
    respects_step; [exact Ho | apply respects_listener].
Qed.

Lemma respects_table_column name : respects R (table_column name).
Proof.
  unfold table_column. repeat respects_step.
  destruct (table _); [|respects_step]. destruct (find _ _); respects_step.
Qed.

Lemma respects_table_colnames : respects R table_colnames.
Proof. unfold table_colnames. repeat respects_step. destruct (table _); respects_step. Qed.

Lemma respects_trait_str name : respects R (trait_str name).
Proof. unfold trait_str. repeat respects_step. destruct (trait _ _); respects_step. Qed.

Lemma respects_py_or guess i : respects R (py_or guess (colname_at i)).
Proof.
  assert (Hc : respects R (colname_at i)).
  { unfold colname_at. respects_step; [apply respects_table_colnames|].
    destruct (_ !! _); respects_step. }
  unfold py_or. destruct guess as [g|]; [|exact Hc].
  destruct (String.length g =? 0)%nat; [exact Hc | respects_step].
Qed.

Lemma respects_on_alt_att_change : respects R _on_alt_att_change.
Proof.
  unfold _on_alt_att_change. respects_step; [apply respects_trait_str|].
  destruct (String.length _ =? 0)%nat; [respects_step|].
  respects_step; [apply respects_table_column|].
  destruct (pick_unit_if_available _ _) as [unit|]; [|respects_step].
  destruct (in_dict _ _); [apply respects_set_with; respects_step|].
  intros s0. apply R_warn.
Qed.

Lemma respects_on_lon_att_change : respects R _on_lon_att_change.
Proof.
  unfold _on_lon_att_change. respects_step; [apply respects_trait_str|].
  destruct (String.length _ =? 0)%nat; [respects_step|].
  respects_step; [apply respects_table_column|].
  destruct (pick_unit_if_available _ _) as [unit|]; [|respects_step].
  destruct (in_dict _ _); [apply respects_set_with; respects_step|].
  intros s0. apply R_warn.
Qed.

Lemma respects_setattr name value : respects R (setattr name value).
Proof.
  unfold setattr, set_alt_att, set_lon_att.
  destruct (String.eqb name "alt_att"); [|destruct (String.eqb name "lon_att")];
    apply respects_set_with;
    first [ apply respects_on_alt_att_change
          | apply respects_on_lon_att_change
          | respects_step ].
Qed.

Lemma respects_apply_kwargs (kwargs : list (string * Val)) :
  respects R (apply_kwargs kwargs).
Proof.
  induction kwargs as [|[key value] rest IH]; simpl; [respects_step|].
  respects_step; [apply respects_setattr | exact IH].
Qed.

Lemma respects_init_traits (kwargs : list (string * Val)) :
  respects R (init_traits kwargs).
Proof.
  unfold init_traits. destruct (unknown_key kwargs); [respects_step|].
  respects_step; [apply respects_apply_kwargs|].
  respects_step; [apply respects_table_colnames|].
  destruct (guess_lon_lat_columns _) as [lon_guess lat_guess].
  respects_step.
  - case_bool_decide; [respects_step|].
    respects_step; [apply respects_py_or|].
    apply respects_set_with, respects_on_lon_att_change.
  - case_bool_decide; [respects_step|].
    respects_step; [apply respects_py_or | apply respects_setattr].
Qed.

Lemma respects_update_columns :
  respects R (bind update_alt (fun _ => update_lon_lat)).
Proof.
  respects_step.
  - unfold update_alt. respects_step; [apply respects_trait_str|].
    destruct (0 <? _)%nat; [|respects_step].
    respects_step; [apply respects_table_colnames|].
    case_bool_decide; [apply respects_on_alt_att_change|].
    apply respects_set_with, respects_on_alt_att_change.
  - unfold update_lon_lat. respects_step; [apply respects_table_colnames|].
    destruct (guess_lon_lat_columns _) as [lon_guess lat_guess].
    respects_step; [apply respects_trait_str|].
    respects_step.
    + case_bool_decide; [apply respects_on_lon_att_change|].
      respects_step; [apply respects_py_or|].
      apply respects_set_with, respects_on_lon_att_change.
    + respects_step; [apply respects_trait_str|].
      case_bool_decide; [respects_step|].
      respects_step; [apply respects_py_or | apply respects_setattr].
Qed.

End Respects.

Lemma same_object_trans s1 s2 s3 :
  same_object s1 s2 -> same_object s2 s3 -> same_object s1 s3.
Proof. unfold same_object. intuition congruence. Qed.

Lemma sends_own_id_trans s1 s2 s3 :
  sends_own_id s1 s2 -> sends_own_id s2 s3 -> sends_own_id s1 s3.
Proof.
  intros (I1 & e1 & E1 & F1) (I2 & e2 & E2 & F2). split; [congruence|].
  exists (e1 ++ e2). split; [now rewrite E2, E1, app_assoc|].
  apply Forall_app. split; [exact F1|]. now rewrite <- I1.
Qed.

Lemma sends_own_id_refl s : sends_own_id s s.
Proof. split; [reflexivity|]. exists []. now rewrite app_nil_r. Qed.

Lemma sends_own_id_one s x :
  msg_id x = id (self s) ->
  sends_own_id s (mkLState (self s) (sent s ++ [x]) (warned s)).
Proof. intros H. split; [reflexivity|]. exists [x]. auto. Qed.

(** Every message a layer sends carries the layer's id, and the id never
    changes: this holds for construction over a table (the id is the one
    generated), for every assignment of a trait and for [update_data],
    whether they return or raise. *)
Theorem messages_carry_own_id :
  (forall log uuid4 t frame kwargs,
     id (self (fst (construct log uuid4 (Some t) frame kwargs))) = uuid4
     /\ exists extra,
          sent (fst (construct log uuid4 (Some t) frame kwargs)) = log ++ extra
          /\ Forall (fun x => msg_id x = uuid4) extra)
  /\ (forall name value s, sends_own_id s (fst (setattr name value s)))
  /\ (forall t s, sends_own_id s (fst (update_data (Some t) s))).
Proof.
  assert (Hw : forall w s, sends_own_id s (mkLState (self s) (sent s) (warned s ++ [w]))).
  { intros w s. split; [reflexivity|]. exists []. now rewrite app_nil_r. }
  assert (Hst : forall name v s, sends_own_id s (with_self (store_trait name v) s)).
  { intros name v s. split; [reflexivity|]. exists []. simpl. now rewrite app_nil_r. }
  assert (Hset : forall w v s,
             sends_own_id s (mkLState (self s)
                               (sent s ++ [table_layer_set (id (self s)) w v])
                               (warned s))).
  { intros w v s. now apply sends_own_id_one. }
  split; [|split].
  - intros log uuid4 t frame kwargs. unfold construct, __init__.
    rewrite (bind_returns _ _ _ _ _ (init_defaults_eval log [] uuid4 t frame)).
    set (s4 := mkLState _ _ _).
    destruct (respects_init_traits sends_own_id sends_own_id_refl
                sends_own_id_trans Hst Hw Hset kwargs s4) as (Hi & extra & E & F).
    split; [exact Hi|].
    exists (default_messages uuid4 t frame ++ extra).
    rewrite E. unfold s4. cbn [sent]. rewrite <- app_assoc.
    split; [reflexivity|].
    apply Forall_app. split; [|exact F].
    unfold default_messages. repeat constructor.
  - intros name value s.
    apply (respects_setattr sends_own_id sends_own_id_refl sends_own_id_trans
             Hst Hw Hset).
  - intros t s. rewrite update_data_eval.
    eapply sends_own_id_trans;
      [|apply (respects_update_columns sends_own_id sends_own_id_refl
                 sends_own_id_trans Hst Hw Hset)].
    split; [reflexivity|]. eexists [_]. split; [reflexivity|].
    repeat constructor.
Qed.

(** Construction over a table, whether it returns or raises, leaves a layer
    that is not removed, has no manager, and holds the table and the frame
    it was given. *)
Lemma construct_object (log : list Msg) (uuid4 : string) (t : Table Unit)
    (fr : Val) (kwargs : list (string * Val)) :
  let L := self (fst (construct log uuid4 (Some t) fr kwargs)) in
  table L = Some t /\ frame L = fr /\ id L = uuid4
  /\ _manager L = None /\ _removed L = false.
Proof.
  unfold construct, __init__.
  rewrite (bind_returns _ _ _ _ _ (init_defaults_eval log [] uuid4 t fr)).
  set (s4 := mkLState _ _ _).
  assert (H : same_object s4 (fst (init_traits kwargs s4))).
  { apply respects_init_traits.
    - intros s. unfold same_object. auto.
    - apply same_object_trans.
    - intros name v s. unfold same_object. auto.
    - intros w s. unfold same_object. auto.
    - intros w v s. unfold same_object. auto. }
  destruct H as (H1 & H2 & H3 & H4 & H5). cbv zeta.
  rewrite H1, H2, H3, H4, H5. auto.
Qed.

(** ** Columns the new table does not have *)

Lemma update_alt_total s alt t :
  trait (self s) "alt_att" = VStr alt -> table (self s) = Some t ->
  exists s', update_alt s = (s', inr tt)
    /\ table (self s') = Some t
    /\ forall n, n <> "alt_unit" -> n <> "alt_att" ->
         trait (self s') n = trait (self s) n.
Proof.
  intros Ha Ht.
  destruct (String.eqb_spec alt "") as [->|Hne].
  { destruct (update_alt_returns s "" t Ha Ht (or_introl eq_refl))
      as (s' & H & T & N).
    exists s'. auto. }
  destruct (decide (alt ∈ map cname t)) as [Hin|Hout].
  { destruct (update_alt_returns s alt t Ha Ht (or_intror Hin))
      as (s' & H & T & N).
    exists s'. auto. }
  unfold update_alt.
  rewrite (bind_returns _ _ _ _ _ (trait_str_eval "alt_att" alt s Ha)).
  assert (E : (0 <? String.length alt)%nat = true)
    by (destruct alt; [contradiction | reflexivity]).
  rewrite E.
  rewrite (bind_returns _ _ _ _ _ (table_colnames_eval t s Ht)).
  rewrite bool_decide_eq_false_2 by assumption.
  unfold set_alt_att.
  rewrite (set_with_valid _ _ _ (VStr "")) by reflexivity.
  rewrite Ha.
  assert (Ep : py_eq (VStr alt) (VStr "") = false).
  { simpl. apply String.eqb_neq. exact Hne. }
  rewrite Ep.
  rewrite (bind_returns _ _ _ _ tt
             (on_alt_att_change_empty
                (with_self (store_trait "alt_att" (VStr "")) s)
                (trait_store_same "alt_att" (VStr "") (self s)))).
  rewrite (listener_plain "alt_att" "altColumn") by reflexivity.
  eexists. split; [reflexivity|]. simpl. split; [exact Ht|].
  intros n _ Hn. apply trait_store_other. congruence.
Qed.

(** When [update_data] over a table returns: a [lon_att] that names no
    column of the new table has been replaced by the guessed longitude
    column or, without a guess, by the table's first column; a [lat_att]
    that names no column has been replaced by the guessed latitude column
    or the table's second column. *)
Theorem update_data_replaces_columns (t : Table Unit) (s s' : LState)
    (lon lat alt : string) :
  trait (self s) "lon_att" = VStr lon -> trait (self s) "lat_att" = VStr lat ->
  trait (self s) "alt_att" = VStr alt ->
  update_data (Some t) s = (s', inr tt) ->
  (lon ∉ map cname t ->
   exists v,
     guess_or_column (fst (guess_lon_lat_columns (map cname t))) 0 (map cname t)
     = Some v
     /\ trait (self s') "lon_att" = VStr v)
  /\ (lat ∉ map cname t ->
      exists v,
        guess_or_column (snd (guess_lon_lat_columns (map cname t))) 1 (map cname t)
        = Some v
        /\ trait (self s') "lat_att" = VStr v).
Proof.
  intros Hlon Hlat Halt. rewrite update_data_eval.
  destruct (update_alt_total (updated t s) alt t Halt eq_refl)
    as (s1 & H1 & Ht1 & N1).
  rewrite (bind_returns _ _ _ _ _ H1).
  assert (Hlon1 : trait (self s1) "lon_att" = VStr lon)
    by (rewrite N1 by discriminate; exact Hlon).
  assert (Hlat1 : trait (self s1) "lat_att" = VStr lat)
    by (rewrite N1 by discriminate; exact Hlat).
  unfold update_lon_lat.
  rewrite (bind_returns _ _ _ _ _ (table_colnames_eval t s1 Ht1)).
  destruct (guess_lon_lat_columns (map cname t)) as [lon_guess lat_guess].
  simpl fst. simpl snd.
  rewrite (bind_returns _ _ _ _ _ (trait_str_eval "lon_att" lon s1 Hlon1)).
  case_bool_decide as Hin.
  - destruct (on_lon_att_change_returns s1 lon t Hlon1 Ht1 (or_intror Hin))
      as (s2 & H2 & Ht2 & N2).
    rewrite (bind_returns _ _ _ _ _ H2).
    assert (Hlat2 : trait (self s2) "lat_att" = VStr lat)
      by (rewrite N2 by discriminate; exact Hlat1).
    rewrite (bind_returns _ _ _ _ _ (trait_str_eval "lat_att" lat s2 Hlat2)).
    case_bool_decide as Hin'.
    + intros _. split; intros; contradiction.
    + unfold bind at 1. rewrite (py_or_eval lat_guess 1 s2 t Ht2).
      destruct (guess_or_column lat_guess 1 (map cname t)) as [v|]; [|discriminate].
      intros H. apply set_lat_att_stored in H as [H _].
      split; [intros; contradiction | eauto].
  - unfold bind at 1. unfold bind at 1.
    rewrite (py_or_eval lon_guess 0 s1 t Ht1).
    destruct (guess_or_column lon_guess 0 (map cname t)) as [v|]; [|discriminate].
    destruct (set_lon_att (VStr v) s1) as [s2 [e|[]]] eqn:Hset; [discriminate|].
    pose proof (stores_only_setattr "lon_att" (VStr v) s1) as (_ & _ & N2).
    change (setattr "lon_att" (VStr v)) with (set_lon_att (VStr v)) in N2.
    rewrite Hset in N2. simpl in N2.
    apply set_lon_att_stored in Hset as [Hl Ht2]. rewrite Ht1 in Ht2.
    assert (Hlat2 : trait (self s2) "lat_att" = VStr lat).
    { rewrite N2; [exact Hlat1|]. intros H.
      repeat (apply elem_of_cons in H as [H|H]; [discriminate|]). inversion H. }
    rewrite (bind_returns _ _ _ _ _ (trait_str_eval "lat_att" lat s2 Hlat2)).
    case_bool_decide as Hin'.
    + intros [= <-]. split; [eauto | intros; contradiction].
    + unfold bind at 1. rewrite (py_or_eval lat_guess 1 s2 t Ht2).
      destruct (guess_or_column lat_guess 1 (map cname t)) as [v'|]; [|discriminate].
      intros H. apply set_lat_att_stored in H as [H Hk].
      split; intros _; [exists v; rewrite Hk | exists v']; auto.
Qed.

(** A table with no columns.  [update_data] stores it, sends its message
    and raises [IndexError] (there is no first column to fall back on);
    construction over it without a [lon_att] keyword never returns, and
    without any keyword raises [IndexError] once the four messages of
    creation are sent. *)
Theorem empty_table_raises (s : LState) (lon alt : string)
    (log : list Msg) (uuid4 : string) (frame : Val) (kwargs : list (string * Val)) :
  trait (self s) "lon_att" = VStr lon -> trait (self s) "alt_att" = VStr alt ->
  "lon_att" ∉ map fst kwargs ->
  (exists s', update_data (Some []) s = (s', inl IndexError)
     /\ table (self s') = Some []
     /\ exists rest,
          sent s'
          = sent s
            ++ table_layer_update (id (self s))
                 (Base64.b64encode (encode_ascii_replace (crlf (table_write []))))
               :: rest)
  /\ (exists e, snd (construct log uuid4 (Some []) frame kwargs) = inl e)
  /\ (exists s', construct log uuid4 (Some []) frame [] = (s', inl IndexError)
        /\ sent s' = log ++ default_messages uuid4 [] frame).
Proof.
  intros Hlon Halt Hk. split; [|split].
  - rewrite update_data_eval.
    destruct (update_alt_total (updated [] s) alt [] Halt eq_refl)
      as (s1 & H1 & Ht1 & N1).
    rewrite (bind_returns _ _ _ _ _ H1).
    assert (Hlon1 : trait (self s1) "lon_att" = VStr lon)
      by (rewrite N1 by discriminate; exact Hlon).
    assert (Hs : sends_only (fun _ => true) update_alt).
    { apply sets_update_alt. reflexivity. }
    destruct (Hs (updated [] s)) as (rest & E & _).
    rewrite H1 in E. simpl in E.
    exists s1. split; [|split; [exact Ht1|]].
    + unfold update_lon_lat.
      rewrite (bind_returns _ _ _ _ _ (table_colnames_eval [] s1 Ht1)).
      change (guess_lon_lat_columns (map cname [])) with (@None string, @None string).
      cbv iota beta.
      rewrite (bind_returns _ _ _ _ _ (trait_str_eval "lon_att" lon s1 Hlon1)).
      rewrite bool_decide_eq_false_2 by (apply not_elem_of_nil).
      unfold bind at 1. unfold bind at 1.
      now rewrite (py_or_eval None 0 s1 [] Ht1).
    + exists rest. rewrite E, <- app_assoc. reflexivity.
  - unfold construct, __init__.
    rewrite (bind_returns _ _ _ _ _ (init_defaults_eval log [] uuid4 [] frame)).
    set (s4 := mkLState _ _ _).
    unfold init_traits. destruct (unknown_key kwargs); [simpl; eauto|].
    unfold bind at 1.
    pose proof (apply_kwargs_table kwargs s4) as Ht.
    destruct (apply_kwargs kwargs s4) as [s5 [e|[]]]; [simpl; eauto|].
    simpl in Ht.
    rewrite (bind_returns _ _ _ _ _ (table_colnames_eval [] s5 Ht)).
    change (guess_lon_lat_columns (map cname [])) with (@None string, @None string).
    cbv iota beta.
    rewrite bool_decide_eq_false_2 by assumption.
    unfold bind at 1. unfold bind at 1.
    rewrite (py_or_eval None 0 s5 [] Ht). simpl. eauto.
  - unfold construct, __init__.
    rewrite (bind_returns _ _ _ _ _ (init_defaults_eval log [] uuid4 [] frame)).
    set (s4 := mkLState _ _ _).
    exists s4. split; [|reflexivity].
    unfold init_traits. change (unknown_key []) with false. cbv iota.
    change (apply_kwargs []) with (@ret LState unit tt).
    unfold bind at 1, ret at 1.
    rewrite (bind_returns _ _ _ _ _ (table_colnames_eval [] s4 eq_refl)).
    change (guess_lon_lat_columns (map cname [])) with (@None string, @None string).
    cbv iota beta.
    rewrite bool_decide_eq_false_2 by (apply not_elem_of_nil).
    unfold bind at 1. unfold bind at 1.
    now rewrite (py_or_eval None 0 s4 [] eq_refl).
Qed.

(** ** Attaching and detaching composed *)

Lemma list_remove_last (x : nat) l : x ∉ l -> list_remove x (l ++ [x]) = l.
Proof.
  induction l as [|y r IH]; simpl; intros H.
  - destruct (decide (x = x)); [reflexivity | congruence].
  - apply not_elem_of_cons in H as [Hne Hr].
    destruct (decide (x = y)); [contradiction|]. now rewrite IH.
Qed.

Lemma add_data_layer_returns (w : World) (m : nat) (uuid4 : string)
    (t : Table Unit) (frame : Val) (kwargs : list (string * Val)) (s : LState) :
  (forall r, r ∈ _layers w m -> is_Some (layers w !! r)) ->
  construct (wire w) uuid4 (Some t) frame kwargs = (s, inr tt) ->
  add_data_layer m uuid4 (Some t) frame kwargs w
  = (mkWorld (<[fresh (dom (layers w)) := set_manager (Some m) (self s)]>
                (<[fresh (dom (layers w)) := self s]> (layers w)))
       (<[m := _layers w m ++ [fresh (dom (layers w))]]> (managers w))
       (sent s) (warnings w ++ warned s),
     inr (fresh (dom (layers w))))
  /\ fresh (dom (layers w)) ∉ _layers w m.
Proof.
  intros Hlive Hc.
  set (layer := fresh (dom (layers w))).
  set (w1 := mkWorld (<[layer := self s]> (layers w)) (managers w)
                     (sent s) (warnings w ++ warned s)).
  assert (Hnew : TableLayer_new uuid4 (Some t) frame kwargs w = (w1, inr layer)).
  { unfold TableLayer_new. now rewrite Hc. }
  assert (Hout : layer ∉ _layers w1 m).
  { intros H. destruct (Hlive layer H) as [L HL].
    pose proof (fresh_layer_unused w) as Hf. fold layer in Hf. congruence. }
  split; [|exact Hout].
  unfold add_data_layer. rewrite (bind_returns _ _ _ _ _ Hnew).
  rewrite (bind_returns _ _ _ _ _
             (add_layer_absent m layer (self s) w1 (lookup_insert_eq _ _ _) Hout)).
  reflexivity.
Qed.

(** A layer added with [add_data_layer] and then taken out with
    [remove_layer] leaves the manager's list as it was before the two
    calls, and every other manager's too; the parent has received what
    construction sent and then the one remove message with the layer's id;
    a second [remove_layer] raises [ValueError] and changes nothing. *)
Theorem add_then_remove_layer (d : nat) (w : World) (m : nat) (uuid4 : string)
    (t : Table Unit) (frame : Val) (kwargs : list (string * Val)) (s : LState) :
  manager_inv m w ->
  construct (wire w) uuid4 (Some t) frame kwargs = (s, inr tt) ->
  exists w1 layer w2,
    add_data_layer m uuid4 (Some t) frame kwargs w = (w1, inr layer)
    /\ remove_layer (S (S (S d))) m layer w1 = (w2, inr tt)
    /\ (forall m', _layers w2 m' = _layers w m')
    /\ wire w2 = sent s ++ [table_layer_remove uuid4]
    /\ remove_layer (S (S (S d))) m layer w2
       = (w2, inl (ValueError "layer not in layer manager")).
Proof.
  intros [Hnd Hb] Hc.
  assert (Hlive : forall r, r ∈ _layers w m -> is_Some (layers w !! r)).
  { intros r Hr. destruct (Hb r Hr) as (L & HL & _). eauto. }
  destruct (add_data_layer_returns w m uuid4 t frame kwargs s Hlive Hc)
    as [Hadd Hout].
  set (layer := fresh (dom (layers w))) in *.
  set (L := set_manager (Some m) (self s)).
  set (w1 := mkWorld _ _ _ _) in Hadd.
  pose proof (construct_object (wire w) uuid4 t frame kwargs) as Ho.
  rewrite Hc in Ho. cbv zeta in Ho. simpl fst in Ho.
  destruct Ho as (_ & _ & Hid & _ & Hrem).
  assert (HL : layers w1 !! layer = Some L) by apply lookup_insert_eq.
  assert (Hls : _layers w1 m = _layers w m ++ [layer]).
  { unfold _layers at 1. simpl. now rewrite lookup_insert_eq. }
  assert (Hin : layer ∈ _layers w1 m).
  { rewrite Hls. apply elem_of_app. right. apply list_elem_of_here. }
  set (w2 := set_layers m (list_remove layer (_layers w1 m)) (marked layer L w1)).
  assert (Hrm : forall d0, remove (S (S d0)) layer w1 = (w2, inr tt)).
  { intros d0. rewrite (remove_live (S d0) layer L) by assumption.
    assert (Hm : _manager L = Some m) by reflexivity.
    rewrite Hm, remove_layer_marked.
    now rewrite bool_decide_eq_true_2. }
  assert (Hl2 : _layers w2 m = _layers w m).
  { unfold w2. rewrite layers_set_layers.
    destruct (decide (m = m)); [|congruence].
    rewrite Hls. now apply list_remove_last. }
  exists w1, layer, w2. split; [exact Hadd|]. split.
  { unfold remove_layer, remove_layer_with, bind, gets, modify, ret.
    rewrite bool_decide_eq_true_2 by assumption.
    rewrite (Hrm (S d)).
    rewrite bool_decide_eq_false_2; [reflexivity|]. now rewrite Hl2. }
  split.
  { intros m'. destruct (decide (m = m')) as [<-|Hne]; [exact Hl2|].
    unfold w2. rewrite layers_set_layers.
    destruct (decide (m = m')); [congruence|].
    unfold _layers, marked, w1. simpl. now rewrite lookup_insert_ne. }
  split.
  { unfold w2, marked, set_layers, w1. simpl. now rewrite <- Hid. }
  apply remove_layer_absent. now rewrite Hl2.
Qed.

(** A layer that is in one manager's list and is attached to a second
    manager is in both lists; [remove] on it then tells the second manager
    only, so that the first manager still lists the removed layer.
    [remove_layer] on the first manager then returns, sends nothing and
    drops it. *)
Theorem reattached_layer_stays_listed (d : nat) (w : World) (m1 m2 layer : nat)
    (L : TableLayer) :
  layers w !! layer = Some L -> _removed L = false -> m1 <> m2 ->
  layer ∈ _layers w m1 -> layer ∉ _layers w m2 ->
  exists w1 w2,
    _add_layer m2 layer w = (w1, inr tt)
    /\ (layer ∈ _layers w1 m1) /\ (layer ∈ _layers w1 m2)
    /\ remove (S (S d)) layer w1 = (w2, inr tt)
    /\ _layers w2 m1 = _layers w m1
    /\ _layers w2 m2 = _layers w m2
    /\ layers w2 !! layer = Some (set_removed true (set_manager (Some m2) L))
    /\ wire w2 = wire w ++ [table_layer_remove (id L)]
    /\ exists w3,
         remove_layer (S (S (S d))) m1 layer w2 = (w3, inr tt)
         /\ wire w3 = wire w2
         /\ _layers w3 m1 = list_remove layer (_layers w m1).
Proof.
  intros HL Hr Hne Hin1 Hout2.
  set (L1 := set_manager (Some m2) L).
  set (w1 := mkWorld (<[layer := L1]> (layers w))
               (<[m2 := _layers w m2 ++ [layer]]> (managers w))
               (wire w) (warnings w)).
  assert (Hadd : _add_layer m2 layer w = (w1, inr tt))
    by now apply add_layer_absent.
  assert (H11 : _layers w1 m1 = _layers w m1).
  { unfold _layers, w1. simpl. now rewrite lookup_insert_ne. }
  assert (H12 : _layers w1 m2 = _layers w m2 ++ [layer]).
  { unfold _layers at 1. unfold w1. simpl. now rewrite lookup_insert_eq. }
  assert (Hin2 : layer ∈ _layers w1 m2).
  { rewrite H12. apply elem_of_app. right. apply list_elem_of_here. }
  assert (HL1 : layers w1 !! layer = Some L1) by apply lookup_insert_eq.
  set (w2 := set_layers m2 (list_remove layer (_layers w1 m2)) (marked layer L1 w1)).
  assert (Hrm : remove (S (S d)) layer w1 = (w2, inr tt)).
  { rewrite (remove_live (S d) layer L1) by assumption.
    assert (Hm : _manager L1 = Some m2) by reflexivity.
    rewrite Hm, remove_layer_marked.
    now rewrite bool_decide_eq_true_2. }
  assert (H21 : _layers w2 m1 = _layers w m1).
  { unfold w2. rewrite layers_set_layers.
    destruct (decide (m2 = m1)); [congruence | exact H11]. }
  assert (H22 : _layers w2 m2 = _layers w m2).
  { unfold w2. rewrite layers_set_layers.
    destruct (decide (m2 = m2)); [|congruence].
    rewrite H12. now apply list_remove_last. }
  assert (HL2 : layers w2 !! layer = Some (set_removed true L1))
    by apply marked_lookup.
  exists w1, w2. split; [exact Hadd|].
  split; [now rewrite H11|]. split; [exact Hin2|]. split; [exact Hrm|].
  split; [exact H21|]. split; [exact H22|]. split; [exact HL2|].
  split; [reflexivity|].
  eexists. split.
  { unfold remove_layer, remove_layer_with, bind, gets, modify, ret.
    rewrite bool_decide_eq_true_2 by (now rewrite H21).
    rewrite (remove_removed (S (S d)) layer (set_removed true L1)) by auto.
    rewrite bool_decide_eq_true_2 by (now rewrite H21). reflexivity. }
  split; [reflexivity|].
  rewrite layers_set_layers. destruct (decide (m1 = m1)); [|congruence].
  now rewrite H21.
Qed.

End Properties.

(** * The properties on the sample registry *)

(** C3 on the registry: "60 arcmin" is equal to [deg] and is stored as
    [deg]; "kg" is equal to no member and is refused. *)
Lemma lon_unit_assignment_witness :
  (exists s', set_lon_unit (VStr "60 arcmin") sample_state = (s', inr tt)
              /\ trait (self s') "lon_unit" = VUnit Sample.deg)
  /\ (exists options,
        set_lon_unit (VStr "kg") sample_state
        = (sample_state,
           inl (ValueError ("lon_unit should be one of " ++ PyStr.join "/" options)))
        /\ Permutation (map unit_str (keys VALID_LON_UNITS)) options
        /\ Sorted str_le options).
Proof.
  split.
  - apply (lon_unit_assignment sample_state (VStr "60 arcmin") Sample.arcmin60 eq_refl);
      [apply list_elem_of_here | reflexivity].
  - apply (lon_unit_assignment sample_state (VStr "kg") Sample.kg eq_refl).
    intros k Hk. repeat (apply elem_of_cons in Hk as [->|Hk]; [reflexivity|]).
    inversion Hk.
Defined.

Example sample_state_km_traits :
  trait (self sample_state_km) "alt_att" = VStr "dist"
  /\ trait (self sample_state_km) "alt_unit" = VUnit Sample.km.
Proof. split; vm_compute; reflexivity. Qed.

(** C4 as stated fails: assigning to [alt_att] the name it already holds
    calls no observer, so [alt_unit] keeps [km] although the column's unit
    resolves to [m]. *)
Lemma alt_att_assignment_counterexample :
  ~ (forall (s : LState) (name : string) (t : Table Unit) (column : Column Unit)
            (unit m : Unit),
       name <> "" -> table (self s) = Some t ->
       find (fun c => String.eqb (cname c) name) t = Some column ->
       cunit column = Some unit ->
       m ∈ keys VALID_ALT_UNITS -> unit_eqb unit m = true ->
       exists s', set_alt_att (VStr name) s = (s', inr tt)
         /\ trait (self s') "alt_unit" = VUnit m).
Proof.
  intros H.
  destruct (H sample_state_km "dist" sample_table
              (mkColumn "dist" (Some Sample.millikm)) Sample.millikm Sample.m)
    as (s' & Hs & Ht); try reflexivity.
  - discriminate.
  - apply list_elem_of_here.
  - vm_compute in Hs. injection Hs as <-. vm_compute in Ht. discriminate.
Qed.

(** C4, amended, on the sample layer: the columns [dist] (a unit equal to
    [m]), [flux] (kilograms) and [Vmag] (no unit). *)
Lemma alt_att_change_witness :
  (exists s', set_alt_att (VStr "dist") sample_state = (s', inr tt)
     /\ trait (self s') "alt_unit" = VUnit Sample.m
     /\ warned s' = warned sample_state)
  /\ (exists s' w, set_alt_att (VStr "flux") sample_state = (s', inr tt)
     /\ trait (self s') "alt_unit" = trait (self sample_state) "alt_unit"
     /\ warned s' = warned sample_state ++ [w])
  /\ (exists s', set_alt_att (VStr "Vmag") sample_state = (s', inr tt)
     /\ trait (self s') "alt_unit" = trait (self sample_state) "alt_unit"
     /\ warned s' = warned sample_state).
Proof.
  split; [|split].
  - destruct (alt_att_change sample_state "dist") as [_ H]; [reflexivity|].
    destruct (H sample_table (mkColumn "dist" (Some Sample.millikm)))
      as (H1 & _ & _); [discriminate | reflexivity | reflexivity |].
    apply (H1 Sample.millikm Sample.m);
      [reflexivity | apply list_elem_of_here | reflexivity].
  - destruct (alt_att_change sample_state "flux") as [_ H]; [reflexivity|].
    destruct (H sample_table (mkColumn "flux" (Some Sample.kg)))
      as (_ & H2 & _); [discriminate | reflexivity | reflexivity |].
    apply (H2 Sample.kg); [reflexivity|].
    intros k Hk. repeat (apply elem_of_cons in Hk as [->|Hk]; [reflexivity|]).
    inversion Hk.
  - destruct (alt_att_change sample_state "Vmag") as [_ H]; [reflexivity|].
    destruct (H sample_table (mkColumn "Vmag" None))
      as (_ & _ & H3); [discriminate | reflexivity | reflexivity |].
    apply H3. reflexivity.
Defined.

(** C5 as stated fails: the sample layer holds [hourangle] (derived from
    its column "ra"), and assigning "hourangle" to it returns and sends
    nothing. *)
Lemma unit_message_carries_token_counterexample :
  ~ (forall s : LState,
       exists s', set_lon_unit (VStr "hourangle") s = (s', inr tt)
         /\ sent s'
            = sent s ++ [table_layer_set (id (self s)) "raUnits" (VStr "hours")]).
Proof.
  intros H. destruct (H sample_state) as (s' & Hs & Hsent).
  vm_compute in Hs. injection Hs as <-.
  apply (f_equal (@length Msg)) in Hsent. vm_compute in Hsent. discriminate.
Qed.

(** C5, amended, on the sample layer, whose [lon_unit] is [hourangle]:
    "deg" is sent as "degrees", "hourangle" is not sent again. *)
Lemma unit_message_carries_token_witness :
  (exists unit m token,
     u_Unit false (VStr "deg") = Some unit /\ unit_eqb unit m = true
     /\ m ∈ keys VALID_LON_UNITS
     /\ trait (self (fst (set_lon_unit (VStr "deg") sample_state))) "lon_unit"
        = VUnit m
     /\ dict_get m VALID_LON_UNITS = Some token
     /\ sent (fst (set_lon_unit (VStr "deg") sample_state))
        = sent sample_state
          ++ (if py_eq (trait (self sample_state) "lon_unit") (VUnit m) then []
              else [table_layer_set (id (self sample_state)) "raUnits"
                      (VStr token)]))
  /\ (exists s', set_lon_unit (VStr "hourangle") sample_state = (s', inr tt)
        /\ trait (self s') "lon_unit" = VUnit Sample.hourangle
        /\ sent s' = sent sample_state ++ []).
Proof.
  destruct (unit_message_carries_token sample_state) as (Hlon & _ & Hh & _).
  split; [|exact Hh].
  destruct (Hlon (VStr "deg") (fst (set_lon_unit (VStr "deg") sample_state)))
    as [(Hn & _)|H]; [vm_compute; reflexivity | discriminate | exact H].
Defined.

Example sample_deg_sent :
  sent (fst (set_lon_unit (VStr "deg") sample_state))
  = sent sample_state ++ [table_layer_set "layer-0" "raUnits" (VStr "degrees")].
Proof. vm_compute. reflexivity. Qed.

(** C6 on the sample table, with [alt_att] given as a keyword. *)
Lemma forced_defaults_sent_once_witness :
  exists rest,
    sent (fst (construct [] "layer-0" (Some sample_table) (VStr "Sky")
                 [("alt_att", VStr "dist")]))
    = [] ++ default_messages "layer-0" sample_table (VStr "Sky") ++ rest
    /\ count_msgs is_create
         (default_messages "layer-0" sample_table (VStr "Sky") ++ rest) = 1
    /\ count_msgs (is_set "scaleFactor")
         (default_messages "layer-0" sample_table (VStr "Sky") ++ rest) = 1
    /\ count_msgs (is_set "color")
         (default_messages "layer-0" sample_table (VStr "Sky") ++ rest) = 1
    /\ count_msgs (is_set "opacity")
         (default_messages "layer-0" sample_table (VStr "Sky") ++ rest) = 1
    /\ trait_default "size_scale" = VFloat 10
    /\ trait_default "color" = VStr "white"
    /\ trait_default "opacity" = VFloat 1.
Proof.
  apply (forced_defaults_sent_once [] "layer-0" sample_table (VStr "Sky")
           [("alt_att", VStr "dist")]).
  intros key Hk Hin. simpl in Hk.
  apply list_elem_of_singleton in Hk as ->.
  repeat (apply elem_of_cons in Hin as [Hin|Hin]; [discriminate|]).
  inversion Hin.
Defined.

Example sample_world_layer :
  layers sample_world !! 0 = Some (set_manager (Some 0) (self sample_state))
  /\ _layers sample_world 0 = [0].
Proof. split; vm_compute; reflexivity. Qed.

(** C7 on the sample heap: the layer at address 0, attached to the manager
    at address 0. *)
Lemma remove_twice_witness :
  snd (remove 2 0 sample_world) <> inl RecursionError
  /\ wire (fst (remove 2 0 sample_world))
     = wire sample_world ++ [table_layer_remove "layer-0"]
  /\ remove 2 0 (fst (remove 2 0 sample_world))
     = (fst (remove 2 0 sample_world), inr tt)
  /\ count_msgs is_remove (wire (fst (remove 2 0 (fst (remove 2 0 sample_world)))))
     = count_msgs is_remove (wire sample_world) + 1.
Proof.
  apply (remove_twice 0 sample_world 0 (set_manager (Some 0) (self sample_state)));
    vm_compute; reflexivity.
Defined.

(** C8 as stated fails: a layer added to a new manager (at address 1) and
    then attached to the older manager at address 0 stays in the new
    manager's list, with the older manager as its [_manager]. *)
Lemma manager_invariant_counterexample :
  ~ (forall (depth : nat) (w0 : World) (ops : list Op),
       let m := fresh (dom (managers w0)) in
       let w := run_ops depth ops (fst (LayerManager_new w0)) in
       NoDup (_layers w m)
       /\ (forall layer, layer ∈ _layers w m ->
             exists L, layers w !! layer = Some L /\ _manager L = Some m)
       /\ (forall layer, layer ∈ _layers w m ->
             _add_layer m layer w
             = (w, inl (ValueError "layer already exists in layer manager")))
       /\ (forall layer, layer ∉ _layers w m ->
             remove_layer depth m layer w
             = (w, inl (ValueError "layer not in layer manager")))).
Proof.
  intros H.
  destruct (H 3 (fst (LayerManager_new empty_world))
              [add 1 "layer-0" (Some sample_table) (VStr "Sky") []; attach 0 0])
    as (_ & Hb & _).
  destruct (Hb 0) as (L & HL & Hm).
  - vm_compute. apply list_elem_of_here.
  - vm_compute in HL. injection HL as <-. vm_compute in Hm. discriminate.
Qed.

(** C8, amended, on a heap with two older managers (at addresses 0 and
    1) and the new manager at address 2: a layer is added to manager 2 and
    another to manager 0; the second is attached to manager 1 (manager 2
    does not list it) and then to manager 2; the first is removed. *)
Lemma manager_invariant_witness :
  let w :=
    run_ops 3
      [add 2 "layer-0" (Some sample_table) (VStr "Sky") [];
       add 0 "layer-1" (Some sample_table) (VStr "Sky") [];
       attach 1 1; attach 2 1; layer_remove 0]
      (fst (LayerManager_new
              (fst (LayerManager_new (fst (LayerManager_new empty_world)))))) in
  NoDup (_layers w 2)
  /\ (forall layer, layer ∈ _layers w 2 ->
        exists L, layers w !! layer = Some L /\ _manager L = Some 2)
  /\ (forall layer, layer ∈ _layers w 2 ->
        _add_layer 2 layer w
        = (w, inl (ValueError "layer already exists in layer manager")))
  /\ (forall layer, layer ∉ _layers w 2 ->
        remove_layer 3 2 layer w
        = (w, inl (ValueError "layer not in layer manager"))).
Proof.
  apply (manager_invariant 3
           (fst (LayerManager_new (fst (LayerManager_new empty_world))))
           [add 2 "layer-0" (Some sample_table) (VStr "Sky") [];
            add 0 "layer-1" (Some sample_table) (VStr "Sky") [];
            attach 1 1; attach 2 1; layer_remove 0]).
  split; [exact I|]. split; [exact I|]. split.
  - right. vm_compute. intros Hin.
    apply list_elem_of_singleton in Hin. discriminate.
  - split; [left; reflexivity|]. split; exact I.
Defined.

Example sample_run_list :
  _layers
    (run_ops 3
       [add 2 "layer-0" (Some sample_table) (VStr "Sky") [];
        add 0 "layer-1" (Some sample_table) (VStr "Sky") [];
        attach 1 1; attach 2 1; layer_remove 0]
       (fst (LayerManager_new
               (fst (LayerManager_new (fst (LayerManager_new empty_world))))))) 2
  = [1].
Proof. vm_compute. reflexivity. Qed.

(** C9 on the sample table, with the keyword [colour]. *)
Lemma unknown_keyword_after_messages_witness :
  snd (construct [] "layer-0" (Some sample_table) (VStr "Sky")
         [("colour", VStr "red")])
  = inl (KeyError "a key doesn't match any layer trait name")
  /\ sent (fst (construct [] "layer-0" (Some sample_table) (VStr "Sky")
                  [("colour", VStr "red")]))
     = [] ++ [table_layer_create "layer-0"
                (Base64.b64encode
                   (encode_ascii_replace (crlf (table_write sample_table))))
                (VStr "Sky");
              table_layer_set "layer-0" "scaleFactor" (VFloat 10);
              table_layer_set "layer-0" "color" (VStr "white");
              table_layer_set "layer-0" "opacity" (VFloat 1)].
Proof.
  apply (unknown_keyword_after_messages [] "layer-0" sample_table (VStr "Sky")
           [("colour", VStr "red")]).
  exists "colour". split; [apply list_elem_of_here|].
  intros Hin. repeat (apply elem_of_cons in Hin as [Hin|Hin]; [discriminate|]).
  inversion Hin.
Defined.

(** The guesser's result on a table whose names only start with the
    stems. *)
Lemma guess_lon_lat_columns_result_witness :
  (Some "RA_deg" = None /\ Some "Dec_deg" = None)
  \/ (exists lon lat, (lon, lat) ∈ stem_pairs
        /\ Some "RA_deg" = Some lon /\ Some "Dec_deg" = Some lat
        /\ PyList.count lon (map PyStr.lower ["RA_deg"; "Dec_deg"; "pm_ra"]) = 1
        /\ PyList.count lat (map PyStr.lower ["RA_deg"; "Dec_deg"; "pm_ra"]) = 1)
  \/ (exists lon lat x y, (lon, lat) ∈ stem_pairs
        /\ Some "RA_deg" = Some x /\ Some "Dec_deg" = Some y
        /\ x ∈ ["RA_deg"; "Dec_deg"; "pm_ra"] /\ y ∈ ["RA_deg"; "Dec_deg"; "pm_ra"]
        /\ PyStr.startswith lon (PyStr.lower x) = true
        /\ PyStr.startswith lat (PyStr.lower y) = true).
Proof.
  apply (guess_lon_lat_columns_result ["RA_deg"; "Dec_deg"; "pm_ra"]).
  reflexivity.
Defined.

(** Names that hold a stem without starting with it are not matched. *)
Lemma guess_lon_lat_columns_no_match_witness :
  guess_lon_lat_columns ["pm_ra"; "pm_dec"; "dlat"; "dlon"] = (None, None).
Proof.
  apply (guess_lon_lat_columns_no_match ["pm_ra"; "pm_dec"; "dlat"; "dlon"]).
  intros lon lat Hin.
  repeat (apply elem_of_cons in Hin as [[= -> ->]|Hin];
          [split; intros [H _]; vm_compute in H; discriminate|]).
  inversion Hin.
Defined.

(** The default columns of the sample layer: the guess, "ra" and "dec". *)
Lemma construct_default_columns_witness :
  (exists v,
     guess_or_column (fst (guess_lon_lat_columns (map cname sample_table))) 0
       (map cname sample_table) = Some v
     /\ trait (self sample_state) "lon_att" = VStr v)
  /\ (exists v,
        guess_or_column (snd (guess_lon_lat_columns (map cname sample_table))) 1
          (map cname sample_table) = Some v
        /\ trait (self sample_state) "lat_att" = VStr v).
Proof.
  destruct (construct_default_columns [] "layer-0" sample_table (VStr "Sky") []
              sample_state) as [H1 H2]; [vm_compute; reflexivity|].
  split; [apply H1 | apply H2]; intros Hin; inversion Hin.
Defined.

(** The altitude units on the registry: "0.001 km" is equal to [m] and is
    stored as [m]; "ft" is read with the imperial units enabled; "kg" is
    equal to no member and is refused; "parsnip" is no unit. *)
Lemma alt_unit_assignment_witness :
  (exists s', set_alt_unit (VStr "0.001 km") sample_state = (s', inr tt)
     /\ trait (self s') "alt_unit" = VUnit Sample.m)
  /\ (exists s', set_alt_unit (VStr "ft") sample_state = (s', inr tt)
        /\ trait (self s') "alt_unit" = VUnit Sample.foot)
  /\ (exists options,
        set_alt_unit (VStr "kg") sample_state
        = (sample_state,
           inl (ValueError ("alt_unit should be one of " ++ PyStr.join "/" options)))
        /\ Permutation (map unit_str (keys VALID_ALT_UNITS)) options
        /\ Sorted str_le options)
  /\ set_alt_unit (VStr "parsnip") sample_state = (sample_state, inl UnitError).
Proof.
  split; [|split; [|split]].
  - destruct (alt_unit_assignment sample_state (VStr "0.001 km")) as (H & _ & _);
      [discriminate|].
    apply (H Sample.millikm Sample.m);
      [reflexivity | apply list_elem_of_here | reflexivity].
  - destruct (alt_unit_assignment sample_state (VStr "ft")) as (H & _ & _);
      [discriminate|].
    apply (H Sample.foot Sample.foot);
      [reflexivity | apply list_elem_of_further, list_elem_of_here | reflexivity].
  - destruct (alt_unit_assignment sample_state (VStr "kg")) as (_ & H & _);
      [discriminate|].
    apply (H Sample.kg); [reflexivity|].
    intros k Hk. repeat (apply elem_of_cons in Hk as [->|Hk]; [reflexivity|]).
    inversion Hk.
  - destruct (alt_unit_assignment sample_state (VStr "parsnip")) as (_ & _ & H);
      [discriminate|].
    apply H. reflexivity.
Defined.

(** The observer of [lon_att] on the sample layer, whose [lon_att] is "ra":
    the columns [dec] (degrees), [flux] (kilograms), [Vmag] (no unit) and a
    name that is no column. *)
Lemma lon_att_change_witness :
  (exists s', set_lon_att (VStr "dec") sample_state = (s', inr tt)
     /\ trait (self s') "lon_unit" = VUnit Sample.deg
     /\ warned s' = warned sample_state)
  /\ (exists s' w, set_lon_att (VStr "flux") sample_state = (s', inr tt)
     /\ trait (self s') "lon_unit" = trait (self sample_state) "lon_unit"
     /\ warned s' = warned sample_state ++ [w])
  /\ (exists s', set_lon_att (VStr "Vmag") sample_state = (s', inr tt)
     /\ trait (self s') "lon_unit" = trait (self sample_state) "lon_unit"
     /\ warned s' = warned sample_state)
  /\ set_lon_att (VStr "glon") sample_state
     = (with_self (store_trait "lon_att" (VStr "glon")) sample_state,
        inl (KeyError "glon")).
Proof.
  split; [|split; [|split]].
  - destruct (lon_att_change sample_state "dec") as (_ & _ & H); [reflexivity|].
    destruct (H sample_table (mkColumn "dec" (Some Sample.deg)))
      as (H1 & _ & _); [discriminate | reflexivity | reflexivity |].
    apply (H1 Sample.deg Sample.deg);
      [reflexivity | apply list_elem_of_here | reflexivity].
  - destruct (lon_att_change sample_state "flux") as (_ & _ & H); [reflexivity|].
    destruct (H sample_table (mkColumn "flux" (Some Sample.kg)))
      as (_ & H2 & _); [discriminate | reflexivity | reflexivity |].
    apply (H2 Sample.kg); [reflexivity|].
    intros k Hk. repeat (apply elem_of_cons in Hk as [->|Hk]; [reflexivity|]).
    inversion Hk.
  - destruct (lon_att_change sample_state "Vmag") as (_ & _ & H); [reflexivity|].
    destruct (H sample_table (mkColumn "Vmag" None))
      as (_ & _ & H3); [discriminate | reflexivity | reflexivity |].
    apply H3. reflexivity.
  - destruct (lon_att_change sample_state "glon") as (_ & H & _); [reflexivity|].
    apply (H sample_table); [discriminate | reflexivity | reflexivity].
Defined.

(** The plain traits on the sample layer: [opacity] refuses a string and
    sends a new number once; [lat_att], assigned the name it holds, sends
    nothing. *)
Lemma plain_trait_assignment_witness :
  setattr "opacity" (VStr "half") sample_state = (sample_state, inl TraitError)
  /\ setattr "opacity" (VFloat (1 # 2)) sample_state
     = (mkLState (store_trait "opacity" (VFloat (1 # 2)) (self sample_state))
          (sent sample_state
           ++ [table_layer_set (id (self sample_state)) "opacity" (VFloat (1 # 2))])
          (warned sample_state), inr tt)
  /\ setattr "lat_att" (VStr "dec") sample_state
     = (with_self (store_trait "lat_att" (VStr "dec")) sample_state, inr tt).
Proof.
  split; [|split].
  - destruct (plain_trait_assignment sample_state "opacity" Float (VFloat 1)
                "opacity" (VStr "half")) as [H _];
      [repeat first [apply list_elem_of_here | apply list_elem_of_further]
      | reflexivity |].
    apply H. reflexivity.
  - destruct (plain_trait_assignment sample_state "opacity" Float (VFloat 1)
                "opacity" (VFloat (1 # 2))) as [_ H];
      [repeat first [apply list_elem_of_here | apply list_elem_of_further]
      | reflexivity |].
    apply H. reflexivity.
  - destruct (plain_trait_assignment sample_state "lat_att" Unicode (VStr "")
                "latColumn" (VStr "dec")) as [_ H];
      [repeat first [apply list_elem_of_here | apply list_elem_of_further]
      | reflexivity |].
    apply H. reflexivity.
Defined.

Example sample_state_constructed :
  construct [] "layer-0" (Some sample_table) (VStr "Sky") [] = (sample_state, inr tt).
Proof. vm_compute. reflexivity. Qed.

(** On the sample table with the keyword [opacity = 0.5]: the parent
    receives the default 1 and then 0.5. *)
Lemma overridden_default_sent_twice_witness :
  exists a b c,
    sent (fst (construct [] "layer-0" (Some sample_table) (VStr "Sky")
                 [("opacity", VFloat (1 # 2))]))
    = [] ++ a ++ table_layer_set "layer-0" "opacity" (VFloat 1)
                 :: b ++ table_layer_set "layer-0" "opacity" (VFloat (1 # 2)) :: c
    /\ count_msgs (is_set "opacity") a = 0
    /\ count_msgs (is_set "opacity") b = 0
    /\ count_msgs (is_set "opacity") c = 0.
Proof.
  apply (overridden_default_sent_twice [] "layer-0" sample_table (VStr "Sky")
           [] [] "opacity" Float (VFloat 1) "opacity" (VFloat (1 # 2))).
  - repeat first [apply list_elem_of_here | apply list_elem_of_further].
  - reflexivity.
  - apply not_elem_of_nil.
  - apply not_elem_of_nil.
  - reflexivity.
  - vm_compute. reflexivity.
Defined.

(** The sample layer with [alt_att = "dist"], given a table without that
    column. *)
Lemma update_data_resets_alt_att_witness :
  exists rest,
    trait (self (fst (update_data (Some sample_lonlat) sample_state_km))) "alt_att"
    = VStr ""
    /\ trait (self (fst (update_data (Some sample_lonlat) sample_state_km))) "alt_unit"
       = trait (self sample_state_km) "alt_unit"
    /\ sent (fst (update_data (Some sample_lonlat) sample_state_km))
       = sent sample_state_km
         ++ table_layer_update (id (self sample_state_km))
              (Base64.b64encode
                 (encode_ascii_replace (crlf (table_write sample_lonlat))))
            :: table_layer_set (id (self sample_state_km)) "altColumn" (VStr "")
            :: rest.
Proof.
  apply (update_data_resets_alt_att sample_lonlat sample_state_km "dist").
  - reflexivity.
  - discriminate.
  - intros H. repeat (apply elem_of_cons in H as [H|H]; [discriminate|]).
    inversion H.
Defined.

(** The sample layer given its own table again. *)
Lemma update_data_keeps_columns_witness :
  exists s', update_data (Some sample_table) sample_state = (s', inr tt)
    /\ trait (self s') "lon_att" = VStr "ra"
    /\ trait (self s') "lat_att" = VStr "dec"
    /\ trait (self s') "alt_att" = VStr ""
    /\ table (self s') = Some sample_table.
Proof.
  apply (update_data_keeps_columns sample_table sample_state "ra" "dec" "").
  - reflexivity.
  - apply list_elem_of_here.
  - reflexivity.
  - apply list_elem_of_further, list_elem_of_here.
  - reflexivity.
  - left. reflexivity.
Defined.

(** The same, from the construction of the sample layer. *)
Lemma update_data_same_table_witness :
  exists s'', update_data (Some sample_table) sample_state = (s'', inr tt)
    /\ trait (self s'') "lon_att" = trait (self sample_state) "lon_att"
    /\ trait (self s'') "lat_att" = trait (self sample_state) "lat_att"
    /\ trait (self s'') "alt_att" = trait (self sample_state) "alt_att".
Proof.
  apply (update_data_same_table [] "layer-0" sample_table (VStr "Sky") []);
    [apply not_elem_of_nil | apply not_elem_of_nil | apply not_elem_of_nil |].
  apply sample_state_constructed.
Defined.

(** The sample layer given a table with none of its columns: the guess
    finds "lon_deg" and "lat_deg". *)
Lemma update_data_replaces_columns_witness :
  (exists v,
     guess_or_column (fst (guess_lon_lat_columns (map cname sample_lonlat))) 0
       (map cname sample_lonlat) = Some v
     /\ trait (self (fst (update_data (Some sample_lonlat) sample_state))) "lon_att"
        = VStr v)
  /\ (exists v,
        guess_or_column (snd (guess_lon_lat_columns (map cname sample_lonlat))) 1
          (map cname sample_lonlat) = Some v
        /\ trait (self (fst (update_data (Some sample_lonlat) sample_state))) "lat_att"
           = VStr v).
Proof.
  destruct (update_data_replaces_columns sample_lonlat sample_state
              (fst (update_data (Some sample_lonlat) sample_state))
              "ra" "dec" "") as [H1 H2];
    [reflexivity | reflexivity | reflexivity | vm_compute; reflexivity |].
  split; [apply H1 | apply H2]; intros H;
    repeat (apply elem_of_cons in H as [H|H]; [discriminate|]); inversion H.
Defined.

(** A table with no columns, for the sample layer and for a new one. *)
Lemma empty_table_raises_witness :
  (exists s', update_data (Some []) sample_state = (s', inl IndexError)
     /\ table (self s') = Some []
     /\ exists rest,
          sent s'
          = sent sample_state
            ++ table_layer_update (id (self sample_state))
                 (Base64.b64encode (encode_ascii_replace (crlf (table_write []))))
               :: rest)
  /\ (exists e, snd (construct [] "layer-1" (Some []) (VStr "Sky") []) = inl e)
  /\ (exists s', construct [] "layer-1" (Some []) (VStr "Sky") [] = (s', inl IndexError)
        /\ sent s' = [] ++ default_messages "layer-1" [] (VStr "Sky")).
Proof.
  apply (empty_table_raises sample_state "ra" "" [] "layer-1" (VStr "Sky") []).
  - reflexivity.
  - reflexivity.
  - apply not_elem_of_nil.
Defined.

(** The text of the sample table. *)
Lemma table_b64_text_witness :
  exists text,
    _table_b64 sample_state = (sample_state, inr (Base64.b64encode text))
    /\ text = encode_ascii_replace (crlf (table_write sample_table))
    /\ isascii text = true
    /\ lf_after_cr false text = true
    /\ String.length text
       = String.length (table_write sample_table)
         + count_char "010" (table_write sample_table)
    /\ count_char "013" (crlf (table_write sample_table))
       = count_char "013" (table_write sample_table)
         + count_char "010" (table_write sample_table).
Proof.
  apply (table_b64_text sample_state sample_table). reflexivity.
Defined.

Example sample_world_list : _layers sample_world 0 = [0].
Proof. vm_compute. reflexivity. Qed.

(** The sample heap: removing its layer empties the manager's list. *)
Lemma remove_detaches_witness :
  exists w',
    remove 2 0 sample_world = (w', inr tt)
    /\ remove_layer 3 0 0 sample_world = (w', inr tt)
    /\ _layers w' 0 = filter (fun l => l <> 0) (_layers sample_world 0)
    /\ (0 ∉ _layers w' 0)
    /\ (forall m', m' <> 0 -> _layers w' m' = _layers sample_world m')
    /\ wire w' = wire sample_world
                 ++ [table_layer_remove (id (set_manager (Some 0) (self sample_state)))]
    /\ layers w'
       = <[0 := set_removed true (set_manager (Some 0) (self sample_state))]>
           (layers sample_world).
Proof.
  apply (remove_detaches 0 sample_world 0 0
           (set_manager (Some 0) (self sample_state))).
  - apply sample_world_layer.
  - reflexivity.
  - reflexivity.
  - rewrite sample_world_list. apply list_elem_of_here.
  - rewrite sample_world_list. apply NoDup_singleton.
Defined.

Lemma sample_world_live r :
  r ∈ _layers sample_world 0 -> is_Some (layers sample_world !! r).
Proof.
  rewrite sample_world_list. intros H. apply list_elem_of_singleton in H as ->.
  exists (set_manager (Some 0) (self sample_state)). apply sample_world_layer.
Qed.

Example sample_second_layer :
  construct (wire sample_world) "layer-1" (Some sample_table) (VStr "Sky") []
  = (fst (construct (wire sample_world) "layer-1" (Some sample_table) (VStr "Sky") []),
     inr tt).
Proof. vm_compute. reflexivity. Qed.

(** The sample manager: without a table, and with a second layer over the
    sample table. *)
Lemma add_data_layer_appends_witness :
  add_data_layer 0 "layer-1" None (VStr "Sky") [] sample_world
  = (sample_world, inl (ValueError "The table argument is required"))
  /\ exists w' layer L,
       add_data_layer 0 "layer-1" (Some sample_table) (VStr "Sky") [] sample_world
       = (w', inr layer)
       /\ layers sample_world !! layer = None
       /\ layers w' !! layer = Some L
       /\ _manager L = Some 0 /\ id L = "layer-1"
       /\ _layers w' 0 = _layers sample_world 0 ++ [layer]
       /\ __len__ w' 0 = S (__len__ sample_world 0)
       /\ __getitem__ w' 0 (-1) = inr layer
       /\ (forall i, i < __len__ sample_world 0 ->
             __getitem__ w' 0 (Z.of_nat i) = __getitem__ sample_world 0 (Z.of_nat i))
       /\ wire w'
          = sent (fst (construct (wire sample_world) "layer-1" (Some sample_table)
                         (VStr "Sky") [])).
Proof.
  split.
  - apply (add_data_layer_appends sample_world 0 "layer-1" None (VStr "Sky") []).
    apply sample_world_live.
  - pose proof (add_data_layer_appends sample_world 0 "layer-1" (Some sample_table)
                  (VStr "Sky") [] sample_world_live) as H.
    cbv beta iota in H. rewrite sample_second_layer in H. exact H.
Defined.

Lemma sample_world_inv : manager_inv 0 sample_world.
Proof.
  split; [rewrite sample_world_list; apply NoDup_singleton|].
  intros layer H. rewrite sample_world_list in H.
  apply list_elem_of_singleton in H as ->.
  exists (set_manager (Some 0) (self sample_state)).
  split; [apply sample_world_layer | reflexivity].
Qed.

(** The sample manager: a second layer added and removed again. *)
Lemma add_then_remove_layer_witness :
  exists w1 layer w2,
    add_data_layer 0 "layer-1" (Some sample_table) (VStr "Sky") [] sample_world
    = (w1, inr layer)
    /\ remove_layer 3 0 layer w1 = (w2, inr tt)
    /\ (forall m', _layers w2 m' = _layers sample_world m')
    /\ wire w2
       = sent (fst (construct (wire sample_world) "layer-1" (Some sample_table)
                      (VStr "Sky") []))
         ++ [table_layer_remove "layer-1"]
    /\ remove_layer 3 0 layer w2
       = (w2, inl (ValueError "layer not in layer manager")).
Proof.
  apply (add_then_remove_layer 0 sample_world 0 "layer-1" sample_table (VStr "Sky") []).
  - apply sample_world_inv.
  - apply sample_second_layer.
Defined.

Example sample_world2_layers :
  layers sample_world2 !! 0 = Some (set_manager (Some 0) (self sample_state))
  /\ _layers sample_world2 0 = [0] /\ _layers sample_world2 1 = [].
Proof. repeat split; vm_compute; reflexivity. Qed.

(** The sample layer, in the list of manager 0, attached to manager 1 and
    then removed. *)
Lemma reattached_layer_stays_listed_witness :
  exists w1 w2,
    _add_layer 1 0 sample_world2 = (w1, inr tt)
    /\ (0 ∈ _layers w1 0) /\ (0 ∈ _layers w1 1)
    /\ remove 2 0 w1 = (w2, inr tt)
    /\ _layers w2 0 = _layers sample_world2 0
    /\ _layers w2 1 = _layers sample_world2 1
    /\ layers w2 !! 0
       = Some (set_removed true
                 (set_manager (Some 1) (set_manager (Some 0) (self sample_state))))
    /\ wire w2
       = wire sample_world2
         ++ [table_layer_remove (id (set_manager (Some 0) (self sample_state)))]
    /\ exists w3,
         remove_layer 3 0 0 w2 = (w3, inr tt)
         /\ wire w3 = wire w2
         /\ _layers w3 0 = list_remove 0 (_layers sample_world2 0).
Proof.
  destruct sample_world2_layers as (HL & H0 & H1).
  apply (reattached_layer_stays_listed 0 sample_world2 0 1 0
           (set_manager (Some 0) (self sample_state))).
  - exact HL.
  - reflexivity.
  - discriminate.
  - rewrite H0. apply list_elem_of_here.
  - rewrite H1. apply not_elem_of_nil.
Defined.
